(** * BismuthRPC wallet store (RPCServer/rpcwallet.py): a shallow embedding

    The [Wallet] class keeps accounts as JSON files in a directory tree and a
    reverse index [address_to_account].  The embedding follows the Python
    source method by method:

    - Python values are [pyval] (dynamically typed; subscripting, iteration
      and [append] are partial and raise the Python exception kinds);
    - a JSON document on disk is a [json] tree; [json_dump] and [json_load]
      are the two directions of the [json] module;
    - the file system is a tree of directories whose listings are ordered
      (the order [os.walk] sees), addressed by [/]-separated path strings;
    - methods run in a state-and-exception monad over [world] (the disk and
      the object's slots). *)

From Stdlib Require Import List String Ascii ZArith NArith Bool Lia.
From Stdlib Require Import DecimalString.
Import ListNotations.
Local Open Scope string_scope.
Local Open Scope list_scope.

Set Warnings "-register-all".

(** ** Strings *)

Module Str.

(** [str.lower()] on one character (ASCII letters; characters are bytes here). *)
Definition lower_ascii (c : ascii) : ascii :=
  let n := N_of_ascii c in
  if ((65 <=? n) && (n <=? 90))%N then ascii_of_N (n + 32) else c.

Fixpoint lower (s : string) : string :=
  match s with
  | EmptyString => EmptyString
  | String c r => String (lower_ascii c) (lower r)
  end.

(** [s[:n]] *)
Definition take (n : nat) (s : string) : string := substring 0 n s.

(** [c in s] for a character *)
Fixpoint mem (c : ascii) (s : string) : bool :=
  match s with
  | EmptyString => false
  | String d r => Ascii.eqb c d || mem c r
  end.

Fixpoint forallb (p : ascii -> bool) (s : string) : bool :=
  match s with
  | EmptyString => true
  | String c r => p c && forallb p r
  end.

(** [s.split(sep)] with the empty pieces kept, as Python does. *)
Fixpoint split_aux (sep : ascii) (acc : string) (s : string) : list string :=
  match s with
  | EmptyString => [acc]
  | String c r =>
      if Ascii.eqb c sep then acc :: split_aux sep EmptyString r
      else split_aux sep (acc ++ String c EmptyString) r
  end.

Definition split (sep : ascii) (s : string) : list string :=
  split_aux sep EmptyString s.

(** Index of the last occurrence of [c] in [s] ([s.rfind(c)]), if any. *)
Fixpoint rfind_from (c : ascii) (i : nat) (s : string) : option nat :=
  match s with
  | EmptyString => None
  | String d r =>
      match rfind_from c (S i) r with
      | Some j => Some j
      | None => if Ascii.eqb d c then Some i else None
      end
  end.

Definition rfind (c : ascii) (s : string) : option nat := rfind_from c 0 s.

(** [n * c] for a character *)
Fixpoint repeat (n : nat) (c : ascii) : string :=
  match n with
  | O => EmptyString
  | S k => String c (repeat k c)
  end.

(** Decimal text of an integer ([str(n)]). *)
Definition of_Z (z : Z) : string := NilZero.string_of_int (Z.to_int z).

(** [os.path.splitext] on a file name without directory part: the extension
    starts at the last dot, unless only dots come before it. *)
Definition splitext (p : string) : string * string :=
  match rfind "." p with
  | None => (p, EmptyString)
  | Some i =>
      if forallb (Ascii.eqb ".") (substring 0 i p) then (p, EmptyString)
      else (substring 0 i p, substring i (String.length p - i) p)
  end.

End Str.

(** ** Python values and JSON documents *)

(** A JSON document as [json.load] reads it and [json.dump] writes it: the
    members of an object are kept in textual order, repeated names included.
    Numbers are the integers (floats are not modelled). *)
Inductive json : Type :=
| JNull
| JBool (b : bool)
| JNum (z : Z)
| JStr (s : string)
| JArr (l : list json)
| JObj (members : list (string * json)).

(** Hashable Python values, the keys of a [dict]. *)
Inductive pykey : Type :=
| KNone
| KBool (b : bool)
| KInt (z : Z)
| KStr (s : string).

(** Python values in memory.  A [dict] keeps insertion order. *)
Inductive pyval : Type :=
| PNone
| PBool (b : bool)
| PInt (z : Z)
| PStr (s : string)
| PList (l : list pyval)
| PDict (items : list (pykey * pyval)).

(** The exceptions the module can meet.  The last three are the module's own
    classes; [OSError] stands for all its subclasses (missing file, existing
    file, is-a-directory, not-a-directory), [ValueError] for a JSON or
    Unicode decoding error. *)
Inductive exn : Type :=
| KeyError
| IndexError
| TypeError
| AttributeError
| ValueError
| OSError
| InvalidAccountName
| InvalidPath
| UnknownnAddress.

Inductive result (A : Type) : Type :=
| Ok (a : A)
| Raise (e : exn).
Arguments Ok {A} a.
Arguments Raise {A} e.

Module Py.

(** [True == 1] and [False == 0] in Python, also as dict keys. *)
Definition canon (k : pykey) : pykey :=
  match k with
  | KBool b => KInt (if b then 1 else 0)
  | _ => k
  end.

Definition raw_eqb (k1 k2 : pykey) : bool :=
  match k1, k2 with
  | KNone, KNone => true
  | KBool a, KBool b => Bool.eqb a b
  | KInt a, KInt b => Z.eqb a b
  | KStr a, KStr b => String.eqb a b
  | _, _ => false
  end.

Definition key_eqb (k1 k2 : pykey) : bool := raw_eqb (canon k1) (canon k2).

(** [hash(v)]: lists and dicts are unhashable. *)
Definition to_key (v : pyval) : result pykey :=
  match v with
  | PNone => Ok KNone
  | PBool b => Ok (KBool b)
  | PInt z => Ok (KInt z)
  | PStr s => Ok (KStr s)
  | PList _ | PDict _ => Raise TypeError
  end.

Definition of_key (k : pykey) : pyval :=
  match k with
  | KNone => PNone
  | KBool b => PBool b
  | KInt z => PInt z
  | KStr s => PStr s
  end.

Fixpoint dict_get (items : list (pykey * pyval)) (k : pykey) : option pyval :=
  match items with
  | [] => None
  | (k', v) :: r => if key_eqb k' k then Some v else dict_get r k
  end.

(** [d[k] = v]: an existing key keeps its place (and its key object), a new
    one goes last. *)
Fixpoint dict_set (items : list (pykey * pyval)) (k : pykey) (v : pyval)
  : list (pykey * pyval) :=
  match items with
  | [] => [(k, v)]
  | (k', v') :: r =>
      if key_eqb k' k then (k', v) :: r else (k', v') :: dict_set r k v
  end.

(** [dict(pairs)] *)
Definition dict_of_pairs (l : list (pykey * pyval)) : list (pykey * pyval) :=
  fold_left (fun d kv => dict_set d (fst kv) (snd kv)) l [].

(** An integer used as an index: [bool] is an [int]. *)
Definition as_index (k : pykey) : option Z :=
  match k with
  | KInt z => Some z
  | KBool b => Some (if b then 1 else 0)%Z
  | _ => None
  end.

(** [l[i]] with Python's negative indices. *)
Definition seq_index {A : Type} (l : list A) (i : Z) : option A :=
  let n := Z.of_nat (List.length l) in
  if (0 <=? i)%Z then nth_error l (Z.to_nat i)
  else if (0 <=? n + i)%Z then nth_error l (Z.to_nat (n + i))
  else None.

Fixpoint chars (s : string) : list pyval :=
  match s with
  | EmptyString => []
  | String c r => PStr (String c EmptyString) :: chars r
  end.

(** [c[k]] *)
Definition getitem (c : pyval) (k : pyval) : result pyval :=
  match c with
  | PDict items =>
      match to_key k with
      | Ok k' => match dict_get items k' with
                 | Some v => Ok v
                 | None => Raise KeyError
                 end
      | Raise e => Raise e
      end
  | PList l =>
      match to_key k with
      | Ok k' => match as_index k' with
                 | Some i => match seq_index l i with
                             | Some v => Ok v
                             | None => Raise IndexError
                             end
                 | None => Raise TypeError
                 end
      | Raise e => Raise TypeError
      end
  | PStr s =>
      match to_key k with
      | Ok k' => match as_index k' with
                 | Some i => match seq_index (chars s) i with
                             | Some v => Ok v
                             | None => Raise IndexError
                             end
                 | None => Raise TypeError
                 end
      | Raise e => Raise TypeError
      end
  | PNone | PBool _ | PInt _ => Raise TypeError
  end.

(** [c[k] = v] for the containers the module assigns into.  Assigning into a
    list needs an integer index in range. *)
Definition setitem (c : pyval) (k : pyval) (v : pyval) : result pyval :=
  match c with
  | PDict items =>
      match to_key k with
      | Ok k' => Ok (PDict (dict_set items k' v))
      | Raise e => Raise e
      end
  | PList l =>
      match to_key k with
      | Ok k' =>
          match as_index k' with
          | Some i =>
              let n := Z.of_nat (List.length l) in
              let j := if (0 <=? i)%Z then i else (n + i)%Z in
              if ((0 <=? j) && (j <? n))%Z then
                Ok (PList (firstn (Z.to_nat j) l ++ v :: skipn (S (Z.to_nat j)) l))
              else Raise IndexError
          | None => Raise TypeError
          end
      | Raise e => Raise TypeError
      end
  | PNone | PBool _ | PInt _ | PStr _ => Raise TypeError
  end.

(** [for x in c]: the elements of a list, the characters of a string, the
    keys of a dict. *)
Definition iter (c : pyval) : result (list pyval) :=
  match c with
  | PList l => Ok l
  | PStr s => Ok (chars s)
  | PDict items => Ok (map (fun kv => of_key (fst kv)) items)
  | PNone | PBool _ | PInt _ => Raise TypeError
  end.

(** [c.append(v)] *)
Definition append (c : pyval) (v : pyval) : result pyval :=
  match c with
  | PList l => Ok (PList (l ++ [v]))
  | _ => Raise AttributeError
  end.

(** [v == s] for a string [s] *)
Definition eq_str (v : pyval) (s : string) : bool :=
  match v with
  | PStr t => String.eqb t s
  | _ => false
  end.

End Py.

(** ** The [json] module *)

Module Json.

(** The text [json.dump] gives a dict key. *)
Definition key_text (k : pykey) : string :=
  match k with
  | KNone => "null"
  | KBool true => "true"
  | KBool false => "false"
  | KInt z => Str.of_Z z
  | KStr s => s
  end.

Fixpoint dump (v : pyval) : json :=
  match v with
  | PNone => JNull
  | PBool b => JBool b
  | PInt z => JNum z
  | PStr s => JStr s
  | PList l => JArr (map dump l)
  | PDict items => JObj (map (fun kv => (key_text (fst kv), dump (snd kv))) items)
  end.

(** [json.load]: an object becomes a dict; of a repeated name the last value
    is kept, at the place of the first. *)
Fixpoint load (j : json) : pyval :=
  match j with
  | JNull => PNone
  | JBool b => PBool b
  | JNum z => PInt z
  | JStr s => PStr s
  | JArr l => PList (map load l)
  | JObj ms => PDict (Py.dict_of_pairs (map (fun kv => (KStr (fst kv), load (snd kv))) ms))
  end.

End Json.

(** ** The file system *)

(** What a regular file holds: a JSON document (after an optional UTF-8 byte
    order mark), or text that is not JSON. *)
Inductive content : Type :=
| Raw (text : string)
| Doc (bom : bool) (j : json).

(** A directory lists its entries in the order [os.walk] meets them. *)
Inductive node : Type :=
| File (c : content)
| Dir (entries : list (string * node)).

Definition listing : Type := list (string * node).

Module Fs.

(** The names of a path, resolved from the top directory; an empty piece
    (a doubled or trailing slash) names nothing.  [.], [..] and links are
    not interpreted. *)
Definition components (p : string) : list string :=
  filter (fun s => negb (String.eqb s "")) (Str.split "/" p).

Fixpoint find (n : string) (es : listing) : option node :=
  match es with
  | [] => None
  | (m, x) :: r => if String.eqb m n then Some x else find n r
  end.

Fixpoint lookup (p : list string) (es : listing) : option node :=
  match p with
  | [] => Some (Dir es)
  | n :: q =>
      match find n es with
      | Some (Dir sub) => lookup q sub
      | Some (File c) => match q with [] => Some (File c) | _ :: _ => None end
      | None => None
      end
  end.

(** [os.stat]: the empty path names nothing. *)
Definition stat (p : string) (d : listing) : option node :=
  if String.eqb p "" then None else lookup (components p) d.

Definition exists_ (p : string) (d : listing) : bool :=
  match stat p d with Some _ => true | None => false end.

Definition isfile (p : string) (d : listing) : bool :=
  match stat p d with Some (File _) => true | _ => false end.

(** Rewrites the listing of the directory at [p]. *)
Fixpoint modify (p : list string) (f : listing -> option listing) (es : listing)
  : option listing :=
  match p with
  | [] => f es
  | n :: q =>
      (fix go (es : listing) : option listing :=
         match es with
         | [] => None
         | (m, x) :: r =>
             if String.eqb m n then
               match x with
               | Dir sub => option_map (fun sub' => (m, Dir sub') :: r) (modify q f sub)
               | File _ => None
               end
             else option_map (cons (m, x)) (go r)
         end) es
  end.

(** A new directory entry goes last. *)
Definition add_dir (n : string) (es : listing) : option listing :=
  match find n es with
  | Some _ => None
  | None => Some (es ++ [(n, Dir [])])
  end.

(** [open(n, 'w')] and the write, in one directory: an existing file keeps
    its place, a new one goes last, a directory is refused. *)
Fixpoint put (n : string) (c : content) (es : listing) : option listing :=
  match es with
  | [] => Some [(n, File c)]
  | (m, x) :: r =>
      if String.eqb m n then
        match x with
        | File _ => Some ((m, File c) :: r)
        | Dir _ => None
        end
      else option_map (cons (m, x)) (put n c r)
  end.

Definition at_parent (p : string) (f : string -> listing -> option listing)
    (d : listing) : result listing :=
  if String.eqb p "" then Raise OSError
  else
    let cs := components p in
    match cs with
    | [] => Raise OSError
    | _ :: _ =>
        match modify (removelast cs) (f (last cs "")) d with
        | Some d' => Ok d'
        | None => Raise OSError
        end
    end.

(** [os.mkdir(p)] *)
Definition mkdir (p : string) (d : listing) : result listing :=
  at_parent p add_dir d.

(** [with open(p, 'w') as f: f.write(c)] *)
Definition write (p : string) (c : content) (d : listing) : result listing :=
  at_parent p (fun n => put n c) d.

(** [open(p).read()] *)
Definition read (p : string) (d : listing) : result content :=
  match stat p d with
  | Some (File c) => Ok c
  | _ => Raise OSError
  end.

Definition files_of (es : listing) : list (string * content) :=
  flat_map (fun e => match snd e with File c => [(fst e, c)] | Dir _ => [] end) es.

(** [os.walk], top down: the files of a directory, then its
    sub-directories in turn.  Each file comes with the directory it is in
    and with what opening it there reads. *)
Fixpoint walk_node (here : list string) (x : node)
  : list (list string * string * content) :=
  match x with
  | File _ => []
  | Dir es =>
      map (fun f => (here, fst f, snd f)) (files_of es)
      ++ flat_map (fun e => walk_node (here ++ [fst e]) (snd e)) es
  end.

Definition walk (top : string) (d : listing) : list (list string * string * content) :=
  match stat top d with
  | Some (Dir es) => walk_node (components top) (Dir es)
  | _ => []
  end.

(** The regular file at [p] holds [c]. *)
Fixpoint file_at (p : list string) (c : content) (es : listing) : Prop :=
  match p with
  | [] => False
  | n :: q =>
      match q with
      | [] => In (n, File c) es
      | _ :: _ => exists sub, In (n, Dir sub) es /\ file_at q c sub
      end
  end.

End Fs.

(** ** The key provider *)

(** Modelled from the spec: [rpckeys.Key] is not among the sources.  The
    spec's [KeyProvider.generate()] yields [(address, private_key,
    public_key)]; [as_list] is the entry the account record stores for it,
    [[address, private_key, public_key]].  The provider itself is a
    parameter: [provider n] is the key pair of the [n]-th call. *)
Record keypair : Type := Keypair {
  kp_address : string;
  kp_privkey : string;
  kp_pubkey : string
}.

Record Key : Type := MkKey {
  minted : nat;
  address : string;
  privkey : string;
  pubkey : string
}.

Module KeyM.

Definition new : Key := MkKey 0 "" "" "".

Definition generate (provider : nat -> keypair) (k : Key) : Key :=
  let kp := provider (minted k) in
  MkKey (S (minted k)) (kp_address kp) (kp_privkey kp) (kp_pubkey kp).

Definition as_list (k : Key) : pyval :=
  PList [PStr (address k); PStr (privkey k); PStr (pubkey k)].

End KeyM.

(** ** State and exceptions *)

(** The disk and the slots of the [Wallet] object. *)
Record world : Type := World {
  disk : listing;
  path : string;
  verbose : bool;
  encrypted : bool;
  locked : bool;
  passphrase : string;
  IV : string;
  index : pyval;
  key : Key;
  address_to_account : pyval
}.

Definition set_disk (d : listing) (w : world) : world :=
  World d (path w) (verbose w) (encrypted w) (locked w) (passphrase w) (IV w)
        (index w) (key w) (address_to_account w).

Definition set_index (v : pyval) (w : world) : world :=
  World (disk w) (path w) (verbose w) (encrypted w) (locked w) (passphrase w)
        (IV w) v (key w) (address_to_account w).

Definition set_key (k : Key) (w : world) : world :=
  World (disk w) (path w) (verbose w) (encrypted w) (locked w) (passphrase w)
        (IV w) (index w) k (address_to_account w).

Definition set_address_to_account (v : pyval) (w : world) : world :=
  World (disk w) (path w) (verbose w) (encrypted w) (locked w) (passphrase w)
        (IV w) (index w) (key w) v.

(** A method body: it runs on a state and ends in a value or an exception,
    with the state reached at that point. *)
Definition M (A : Type) : Type := world -> result A * world.

Definition ret {A : Type} (a : A) : M A := fun w => (Ok a, w).

Definition raise {A : Type} (e : exn) : M A := fun w => (Raise e, w).

Definition bind {A B : Type} (m : M A) (k : A -> M B) : M B :=
  fun w =>
    match m w with
    | (Ok a, w') => k a w'
    | (Raise e, w') => (Raise e, w')
    end.

(** [try: m  except: h] *)
Definition try_except {A : Type} (m : M A) (h : exn -> M A) : M A :=
  fun w =>
    match m w with
    | (Ok a, w') => (Ok a, w')
    | (Raise e, w') => h e w'
    end.

Definition lift {A : Type} (r : result A) : M A := fun w => (r, w).

Definition gets {A : Type} (f : world -> A) : M A := fun w => (Ok (f w), w).

Definition modify (f : world -> world) : M unit := fun w => (Ok tt, f w).

Declare Scope wallet_scope.
Delimit Scope wallet_scope with wallet.
Notation "x <- m ;; k" := (bind m (fun x => k))
  (at level 61, m at next level, right associativity) : wallet_scope.
Notation "m ;; k" := (bind m (fun _ => k))
  (at level 61, right associativity) : wallet_scope.
Local Open Scope wallet_scope.

(** [for x in l: body] *)
Fixpoint for_each {A : Type} (l : list A) (body : A -> M unit) : M unit :=
  match l with
  | [] => ret tt
  | x :: r => body x ;; for_each r body
  end.

(** [if c: m] *)
Definition when (c : bool) (m : M unit) : M unit := if c then m else ret tt.

(** File operations on the disk of the state. *)
Definition os_path_exists (p : string) : M bool := gets (fun w => Fs.exists_ p (disk w)).

Definition os_path_isfile (p : string) : M bool := gets (fun w => Fs.isfile p (disk w)).

Definition os_mkdir (p : string) : M unit :=
  fun w =>
    match Fs.mkdir p (disk w) with
    | Ok d => (Ok tt, set_disk d w)
    | Raise e => (Raise e, w)
    end.

(** [with open(p, 'w') as outfile: json.dump(v, outfile)] *)
Definition json_dump_to (v : pyval) (p : string) : M unit :=
  fun w =>
    match Fs.write p (Doc false (Json.dump v)) (disk w) with
    | Ok d => (Ok tt, set_disk d w)
    | Raise e => (Raise e, w)
    end.

(** [with open(p) as json_file: json.load(json_file)]: a byte order mark is
    not skipped, and [json.load] refuses it. *)
Definition json_load_from (p : string) : M pyval :=
  fun w =>
    match Fs.read p (disk w) with
    | Ok (Doc false j) => (Ok (Json.load j), w)
    | Ok (Doc true _) => (Raise ValueError, w)
    | Ok (Raw _) => (Raise ValueError, w)
    | Raise e => (Raise e, w)
    end.

(** [json.loads] of a file read with [encoding='utf-8-sig'], which skips a
    byte order mark. *)
Definition json_loads_sig (c : content) : result pyval :=
  match c with
  | Doc _ j => Ok (Json.load j)
  | Raw _ => Raise ValueError
  end.

(** ** The [Wallet] class *)

Definition __version__ : string := "0.0.3".

Module Wallet.

Section Methods.

Variable provider : nat -> keypair.

(** [self.key.generate()] *)
Definition key_generate : M unit :=
  modify (fun w => set_key (KeyM.generate provider (key w)) w).

Definition _save_rindex : M unit :=
  p <- gets path ;;
  let rindex_fname := (p ++ "/rindex.json")%string in
  a2a <- gets address_to_account ;;
  json_dump_to a2a rindex_fname.

Definition load : M unit :=
  p <- gets path ;;
  let index_fname := (p ++ "/index.json")%string in
  let rindex_fname := (p ++ "/rindex.json")%string in
  found <- os_path_exists index_fname ;;
  if negb found then
    v <- gets verbose ;;
    when v (
      modify (set_index (PDict [(KStr "version", PStr __version__);
                                (KStr "encrypted", PBool false)])) ;;
      idx <- gets index ;;
      json_dump_to idx index_fname ;;
      modify (set_address_to_account (PDict [])) ;;
      _save_rindex)
  else
    idx <- json_load_from index_fname ;;
    modify (set_index idx) ;;
    try_except
      (r <- json_load_from rindex_fname ;;
       modify (set_address_to_account r))
      (fun _ => modify (set_address_to_account (PDict []))).

(** The constructor, run on a disk. *)
Definition __init__ (apath : string) (averbose : bool) (d : listing)
  : result unit * world :=
  let self :=
    World d apath averbose false false "" (Str.repeat 16 "000") PNone KeyM.new
          (PDict []) in
  (found <- os_path_exists apath ;;
   when (negb found) (
     v <- gets verbose ;;
     when v (os_mkdir apath)) ;;
   modify (set_key KeyM.new) ;;
   load) self.

(** One file of the walk, as the generator treats it: [None] when it is
    passed over. *)
Definition parse_file (afile : string) (c : content) : option (string * pyval) :=
  let ext := Str.lower (snd (Str.splitext afile)) in
  if negb (String.eqb ext ".json") then None
  else if String.eqb (Str.lower afile) "index.json"
          || String.eqb (Str.lower afile) "rindex.json" then None
  else
    match json_loads_sig c with
    | Ok res =>
        let account := fst (Str.splitext afile) in
        let account := if String.eqb "default" account then "" else account in
        Some (account, res)
    | Raise _ => None
    end.

(** What the generator yields for the files of a walk, in order. *)
Definition yields (files : list (list string * string * content))
  : list (string * pyval) :=
  flat_map (fun f => match parse_file (snd (fst f)) (snd f) with
                     | Some a => [a]
                     | None => []
                     end) files.

Definition _parse_accounts : M (list (string * pyval)) :=
  p <- gets path ;;
  d <- gets disk ;;
  ret (yields (Fs.walk p d)).

(** The body of the loop of [reindex], for one yielded account. *)
Definition reindex_account (a : string * pyval) : M unit :=
  let account_name := fst a in
  let account_details := snd a in
  try_except
    (addresses <- lift (Py.getitem account_details (PStr "addresses")) ;;
     entries <- lift (Py.iter addresses) ;;
     for_each entries (fun address =>
       a0 <- lift (Py.getitem address (PInt 0)) ;;
       a2a <- gets address_to_account ;;
       a2a' <- lift (Py.setitem a2a a0 (PStr account_name)) ;;
       modify (set_address_to_account a2a')))
    (fun _ => ret tt).

Definition reindex : M bool :=
  modify (set_address_to_account (PDict [])) ;;
  accounts <- _parse_accounts ;;
  for_each accounts reindex_account ;;
  _save_rindex ;;
  ret true.

Definition is_b64 (c : ascii) : bool :=
  let n := N_of_ascii c in
  ((97 <=? n) && (n <=? 122) || (65 <=? n) && (n <=? 90)
   || (48 <=? n) && (n <=? 57) || (n =? 43) || (n =? 47))%N.

Definition _check_account_name (account : string) : M pyval :=
  if String.eqb account "" then ret (PBool true)
  else if Nat.ltb (String.length account) 2 || Nat.ltb 128 (String.length account)
  then raise InvalidAccountName
  else if negb (Str.forallb is_b64 account) then raise InvalidAccountName
  else ret PNone.

(** The file and the directory the two methods below derive from a name. *)
Definition shard_path (p account : string) : string :=
  (p ++ "/" ++ Str.take 2 account)%string.

Definition shard_fname (p account : string) : string :=
  (shard_path p account ++ "/" ++ account ++ ".json")%string.

(** The [if]/[else] at the head of [_get_account]: [(fname, path)]. *)
Definition _get_account_paths (p account : string) : string * string :=
  if String.eqb "" account || String.eqb "default" account
  then ((p ++ "/default.json")%string, p)
  else (shard_fname p account, shard_path p account).

(** The [if]/[else] at the head of [_save_account]: [(fname, path)]. *)
Definition _save_account_paths (p account : string) : string * string :=
  if String.eqb "" account
  then ((p ++ "/default.json")%string, p)
  else (shard_fname p account, shard_path p account).

Definition _get_account (account : string) : M pyval :=
  _check_account_name account ;;
  p <- gets path ;;
  let fname := fst (_get_account_paths p account) in
  let dpath := snd (_get_account_paths p account) in
  isf <- os_path_isfile fname ;;
  if negb isf then
    key_generate ;;
    k <- gets key ;;
    let res := PDict [(KStr "encrypted", PBool false);
                      (KStr "addresses", PList [KeyM.as_list k])] in
    found <- os_path_exists dpath ;;
    when (negb found) (os_mkdir dpath) ;;
    json_dump_to res fname ;;
    a2a <- gets address_to_account ;;
    a2a' <- lift (Py.setitem a2a (PStr (address k)) (PStr account)) ;;
    modify (set_address_to_account a2a') ;;
    _save_rindex ;;
    ret res
  else
    json_load_from fname.

Definition _save_account (account_dict : pyval) (account : string) : M bool :=
  _check_account_name account ;;
  p <- gets path ;;
  let fname := fst (_save_account_paths p account) in
  let dpath := snd (_save_account_paths p account) in
  found <- os_path_exists dpath ;;
  when (negb found) (os_mkdir dpath) ;;
  json_dump_to account_dict fname ;;
  ret true.

Definition get_account_address (anaccount : string) : M pyval :=
  account <- _get_account anaccount ;;
  l <- lift (Py.getitem account (PStr "addresses")) ;;
  addresses <- lift (Py.getitem l (PInt 0)) ;;
  lift (Py.getitem addresses (PInt 0)).

Definition get_account (anaddress : string) : M pyval :=
  try_except
    (a2a <- gets address_to_account ;;
     lift (Py.getitem a2a (PStr anaddress)))
    (fun _ => raise UnknownnAddress).

Definition list_accounts : M pyval :=
  try_except
    (accounts <- _parse_accounts ;;
     ret (PDict (Py.dict_of_pairs
                   (map (fun a => (KStr (fst a), PInt (-1))) accounts))))
    (fun _ => raise UnknownnAddress).

(** The loop of [_get_keys_for_address]: the first entry whose first field
    is the address. *)
Fixpoint find_keys (anaddress : string) (l : list pyval) : M pyval :=
  match l with
  | [] => raise UnknownnAddress
  | keys :: r =>
      k0 <- lift (Py.getitem keys (PInt 0)) ;;
      if Py.eq_str k0 anaddress then ret keys else find_keys anaddress r
  end.

(** [_get_account] called on a value of the reverse index: [len] or
    [re.search] refuse what is not a string. *)
Definition _get_account_of (v : pyval) : M pyval :=
  match v with
  | PStr account => _get_account account
  | _ => raise TypeError
  end.

Definition _get_keys_for_address (anaddress : string) : M pyval :=
  try_except
    (a2a <- gets address_to_account ;;
     _ <- lift (Py.getitem a2a (PStr anaddress)) ;;
     a2a <- gets address_to_account ;;
     name <- lift (Py.getitem a2a (PStr anaddress)) ;;
     account <- _get_account_of name ;;
     addresses <- lift (Py.getitem account (PStr "addresses")) ;;
     entries <- lift (Py.iter addresses) ;;
     find_keys anaddress entries)
    (fun _ => raise UnknownnAddress).

Definition dump_privkey (anaddress : string) : M pyval :=
  keys <- _get_keys_for_address anaddress ;;
  lift (Py.getitem keys (PInt 2)).

Definition get_new_address (anaccount : string) : M string :=
  account_dict <- _get_account anaccount ;;
  key_generate ;;
  k <- gets key ;;
  l <- lift (Py.getitem account_dict (PStr "addresses")) ;;
  l' <- lift (Py.append l (KeyM.as_list k)) ;;
  account_dict' <- lift (Py.setitem account_dict (PStr "addresses") l') ;;
  _save_account account_dict' anaccount ;;
  a2a <- gets address_to_account ;;
  a2a' <- lift (Py.setitem a2a (PStr (address k)) (PStr anaccount)) ;;
  modify (set_address_to_account a2a') ;;
  _save_rindex ;;
  ret (address k).

Definition get_addresses_by_account (anaccount : string) : M pyval :=
  account <- _get_account anaccount ;;
  l <- lift (Py.getitem account (PStr "addresses")) ;;
  entries <- lift (Py.iter l) ;;
  (fix each (es : list pyval) : M pyval :=
     match es with
     | [] => ret (PList [])
     | e :: r =>
         a <- lift (Py.getitem e (PInt 0)) ;;
         rest <- each r ;;
         match rest with
         | PList rs => ret (PList (a :: rs))
         | _ => raise TypeError
         end
     end) entries.

End Methods.

End Wallet.

(** ** Notions the properties are stated with *)

(** A name the naming rule refuses: one character, more than 128, or a
    character outside [[a-zA-Z0-9+/]]. *)
Definition invalid_name (s : string) : Prop :=
  String.length s = 1 \/ 128 < String.length s
  \/ Str.forallb Wallet.is_b64 s = false.

(** A name the naming rule lets through: the empty name of the default
    account, or 2 to 128 characters of [[a-zA-Z0-9+/]]. *)
Definition accepted_name (s : string) : Prop :=
  s = ""
  \/ (2 <= String.length s <= 128 /\ Str.forallb Wallet.is_b64 s = true).

(** A valid name in the narrower sense, without [/]. *)
Definition plain_name (s : string) : Prop :=
  2 <= String.length s <= 128
  /\ Str.forallb Wallet.is_b64 s = true
  /\ Str.mem "/" s = false.

(** The stored record [c] lists the address [k]: some entry of its
    ["addresses"] has [k] as first field. *)
Definition has_address (c : content) (k : pykey) : Prop :=
  exists bom j l entries e a0 k',
    c = Doc bom j
    /\ Py.getitem (Json.load j) (PStr "addresses") = Ok l
    /\ Py.iter l = Ok entries
    /\ In e entries
    /\ Py.getitem e (PInt 0) = Ok a0
    /\ Py.to_key a0 = Ok k'
    /\ Py.key_eqb k' k = true.

(** [p] is the place of an account file of the store at [root]: below the
    root, and neither of the two index documents. *)
Definition account_file (root : string) (p : list string) : Prop :=
  (exists q, p = Fs.components root ++ q)
  /\ p <> Fs.components root ++ ["index.json"]
  /\ p <> Fs.components root ++ ["rindex.json"].

(** Every key of the reverse index is an address of some account file. *)
Definition rindex_sound (w : world) : Prop :=
  forall items k v,
    address_to_account w = PDict items ->
    In (k, v) items ->
    exists p c,
      Fs.file_at p c (disk w) /\ account_file (path w) p /\ has_address c k.

(** No key of the items equals a later one. *)
Fixpoint distinct (items : list (pykey * pyval)) : Prop :=
  match items with
  | [] => True
  | kv :: r => Py.dict_get r (fst kv) = None /\ distinct r
  end.

Definition is_str_key (k : pykey) : Prop := exists s, k = KStr s.

(** The values [json.load] returns: the keys of every dict are strings, no
    two of them equal. *)
Inductive loaded : pyval -> Prop :=
| loaded_none : loaded PNone
| loaded_bool (b : bool) : loaded (PBool b)
| loaded_int (z : Z) : loaded (PInt z)
| loaded_str (s : string) : loaded (PStr s)
| loaded_list (l : list pyval) : Forall loaded l -> loaded (PList l)
| loaded_dict (items : list (pykey * pyval)) :
    Forall (fun kv => is_str_key (fst kv)) items ->
    Forall (fun kv => loaded (snd kv)) items ->
    distinct items ->
    loaded (PDict items).

(** A store in order for the account [name]: the reverse index in memory is
    a dict, [rindex.json] is a regular file of the store directory, and the
    account is either new (its shard directory does not exist) or stored as a
    JSON object whose ["addresses"] is a list. *)
Definition store_in_order (w : world) (name : string) : Prop :=
  (exists items, address_to_account w = PDict items)
  /\ (exists c, Fs.read (path w ++ "/rindex.json") (disk w) = Ok c)
  /\ (Fs.exists_ (Wallet.shard_path (path w) name) (disk w) = false
      \/ exists j items l0,
           Fs.read (Wallet.shard_fname (path w) name) (disk w) = Ok (Doc false j)
           /\ Json.load j = PDict items
           /\ Py.dict_get items (KStr "addresses") = Some (PList l0)).

(** The address [a] is listed by an account that [_parse_accounts] yields
    and whose address list can be gone through: every entry has a hashable
    first field, and the first field of one of them is [a]. *)
Definition listed (w : world) (a : string) : Prop :=
  exists account l entries,
    In account (Wallet.yields (Fs.walk (path w) (disk w)))
    /\ Py.getitem (snd account) (PStr "addresses") = Ok l
    /\ Py.iter l = Ok entries
    /\ Forall (fun e => exists a0 k,
                   Py.getitem e (PInt 0) = Ok a0 /\ Py.to_key a0 = Ok k) entries
    /\ exists e, In e entries /\ Py.getitem e (PInt 0) = Ok (PStr a).

(** The reverse index in memory is a dict / is a dict that maps [a] to an
    account name. *)
Definition index_is_dict (w : world) : Prop :=
  exists items, address_to_account w = PDict items.

Definition index_maps (a : string) (w : world) : Prop :=
  exists items name,
    address_to_account w = PDict items
    /\ Py.dict_get items (KStr a) = Some (PStr name).

(** [details] is what [_parse_accounts] reads from an account file of the
    store of [w]. *)
Definition from_account_file (w : world) (details : pyval) : Prop :=
  exists p bom j,
    Fs.file_at p (Doc bom j) (disk w)
    /\ account_file (path w) p
    /\ details = Json.load j.

(** A file present in one entry of a listing. *)
Definition file_in_entry (p : list string) (c : content) (e : string * node) : Prop :=
  match p with
  | [] => False
  | [n] => e = (n, File c)
  | n :: q => exists sub, e = (n, Dir sub) /\ Fs.file_at q c sub
  end.

(** A method body that reads and writes nothing but the reverse index: the
    state after it is the state before with a new [address_to_account], and
    what it does depends on the [address_to_account] before only. *)
Definition on_index {A : Type} (m : M A) : Prop :=
  (forall w,
      snd (m w) = set_address_to_account (address_to_account (snd (m w))) w)
  /\ (forall w w',
        address_to_account w = address_to_account w' ->
        fst (m w) = fst (m w')
        /\ address_to_account (snd (m w)) = address_to_account (snd (m w'))).

(** ** A small store to run the methods on *)

Module Demo.

Definition provider (n : nat) : keypair :=
  Keypair ("ADDR" ++ Str.of_Z (Z.of_nat n))
          ("PRIV" ++ Str.of_Z (Z.of_nat n))
          ("PUB" ++ Str.of_Z (Z.of_nat n)).

(** A wallet object on the store [w] with the given disk and reverse index. *)
Definition wallet (d : listing) (a2a : pyval) : world :=
  World d "w" false false false "" (Str.repeat 16 "000")
        (PDict [(KStr "version", PStr __version__); (KStr "encrypted", PBool false)])
        KeyM.new a2a.

Definition index_doc : content :=
  Doc false (JObj [("version", JStr "0.0.3"); ("encrypted", JBool false)]).

Definition record (entries : list json) : content :=
  Doc false (JObj [("encrypted", JBool false); ("addresses", JArr entries)]).

Definition entry (a priv pub : string) : json := JArr [JStr a; JStr priv; JStr pub].

(** An existing, empty directory [w]. *)
Definition empty_dir : listing := [("w", Dir [])].

(** A store whose default account has one address. *)
Definition one_default : listing :=
  [("w", Dir [("index.json", File index_doc);
              ("rindex.json", File (Doc false (JObj [("A", JStr "")])));
              ("default.json", File (record [entry "A" "PRIV" "PUB"]))])].

(** The same store without its reverse index document. *)
Definition no_rindex : listing :=
  [("w", Dir [("index.json", File index_doc);
              ("default.json", File (record [entry "A" "PRIV" "PUB"]))])].

(** A store whose account [ab] has lost all its addresses. *)
Definition empty_account : listing :=
  [("w", Dir [("index.json", File index_doc);
              ("rindex.json", File (Doc false (JObj [])));
              ("ab", Dir [("ab.json", File (record []))])])].

End Demo.

(** The first fields of the entries of an address list, as the
    comprehension of [get_addresses_by_account] collects them: the first
    entry that cannot be indexed at [0] decides the exception. *)
Definition first_fields (es : list pyval) : result (list pyval) :=
  fold_right
    (fun e acc =>
       match Py.getitem e (PInt 0) with
       | Ok a => match acc with
                 | Ok rs => Ok (a :: rs)
                 | Raise x => Raise x
                 end
       | Raise x => Raise x
       end)
    (Ok []) es.

(** Every regular file of [w] that is at none of the places [ps] is in [w']
    with the same content, and the store directory is the same. *)
Definition keeps_but (ps : list (list string)) (w w' : world) : Prop :=
  path w' = path w
  /\ forall q c, ~ In q ps -> Fs.file_at q c (disk w) -> Fs.file_at q c (disk w').

(** ** Running a method body *)

Lemma bind_ok {A B : Type} {m : M A} (k : A -> M B) {w w' : world} {a : A} :
  m w = (Ok a, w') -> bind m k w = k a w'.
Proof. intros H. unfold bind. rewrite H. reflexivity. Qed.

Lemma bind_raise {A B : Type} {m : M A} (k : A -> M B) {w w' : world} {e : exn} :
  m w = (Raise e, w') -> bind m k w = (Raise e, w').
Proof. intros H. unfold bind. rewrite H. reflexivity. Qed.

Lemma bind_gets (A B : Type) (f : world -> A) (k : A -> M B) (w : world) :
  bind (gets f) k w = k (f w) w.
Proof. reflexivity. Qed.

Lemma bind_modify (B : Type) (f : world -> world) (k : unit -> M B) (w : world) :
  bind (modify f) k w = k tt (f w).
Proof. reflexivity. Qed.

Lemma bind_ret (A B : Type) (a : A) (k : A -> M B) (w : world) :
  bind (ret a) k w = k a w.
Proof. reflexivity. Qed.

Lemma bind_lift (A B : Type) (r : result A) (k : A -> M B) (w : world) :
  bind (lift r) k w = match r with Ok a => k a w | Raise e => (Raise e, w) end.
Proof. destruct r; reflexivity. Qed.

Lemma bind_raise_now (A B : Type) (e : exn) (k : A -> M B) (w : world) :
  bind (raise e) k w = (Raise e, w).
Proof. reflexivity. Qed.

(** One step of a method body on a state. *)
Ltac run :=
  repeat first
    [ rewrite bind_gets
    | rewrite bind_modify
    | rewrite bind_ret
    | rewrite bind_lift
    | rewrite bind_raise_now
    | progress unfold os_path_exists, os_path_isfile, Wallet.key_generate
    | progress cbv beta zeta ].

Lemma world_eta (w : world) :
  World (disk w) (path w) (verbose w) (encrypted w) (locked w) (passphrase w)
        (IV w) (index w) (key w) (address_to_account w) = w.
Proof. destruct w. reflexivity. Qed.

(** ** The naming rule *)

Lemma forallb_nonempty (p : ascii -> bool) (s : string) :
  Str.forallb p s = false -> s <> "".
Proof. intros H ->. discriminate H. Qed.

Lemma length_nonempty (s : string) : String.length s <> 0 -> String.eqb s "" = false.
Proof. destruct s; simpl; [ congruence | reflexivity ]. Qed.

Lemma check_invalid (name : string) (w : world) :
  invalid_name name ->
  Wallet._check_account_name name w = (Raise InvalidAccountName, w).
Proof.
  unfold invalid_name, Wallet._check_account_name.
  intros [H | [H | H]].
  - rewrite length_nonempty by lia. rewrite H. reflexivity.
  - rewrite length_nonempty by lia.
    replace (Nat.ltb 128 (String.length name)) with true
      by (symmetry; apply Nat.ltb_lt; exact H).
    rewrite orb_true_r. reflexivity.
  - destruct name as [| c r]; [ discriminate H | ].
    cbn [String.eqb]. rewrite H.
    destruct (Nat.ltb _ _ || Nat.ltb _ _); reflexivity.
Qed.

(** The check reads nothing but the name and leaves the state alone. *)
Lemma check_pure (name : string) (w : world) :
  snd (Wallet._check_account_name name w) = w.
Proof.
  unfold Wallet._check_account_name.
  destruct (String.eqb name ""); [ reflexivity | ].
  destruct (Nat.ltb _ _ || Nat.ltb _ _); [ reflexivity | ].
  destruct (negb _); reflexivity.
Qed.

Lemma check_outcome (name : string) (w : world) :
  (exists v, Wallet._check_account_name name w = (Ok v, w)
             /\ (name = ""
                 \/ (2 <= String.length name <= 128
                     /\ Str.forallb Wallet.is_b64 name = true)))
  \/ (Wallet._check_account_name name w = (Raise InvalidAccountName, w)
      /\ name <> ""
      /\ (String.length name < 2 \/ 128 < String.length name
          \/ Str.forallb Wallet.is_b64 name = false)).
Proof.
  unfold Wallet._check_account_name.
  destruct (String.eqb_spec name "") as [-> | Hne].
  - left. exists (PBool true). split; [ reflexivity | left; reflexivity ].
  - destruct (Nat.ltb_spec (String.length name) 2) as [Hlt | Hge].
    + right. cbn [orb]. repeat split; auto.
    + destruct (Nat.ltb_spec 128 (String.length name)) as [Hgt | Hle].
      * right. cbn [orb]. repeat split; auto.
      * cbn [orb].
        destruct (Str.forallb Wallet.is_b64 name) eqn:Hb; cbn [negb].
        -- left. exists PNone. split; [ reflexivity | right; split; [ lia | reflexivity ] ].
        -- right. repeat split; auto.
Qed.

(** C5: a name the rule refuses (one character, more than 128, or a
    character outside the base64 set) makes each account-taking operation
    ([get_account_address], [get_new_address], [get_addresses_by_account]
    and the account save) raise [InvalidAccountName], and the state after it
    (the disk with it) is the state before: nothing was created or written. *)
Theorem invalid_name_fails_without_effect
    (provider : nat -> keypair) (name : string) (record : pyval) (w : world) :
  invalid_name name ->
  Wallet.get_account_address provider name w = (Raise InvalidAccountName, w)
  /\ Wallet.get_new_address provider name w = (Raise InvalidAccountName, w)
  /\ Wallet.get_addresses_by_account provider name w = (Raise InvalidAccountName, w)
  /\ Wallet._save_account record name w = (Raise InvalidAccountName, w)
  /\ Wallet._get_account provider name w = (Raise InvalidAccountName, w).
Proof.
  intros H.
  assert (G : Wallet._get_account provider name w = (Raise InvalidAccountName, w)).
  { unfold Wallet._get_account. apply bind_raise. apply check_invalid. exact H. }
  repeat split.
  - unfold Wallet.get_account_address. apply bind_raise. exact G.
  - unfold Wallet.get_new_address. apply bind_raise. exact G.
  - unfold Wallet.get_addresses_by_account. apply bind_raise. exact G.
  - unfold Wallet._save_account. apply bind_raise. apply check_invalid. exact H.
  - exact G.
Qed.

Lemma invalid_name_fails_without_effect_witness :
  invalid_name "a="
  /\ Wallet.get_new_address Demo.provider "a="
       (Demo.wallet Demo.one_default (PDict [(KStr "A", PStr "")]))
     = (Raise InvalidAccountName,
        Demo.wallet Demo.one_default (PDict [(KStr "A", PStr "")])).
Proof.
  assert (H : invalid_name "a=") by (right; right; reflexivity).
  split; [ exact H | ].
  apply (invalid_name_fails_without_effect Demo.provider "a=" PNone
           (Demo.wallet Demo.one_default (PDict [(KStr "A", PStr "")])) H).
Defined.

(** C6, the claim as stated fails: the name [//rindex] contains [/], the
    check lets it through, and the file derived from it is the store's own
    [rindex.json], outside every shard directory. *)
Lemma slash_name_is_accepted :
  Str.mem "/" "//rindex" = true
  /\ Wallet._check_account_name "//rindex" (Demo.wallet Demo.empty_dir (PDict []))
     = (Ok PNone, Demo.wallet Demo.empty_dir (PDict []))
  /\ Fs.components (fst (Wallet._get_account_paths "w" "//rindex"))
     = ["w"; "rindex.json"].
Proof. repeat split. Qed.

(** C6, amended: [/] is one of the characters the rule allows.  The check
    raises [InvalidAccountName] exactly for a non-empty name whose length is
    outside 2..128 or that has a character outside [[a-zA-Z0-9+/]]; any
    other name, with or without [/], passes; either way the state is left as
    it was. *)
Theorem check_account_name_rule (name : string) (w : world) :
  Wallet.is_b64 "/" = true
  /\ ((exists v, Wallet._check_account_name name w = (Ok v, w)
                 /\ (name = ""
                     \/ (2 <= String.length name <= 128
                         /\ Str.forallb Wallet.is_b64 name = true)))
      \/ (Wallet._check_account_name name w = (Raise InvalidAccountName, w)
          /\ name <> ""
          /\ (String.length name < 2 \/ 128 < String.length name
              \/ Str.forallb Wallet.is_b64 name = false))).
Proof. split; [ reflexivity | apply check_outcome ]. Qed.

Lemma check_accepted (name : string) (w : world) :
  accepted_name name -> exists v, Wallet._check_account_name name w = (Ok v, w).
Proof.
  intros H. destruct (check_outcome name w) as [[v [E _]] | [_ [Hne Hbad]]].
  - exists v. exact E.
  - exfalso. destruct H as [-> | [Hlen Hb]]; [ congruence | ].
    destruct Hbad as [? | [? | ?]]; [ lia | lia | congruence ].
Qed.

Lemma plain_accepted (name : string) : plain_name name -> accepted_name name.
Proof. intros [Hlen [Hb _]]. right. split; assumption. Qed.

(** ** Reading a stored account *)

Lemma read_isfile (p : string) (d : listing) (c : content) :
  Fs.read p d = Ok c -> Fs.isfile p d = true.
Proof.
  unfold Fs.read, Fs.isfile. destruct (Fs.stat p d) as [[c' | es] |]; intros H;
    [ reflexivity | discriminate H | discriminate H ].
Qed.

Lemma read_exists (p : string) (d : listing) (c : content) :
  Fs.read p d = Ok c -> Fs.exists_ p d = true.
Proof.
  unfold Fs.read, Fs.exists_. destruct (Fs.stat p d) as [[c' | es] |]; intros H;
    [ reflexivity | discriminate H | discriminate H ].
Qed.

(** [_get_account] on an account whose file holds a JSON document returns
    the document, loaded, and changes nothing. *)
Lemma get_account_stored
    (provider : nat -> keypair) (name : string) (w : world) (j : json) :
  accepted_name name ->
  Fs.read (fst (Wallet._get_account_paths (path w) name)) (disk w) = Ok (Doc false j) ->
  Wallet._get_account provider name w = (Ok (Json.load j), w).
Proof.
  intros Hname Hread. unfold Wallet._get_account.
  destruct (check_accepted name w Hname) as [v Hv].
  rewrite (bind_ok _ Hv). run.
  rewrite (read_isfile _ _ _ Hread). cbn [negb].
  unfold json_load_from. rewrite Hread. reflexivity.
Qed.

(** C9: [get_account_address] gives the first address of the stored record
    when the record's address list has a first entry; on a stored record
    whose list is empty it raises [IndexError], which is none of the store's
    own exceptions, and changes nothing. *)
Theorem get_account_address_partial
    (provider : nat -> keypair) (name : string) (w : world) (j : json)
    (l : list pyval) :
  accepted_name name ->
  Fs.read (fst (Wallet._get_account_paths (path w) name)) (disk w) = Ok (Doc false j) ->
  Py.getitem (Json.load j) (PStr "addresses") = Ok (PList l) ->
  (l = [] -> Wallet.get_account_address provider name w = (Raise IndexError, w))
  /\ (forall e r, l = e :: r ->
        Wallet.get_account_address provider name w = (Py.getitem e (PInt 0), w))
  /\ IndexError <> InvalidAccountName
  /\ IndexError <> InvalidPath
  /\ IndexError <> UnknownnAddress.
Proof.
  intros Hname Hread Hl.
  assert (G := get_account_stored provider name w j Hname Hread).
  repeat split; try discriminate.
  - intros ->. unfold Wallet.get_account_address.
    rewrite (bind_ok _ G). run. rewrite Hl. reflexivity.
  - intros e r ->. unfold Wallet.get_account_address.
    rewrite (bind_ok _ G). run. rewrite Hl. run. reflexivity.
Qed.

Lemma get_account_address_partial_witness :
  Wallet.get_account_address Demo.provider "ab"
    (Demo.wallet Demo.empty_account (PDict []))
  = (Raise IndexError, Demo.wallet Demo.empty_account (PDict [])).
Proof.
  refine (proj1 (get_account_address_partial Demo.provider "ab"
                   (Demo.wallet Demo.empty_account (PDict []))
                   (JObj [("encrypted", JBool false); ("addresses", JArr [])])
                   [] _ _ _) eq_refl).
  - right. split; [ simpl; lia | reflexivity ].
  - reflexivity.
  - reflexivity.
Defined.

(** ** Loading the store *)

Lemma get_account_unknown (a : string) (w : world) :
  address_to_account w = PDict [] ->
  Wallet.get_account a w = (Raise UnknownnAddress, w).
Proof.
  intros H. unfold Wallet.get_account, try_except, bind, gets, lift.
  rewrite H. reflexivity.
Qed.

(** ** The constructor on a missing directory *)

(** C2, the code at the failing input: with [verbose] off (the default) and
    no directory [w], the constructor ends without error and has created
    nothing: the disk is still empty and [index] is still [None].  With
    [verbose] on, the directory and both index documents are made. *)
Theorem init_quiet_creates_nothing :
  Fs.exists_ "w" [] = false
  /\ Wallet.__init__ "w" false []
     = (Ok tt,
        World [] "w" false false false "" (Str.repeat 16 "000") PNone KeyM.new
              (PDict []))
  /\ disk (snd (Wallet.__init__ "w" true []))
     = [("w", Dir [("index.json", File Demo.index_doc);
                   ("rindex.json", File (Doc false (JObj [])))])].
Proof. repeat split. Qed.

(** ** The two names of the default account *)

(** C3, the code at the failing input: [_get_account] sends both [""] and
    ["default"] to [default.json] at the root, but [_save_account] sends
    ["default"] to [de/default.json].  On a store whose default account
    holds the address [A], [get_new_address "default"] reads the root file
    and writes the other one: the root file is as before and the new address
    is in a second file. *)
Theorem default_name_saved_elsewhere :
  (forall p, fst (Wallet._get_account_paths p "default")
             = fst (Wallet._get_account_paths p ""))
  /\ (forall p, fst (Wallet._save_account_paths p "") = (p ++ "/default.json")%string)
  /\ (forall p, fst (Wallet._save_account_paths p "default")
                = ((p ++ "/de") ++ "/default.json")%string)
  /\ (let w := Demo.wallet Demo.one_default (PDict [(KStr "A", PStr "")]) in
      let r := Wallet.get_new_address Demo.provider "default" w in
      fst r = Ok "ADDR0"
      /\ Fs.read "w/default.json" (disk (snd r))
         = Ok (Demo.record [Demo.entry "A" "PRIV" "PUB"])
      /\ Fs.read "w/de/default.json" (disk (snd r))
         = Ok (Demo.record [Demo.entry "A" "PRIV" "PUB";
                            Demo.entry "ADDR0" "PRIV0" "PUB0"])).
Proof. repeat split. Qed.

(** ** Keys of an address *)


(** On the store whose default account holds the entry [[A, PRIV, PUB]],
    [dump_privkey] of [A] returns [PUB], the third field. *)
Lemma dump_privkey_returns_third_field :
  Fs.read "w/default.json" Demo.one_default
  = Ok (Demo.record [Demo.entry "A" "PRIV" "PUB"])
  /\ Wallet.dump_privkey Demo.provider "A"
       (Demo.wallet Demo.one_default (PDict [(KStr "A", PStr "")]))
     = (Ok (PStr "PUB"), Demo.wallet Demo.one_default (PDict [(KStr "A", PStr "")]))
  /\ PStr "PUB" <> PStr "PRIV".
Proof. repeat split. discriminate. Qed.



(** ** Paths *)

Lemma append_assoc (a b c : string) : ((a ++ b) ++ c = a ++ (b ++ c))%string.
Proof. induction a as [| x a IH]; simpl; [ reflexivity | rewrite IH; reflexivity ]. Qed.

Lemma append_empty_r (a : string) : (a ++ "" = a)%string.
Proof. induction a as [| x a IH]; simpl; [ reflexivity | rewrite IH; reflexivity ]. Qed.

Lemma mem_append (c : ascii) (a b : string) :
  Str.mem c (a ++ b) = Str.mem c a || Str.mem c b.
Proof.
  induction a as [| x a IH]; simpl; [ reflexivity | ].
  rewrite IH. apply orb_assoc.
Qed.

Lemma mem_substring (c : ascii) (s : string) (n : nat) :
  Str.mem c s = false -> Str.mem c (substring 0 n s) = false.
Proof.
  revert n. induction s as [| x s IH]; intros n H.
  - destruct n; reflexivity.
  - simpl in H. apply orb_false_elim in H as [Hx Hs].
    destruct n as [| n]; simpl; [ reflexivity | ].
    rewrite Hx. simpl. apply IH. exact Hs.
Qed.

Lemma split_aux_append (sep : ascii) (acc a b : string) :
  Str.split_aux sep acc (a ++ String sep b)
  = Str.split_aux sep acc a ++ Str.split sep b.
Proof.
  revert acc. induction a as [| x a IH]; intros acc; simpl.
  - rewrite Ascii.eqb_refl. reflexivity.
  - destruct (Ascii.eqb x sep).
    + simpl. f_equal. apply IH.
    + apply IH.
Qed.

Lemma split_aux_plain (sep : ascii) (acc n : string) :
  Str.mem sep n = false -> Str.split_aux sep acc n = [(acc ++ n)%string].
Proof.
  revert acc. induction n as [| x n IH]; intros acc H; simpl.
  - rewrite append_empty_r. reflexivity.
  - simpl in H. apply orb_false_elim in H as [Hx Hn].
    rewrite Ascii.eqb_sym, Hx. rewrite (IH _ Hn).
    rewrite append_assoc. reflexivity.
Qed.

(** The names of [a/b] are the names of [a], then the names of [b]. *)
Lemma components_join (a b : string) :
  Fs.components (a ++ "/" ++ b) = Fs.components a ++ Fs.components b.
Proof.
  unfold Fs.components, Str.split. change ("/" ++ b)%string with (String "/" b).
  rewrite split_aux_append. apply filter_app.
Qed.

(** A non-empty name without [/] is one component. *)
Lemma components_plain (n : string) :
  n <> "" -> Str.mem "/" n = false -> Fs.components n = [n].
Proof.
  intros Hne Hm. unfold Fs.components, Str.split.
  rewrite (split_aux_plain "/" "" n Hm). simpl.
  destruct (String.eqb_spec n ""); [ contradiction | reflexivity ].
Qed.

Lemma components_child (p n : string) :
  n <> "" -> Str.mem "/" n = false ->
  Fs.components (p ++ "/" ++ n) = Fs.components p ++ [n].
Proof.
  intros Hne Hm. rewrite components_join, (components_plain n Hne Hm). reflexivity.
Qed.

Lemma join_nonempty (p n : string) : (p ++ "/" ++ n)%string <> "".
Proof. destruct p; discriminate. Qed.

Lemma removelast_snoc {A : Type} (l : list A) (x : A) : removelast (l ++ [x]) = l.
Proof. apply removelast_last. Qed.

Lemma last_snoc {A : Type} (l : list A) (x d : A) : last (l ++ [x]) d = x.
Proof. apply last_last. Qed.

(** Writing and making a directory, by the names of the parent. *)
Lemma write_child (p n : string) (c : content) (d : listing) :
  n <> "" -> Str.mem "/" n = false ->
  Fs.write (p ++ "/" ++ n) c d
  = match Fs.modify (Fs.components p) (Fs.put n c) d with
    | Some d' => Ok d'
    | None => Raise OSError
    end.
Proof.
  intros Hne Hm. unfold Fs.write, Fs.at_parent.
  destruct (String.eqb_spec (p ++ "/" ++ n) ""); [ exfalso; eapply join_nonempty; eauto | ].
  rewrite (components_child p n Hne Hm).
  destruct (Fs.components p ++ [n]) eqn:E.
  - destruct (Fs.components p); discriminate E.
  - rewrite <- E, removelast_snoc, last_snoc. reflexivity.
Qed.

Lemma mkdir_child (p n : string) (d : listing) :
  n <> "" -> Str.mem "/" n = false ->
  Fs.mkdir (p ++ "/" ++ n) d
  = match Fs.modify (Fs.components p) (Fs.add_dir n) d with
    | Some d' => Ok d'
    | None => Raise OSError
    end.
Proof.
  intros Hne Hm. unfold Fs.mkdir, Fs.at_parent.
  destruct (String.eqb_spec (p ++ "/" ++ n) ""); [ exfalso; eapply join_nonempty; eauto | ].
  rewrite (components_child p n Hne Hm).
  destruct (Fs.components p ++ [n]) eqn:E.
  - destruct (Fs.components p); discriminate E.
  - rewrite <- E, removelast_snoc, last_snoc. reflexivity.
Qed.

Lemma stat_child (p n : string) (d : listing) :
  n <> "" -> Str.mem "/" n = false ->
  Fs.stat (p ++ "/" ++ n) d = Fs.lookup (Fs.components p ++ [n]) d.
Proof.
  intros Hne Hm. unfold Fs.stat.
  destruct (String.eqb_spec (p ++ "/" ++ n) ""); [ exfalso; eapply join_nonempty; eauto | ].
  rewrite (components_child p n Hne Hm). reflexivity.
Qed.

(** ** Directory listings *)

Lemma modify_cons (n : string) (q : list string) (f : listing -> option listing)
    (m : string) (x : node) (r : listing) :
  Fs.modify (n :: q) f ((m, x) :: r)
  = if String.eqb m n then
      match x with
      | Dir sub => option_map (fun sub' => (m, Dir sub') :: r) (Fs.modify q f sub)
      | File _ => None
      end
    else option_map (cons (m, x)) (Fs.modify (n :: q) f r).
Proof. reflexivity. Qed.

Lemma modify_nil (n : string) (q : list string) (f : listing -> option listing) :
  Fs.modify (n :: q) f [] = None.
Proof. reflexivity. Qed.

(** What a successful [modify] met and left at the directory it works on. *)
Lemma modify_lookup (cs : list string) (f : listing -> option listing) :
  forall d d',
    Fs.modify cs f d = Some d' ->
    exists es es',
      Fs.lookup cs d = Some (Dir es) /\ f es = Some es'
      /\ Fs.lookup cs d' = Some (Dir es').
Proof.
  induction cs as [| n q IH]; intros d d' H.
  - exists d, d'. repeat split. exact H.
  - induction d as [| [m x] r IHd] in d', H |- *.
    + discriminate H.
    + rewrite modify_cons in H. cbn [Fs.lookup Fs.find].
      destruct (String.eqb m n) eqn:E.
      * destruct x as [c | sub]; [ discriminate H | ].
        destruct (Fs.modify q f sub) as [sub' |] eqn:Es; [ | discriminate H ].
        injection H as <-. cbn [Fs.find]. rewrite E.
        exact (IH sub sub' Es).
      * destruct (Fs.modify (n :: q) f r) as [r' |] eqn:Er; [ | discriminate H ].
        injection H as <-. cbn [Fs.find]. rewrite E.
        exact (IHd r' eq_refl).
Qed.

Lemma modify_at (cs : list string) (f : listing -> option listing) :
  forall d es es',
    Fs.lookup cs d = Some (Dir es) -> f es = Some es' ->
    exists d', Fs.modify cs f d = Some d'.
Proof.
  induction cs as [| n q IH]; intros d es es' Hl Hf.
  - cbn in Hl. injection Hl as ->. exists es'. exact Hf.
  - induction d as [| [m x] r IHd].
    + discriminate Hl.
    + rewrite modify_cons. cbn [Fs.lookup Fs.find] in Hl.
      destruct (String.eqb m n) eqn:E.
      * destruct x as [c | sub].
        -- destruct q; discriminate Hl.
        -- destruct (IH sub es es' Hl Hf) as [sub' ->]. eexists. reflexivity.
      * destruct IHd as [r' ->]; [ exact Hl | ]. eexists. reflexivity.
Qed.

Lemma put_find_same (n : string) (c : content) :
  forall es es', Fs.put n c es = Some es' -> Fs.find n es' = Some (File c).
Proof.
  induction es as [| [m x] r IH]; intros es' H; cbn in H.
  - injection H as <-. cbn. rewrite String.eqb_refl. reflexivity.
  - destruct (String.eqb m n) eqn:E.
    + destruct x; [ | discriminate H ]. injection H as <-. cbn. rewrite E. reflexivity.
    + destruct (Fs.put n c r) as [r' |]; [ | discriminate H ].
      injection H as <-. cbn. rewrite E. apply IH. reflexivity.
Qed.

Lemma put_find_other (n m : string) (c : content) :
  m <> n ->
  forall es es', Fs.put n c es = Some es' -> Fs.find m es' = Fs.find m es.
Proof.
  intros Hne. induction es as [| [k x] r IH]; intros es' H; cbn in H.
  - injection H as <-. cbn. destruct (String.eqb_spec n m); [ congruence | reflexivity ].
  - destruct (String.eqb k n) eqn:E.
    + destruct x; [ | discriminate H ]. injection H as <-. cbn.
      apply String.eqb_eq in E. subst k.
      destruct (String.eqb_spec n m); [ congruence | reflexivity ].
    + destruct (Fs.put n c r) as [r' |]; [ | discriminate H ].
      injection H as <-. cbn. destruct (String.eqb k m); [ reflexivity | ].
      apply IH. reflexivity.
Qed.

(** A successful [put] met a regular file of that name, or none. *)
Lemma put_find_before (n : string) (c : content) :
  forall es es' x, Fs.put n c es = Some es' -> Fs.find n es = Some x ->
                   exists c0, x = File c0.
Proof.
  induction es as [| [m y] r IH]; intros es' x H Hf; cbn in H, Hf.
  - discriminate Hf.
  - destruct (String.eqb m n) eqn:E.
    + injection Hf as <-. destruct y; [ eexists; reflexivity | discriminate H ].
    + destruct (Fs.put n c r) as [r' |] eqn:Er; [ | discriminate H ].
      exact (IH r' x eq_refl Hf).
Qed.

Lemma put_idempotent (n : string) (c : content) :
  forall es es', Fs.put n c es = Some es' -> Fs.put n c es' = Some es'.
Proof.
  induction es as [| [m x] r IH]; intros es' H; cbn in H.
  - injection H as <-. cbn. rewrite String.eqb_refl. reflexivity.
  - destruct (String.eqb m n) eqn:E.
    + destruct x; [ | discriminate H ]. injection H as <-. cbn. rewrite E. reflexivity.
    + destruct (Fs.put n c r) as [r' |]; [ | discriminate H ].
      injection H as <-. cbn. rewrite E. rewrite (IH r' eq_refl). reflexivity.
Qed.

Lemma find_app_some (m : string) (es more : listing) (x : node) :
  Fs.find m es = Some x -> Fs.find m (es ++ more) = Some x.
Proof.
  induction es as [| [k y] r IH]; cbn; [ discriminate | ].
  destruct (String.eqb k m); [ trivial | exact IH ].
Qed.

Lemma add_dir_find (n m : string) (es es' : listing) (x : node) :
  Fs.add_dir n es = Some es' -> Fs.find m es = Some x -> Fs.find m es' = Some x.
Proof.
  unfold Fs.add_dir. destruct (Fs.find n es); [ discriminate | ].
  intros H. injection H as <-. apply find_app_some.
Qed.

Lemma modify_idempotent (cs : list string) (f : listing -> option listing) :
  (forall es es', f es = Some es' -> f es' = Some es') ->
  forall d d', Fs.modify cs f d = Some d' -> Fs.modify cs f d' = Some d'.
Proof.
  intros Hf. induction cs as [| n q IH]; intros d d' H.
  - exact (Hf d d' H).
  - induction d as [| [m x] r IHd] in d', H |- *.
    + discriminate H.
    + rewrite modify_cons in H.
      destruct (String.eqb m n) eqn:E.
      * destruct x as [c | sub]; [ discriminate H | ].
        destruct (Fs.modify q f sub) as [sub' |] eqn:Es; [ | discriminate H ].
        injection H as <-. rewrite modify_cons, E, (IH sub sub' Es). reflexivity.
      * destruct (Fs.modify (n :: q) f r) as [r' |] eqn:Er; [ | discriminate H ].
        injection H as <-. rewrite modify_cons, E, (IHd r' eq_refl). reflexivity.
Qed.

(** ** Reading after a write *)

Lemma lookup_snoc_file (cs : list string) (n : string) :
  forall d es x,
    Fs.lookup cs d = Some (Dir es) -> Fs.find n es = Some (File x) ->
    Fs.lookup (cs ++ [n]) d = Some (File x).
Proof.
  induction cs as [| m q IH]; intros d es x Hl Hf.
  - cbn in Hl. injection Hl as ->. cbn. rewrite Hf. reflexivity.
  - cbn [app Fs.lookup] in *.
    destruct (Fs.find m d) as [[c | sub] |]; [ destruct q; discriminate Hl | | discriminate Hl ].
    exact (IH sub es x Hl Hf).
Qed.

(** The written file reads back. *)
Lemma modify_put_lookup (cs : list string) (n : string) (c : content) (d d' : listing) :
  Fs.modify cs (Fs.put n c) d = Some d' ->
  Fs.lookup (cs ++ [n]) d' = Some (File c).
Proof.
  intros H. destruct (modify_lookup cs _ d d' H) as [es [es' [_ [Hp Hl']]]].
  exact (lookup_snoc_file cs n d' es' c Hl' (put_find_same n c es es' Hp)).
Qed.

(** Every other regular file reads as before. *)
Lemma modify_put_lookup_other (cs : list string) (n : string) (c : content) :
  forall q d d' c',
    Fs.modify cs (Fs.put n c) d = Some d' ->
    q <> cs ++ [n] ->
    Fs.lookup q d = Some (File c') ->
    Fs.lookup q d' = Some (File c').
Proof.
  induction cs as [| m0 q0 IH]; intros q d d' c' H Hq Hl.
  - cbn in H. destruct q as [| k q']; [ discriminate Hl | ].
    cbn [Fs.lookup] in *.
    destruct (String.eqb_spec k n) as [-> | Hkn].
    + destruct (Fs.find n d) as [x |] eqn:Ef; [ | discriminate Hl ].
      destruct (put_find_before n c d d' x H Ef) as [c0 ->].
      destruct q'; [ exfalso; apply Hq; reflexivity | discriminate Hl ].
    + rewrite (put_find_other n k c Hkn d d' H). exact Hl.
  - induction d as [| [m x] r IHd] in d', H, Hl |- *.
    + discriminate H.
    + rewrite modify_cons in H.
      destruct q as [| k q']; [ discriminate Hl | ].
      cbn [Fs.lookup Fs.find] in Hl.
      destruct (String.eqb m m0) eqn:E.
      * destruct x as [c0 | sub]; [ discriminate H | ].
        destruct (Fs.modify q0 (Fs.put n c) sub) as [sub' |] eqn:Es; [ | discriminate H ].
        injection H as <-. cbn [Fs.lookup Fs.find].
        destruct (String.eqb m k) eqn:Ek; [ | exact Hl ].
        apply String.eqb_eq in E, Ek. subst m0 k.
        apply (IH q' sub sub' c' Es); [ | exact Hl ].
        intros ->. apply Hq. reflexivity.
      * destruct (Fs.modify (m0 :: q0) (Fs.put n c) r) as [r' |] eqn:Er; [ | discriminate H ].
        injection H as <-. cbn [Fs.lookup Fs.find].
        destruct (String.eqb m k) eqn:Ek; [ exact Hl | ].
        apply (IHd r' eq_refl). cbn [Fs.lookup]. exact Hl.
Qed.

(** A new directory hides no regular file. *)
Lemma modify_add_dir_lookup (cs : list string) (n : string) :
  forall q d d' c',
    Fs.modify cs (Fs.add_dir n) d = Some d' ->
    Fs.lookup q d = Some (File c') ->
    Fs.lookup q d' = Some (File c').
Proof.
  induction cs as [| m0 q0 IH]; intros q d d' c' H Hl.
  - cbn in H. destruct q as [| k q']; [ discriminate Hl | ].
    cbn [Fs.lookup] in *.
    destruct (Fs.find k d) as [x |] eqn:Ef; [ | discriminate Hl ].
    rewrite (add_dir_find n k d d' x H Ef). exact Hl.
  - induction d as [| [m x] r IHd] in d', H, Hl |- *.
    + discriminate H.
    + rewrite modify_cons in H.
      destruct q as [| k q']; [ discriminate Hl | ].
      cbn [Fs.lookup Fs.find] in Hl.
      destruct (String.eqb m m0) eqn:E.
      * destruct x as [c0 | sub]; [ discriminate H | ].
        destruct (Fs.modify q0 (Fs.add_dir n) sub) as [sub' |] eqn:Es; [ | discriminate H ].
        injection H as <-. cbn [Fs.lookup Fs.find].
        destruct (String.eqb m k) eqn:Ek; [ | exact Hl ].
        exact (IH q' sub sub' c' Es Hl).
      * destruct (Fs.modify (m0 :: q0) (Fs.add_dir n) r) as [r' |] eqn:Er; [ | discriminate H ].
        injection H as <-. cbn [Fs.lookup Fs.find].
        destruct (String.eqb m k) eqn:Ek; [ exact Hl | ].
        apply (IHd r' eq_refl). cbn [Fs.lookup]. exact Hl.
Qed.

(** ** Files present in a tree *)

Lemma file_at_one (n : string) (c : content) (es : listing) :
  Fs.file_at [n] c es <-> In (n, File c) es.
Proof. reflexivity. Qed.

Lemma file_at_deep (n k : string) (q : list string) (c : content) (es : listing) :
  Fs.file_at (n :: k :: q) c es
  <-> exists sub, In (n, Dir sub) es /\ Fs.file_at (k :: q) c sub.
Proof. reflexivity. Qed.

(** A file is present in the head entry or in the rest of the listing. *)
Lemma file_at_cons (p : list string) (c : content) (e : string * node) (r : listing) :
  Fs.file_at p c (e :: r) <-> file_in_entry p c e \/ Fs.file_at p c r.
Proof.
  destruct p as [| n [| k q]]; cbn.
  - tauto.
  - split; intros [H | H]; auto.
  - split.
    + intros [sub [[H | H] Hs]]; [ left | right ]; exists sub; auto.
    + intros [[sub [H Hs]] | [sub [H Hs]]]; exists sub; auto.
Qed.

(** What the first-match lookup finds is present. *)
Lemma find_in (n : string) (es : listing) (x : node) :
  Fs.find n es = Some x -> In (n, x) es.
Proof.
  induction es as [| [m y] r IH]; cbn; [ discriminate | ].
  destruct (String.eqb_spec m n) as [-> | _].
  - intros H. injection H as ->. left. reflexivity.
  - intros H. right. exact (IH H).
Qed.

Lemma lookup_file_at (p : list string) :
  forall d c, Fs.lookup p d = Some (File c) -> Fs.file_at p c d.
Proof.
  induction p as [| n q IH]; intros d c H; [ discriminate H | ].
  cbn [Fs.lookup] in H.
  destruct (Fs.find n d) as [[c0 | sub] |] eqn:Ef; [ | | discriminate H ].
  - destruct q; [ | discriminate H ]. injection H as ->.
    apply file_at_one. exact (find_in n d _ Ef).
  - destruct q as [| k q]; [ discriminate H | ].
    apply file_at_deep. exists sub. split; [ exact (find_in n d _ Ef) | ].
    exact (IH sub c H).
Qed.

(** A file present below a directory is present in the whole tree. *)
Lemma file_at_below (cs : list string) :
  forall d es p c,
    Fs.lookup cs d = Some (Dir es) -> Fs.file_at p c es ->
    Fs.file_at (cs ++ p) c d.
Proof.
  induction cs as [| n q IH]; intros d es p c Hl Hf.
  - cbn in Hl. injection Hl as ->. exact Hf.
  - cbn [Fs.lookup] in Hl.
    destruct (Fs.find n d) as [[c0 | sub] |] eqn:Ef;
      [ destruct q; discriminate Hl | | discriminate Hl ].
    assert (G := IH sub es p c Hl Hf).
    cbn [app]. destruct (q ++ p) as [| k r] eqn:E; [ destruct G | ].
    apply file_at_deep. exists sub. split; [ exact (find_in n d _ Ef) | exact G ].
Qed.

(** A rewrite of one listing that loses no entry loses no file. *)
Lemma modify_grows (cs : list string) (f : listing -> option listing) :
  (forall es es', f es = Some es' -> forall e, In e es -> In e es') ->
  forall d d' p c,
    Fs.modify cs f d = Some d' -> Fs.file_at p c d -> Fs.file_at p c d'.
Proof.
  intros Hf. induction cs as [| n q IH]; intros d d' p c H Hp.
  - cbn in H. destruct p as [| a [| b p]]; [ destruct Hp | | ].
    + apply file_at_one. apply (Hf d d' H). exact Hp.
    + apply file_at_deep in Hp as [sub [Hi Hs]].
      apply file_at_deep. exists sub. split; [ apply (Hf d d' H); exact Hi | exact Hs ].
  - induction d as [| [m x] r IHd] in d', H, Hp |- *.
    + discriminate H.
    + rewrite modify_cons in H. apply file_at_cons in Hp.
      destruct (String.eqb m n) eqn:E.
      * destruct x as [c0 | sub]; [ discriminate H | ].
        destruct (Fs.modify q f sub) as [sub' |] eqn:Es; [ | discriminate H ].
        injection H as <-. apply file_at_cons.
        destruct Hp as [Hp | Hp]; [ left | right; exact Hp ].
        destruct p as [| a [| b p]]; cbn [file_in_entry] in Hp |- *;
          [ exact Hp | discriminate Hp | ].
        destruct Hp as [s [Hs Hq]]. injection Hs as Hm Hsub.
        rewrite <- Hsub in Hq. rewrite Hm.
        exists sub'. split; [ reflexivity | ]. exact (IH sub sub' _ c Es Hq).
      * destruct (Fs.modify (n :: q) f r) as [r' |] eqn:Er; [ | discriminate H ].
        injection H as <-. apply file_at_cons.
        destruct Hp as [Hp | Hp]; [ left; exact Hp | right ].
        exact (IHd r' eq_refl Hp).
Qed.

Lemma put_keeps (n : string) (c : content) :
  forall es es' e,
    Fs.put n c es = Some es' -> In e es ->
    In e es' \/ (exists c0, e = (n, File c0) /\ Fs.find n es = Some (File c0)).
Proof.
  induction es as [| [m x] r IH]; intros es' e H Hi; [ destruct Hi | ].
  cbn in H. cbn [Fs.find].
  destruct (String.eqb m n) eqn:E.
  - destruct x as [c0 | sub]; [ | discriminate H ]. injection H as <-.
    destruct Hi as [<- | Hi].
    + right. exists c0. apply String.eqb_eq in E. subst m. split; reflexivity.
    + left. right. exact Hi.
  - destruct (Fs.put n c r) as [r' |] eqn:Er; [ | discriminate H ].
    injection H as <-.
    destruct Hi as [<- | Hi]; [ left; left; reflexivity | ].
    destruct (IH r' e eq_refl Hi) as [G | G]; [ left; right; exact G | right; exact G ].
Qed.

(** A write loses no file but the one it replaces, the one a read of the
    written path found. *)
Lemma modify_put_keeps (cs : list string) (n : string) (c0 : content) :
  forall d d' p c,
    Fs.modify cs (Fs.put n c0) d = Some d' ->
    Fs.file_at p c d ->
    Fs.file_at p c d'
    \/ (p = cs ++ [n] /\ Fs.lookup (cs ++ [n]) d = Some (File c)).
Proof.
  induction cs as [| m0 q0 IH]; intros d d' p c H Hp.
  - cbn in H. destruct p as [| a [| b p]]; [ destruct Hp | | ].
    + apply file_at_one in Hp.
      destruct (put_keeps n c0 d d' _ H Hp) as [G | [c1 [G1 G2]]].
      * left. apply file_at_one. exact G.
      * right. injection G1 as -> ->. cbn. rewrite G2. split; reflexivity.
    + left. apply file_at_deep in Hp as [sub [Hi Hs]].
      apply file_at_deep. exists sub. split; [ | exact Hs ].
      destruct (put_keeps n c0 d d' _ H Hi) as [G | [c1 [G1 _]]];
        [ exact G | discriminate G1 ].
  - induction d as [| [m x] r IHd] in d', H, Hp |- *.
    + discriminate H.
    + rewrite modify_cons in H. apply file_at_cons in Hp.
      cbn [app Fs.lookup Fs.find].
      destruct (String.eqb m m0) eqn:E.
      * destruct x as [c1 | sub]; [ discriminate H | ].
        destruct (Fs.modify q0 (Fs.put n c0) sub) as [sub' |] eqn:Es; [ | discriminate H ].
        injection H as <-.
        destruct Hp as [Hp | Hp];
          [ | left; apply file_at_cons; right; exact Hp ].
        destruct p as [| a [| b p]]; cbn [file_in_entry] in Hp;
          [ destruct Hp | discriminate Hp | ].
        destruct Hp as [s [Hs Hq]]. injection Hs as Hm Hsub.
        rewrite <- Hsub in Hq. apply String.eqb_eq in E. subst m0.
        destruct (IH sub sub' _ c Es Hq) as [G | [G1 G2]].
        -- left. apply file_at_cons. left. rewrite Hm.
           exists sub'. split; [ reflexivity | exact G ].
        -- right. rewrite G1, <- Hm. split; [ reflexivity | exact G2 ].
      * destruct (Fs.modify (m0 :: q0) (Fs.put n c0) r) as [r' |] eqn:Er; [ | discriminate H ].
        injection H as <-.
        destruct Hp as [Hp | Hp]; [ left; apply file_at_cons; left; exact Hp | ].
        destruct (IHd r' eq_refl Hp) as [G | [G1 G2]].
        -- left. apply file_at_cons. right. exact G.
        -- right. split; [ exact G1 | exact G2 ].
Qed.

Lemma add_dir_grows (n : string) (es es' : listing) :
  Fs.add_dir n es = Some es' -> forall e, In e es -> In e es'.
Proof.
  unfold Fs.add_dir. destruct (Fs.find n es); [ discriminate | ].
  intros H e Hi. injection H as <-. apply in_or_app. left. exact Hi.
Qed.

(** ** Dicts *)

Lemma raw_eqb_eq (k1 k2 : pykey) : Py.raw_eqb k1 k2 = true <-> k1 = k2.
Proof.
  destruct k1, k2; cbn; split; intros H; try discriminate H; try reflexivity.
  - apply Bool.eqb_prop in H. congruence.
  - injection H as ->. apply Bool.eqb_reflx.
  - apply Z.eqb_eq in H. congruence.
  - injection H as ->. apply Z.eqb_refl.
  - apply String.eqb_eq in H. congruence.
  - injection H as ->. apply String.eqb_refl.
Qed.

Lemma key_eqb_refl (k : pykey) : Py.key_eqb k k = true.
Proof. apply raw_eqb_eq. reflexivity. Qed.

Lemma key_eqb_sym (k1 k2 : pykey) : Py.key_eqb k1 k2 = Py.key_eqb k2 k1.
Proof.
  unfold Py.key_eqb.
  destruct (Py.raw_eqb (Py.canon k1) (Py.canon k2)) eqn:E1,
           (Py.raw_eqb (Py.canon k2) (Py.canon k1)) eqn:E2; try reflexivity.
  - apply raw_eqb_eq in E1. rewrite E1 in E2.
    rewrite (proj2 (raw_eqb_eq _ _) eq_refl) in E2. discriminate E2.
  - apply raw_eqb_eq in E2. rewrite E2 in E1.
    rewrite (proj2 (raw_eqb_eq _ _) eq_refl) in E1. discriminate E1.
Qed.

Lemma key_eqb_trans (k1 k2 k3 : pykey) :
  Py.key_eqb k1 k2 = true -> Py.key_eqb k2 k3 = true -> Py.key_eqb k1 k3 = true.
Proof.
  unfold Py.key_eqb. rewrite !raw_eqb_eq. congruence.
Qed.

Lemma dict_get_set_same (items : list (pykey * pyval)) (k : pykey) (v : pyval) :
  Py.dict_get (Py.dict_set items k v) k = Some v.
Proof.
  induction items as [| [k' v'] r IH]; cbn.
  - rewrite key_eqb_refl. reflexivity.
  - destruct (Py.key_eqb k' k) eqn:E; cbn; rewrite E; [ reflexivity | exact IH ].
Qed.

Lemma dict_get_set_other (items : list (pykey * pyval)) (k k2 : pykey) (v : pyval) :
  Py.key_eqb k k2 = false ->
  Py.dict_get (Py.dict_set items k v) k2 = Py.dict_get items k2.
Proof.
  intros Hne. induction items as [| [k' v'] r IH]; cbn.
  - rewrite Hne. reflexivity.
  - destruct (Py.key_eqb k' k) eqn:E; cbn.
    + destruct (Py.key_eqb k' k2) eqn:E2; [ | reflexivity ].
      rewrite key_eqb_sym in E.
      rewrite (key_eqb_trans _ _ _ E E2) in Hne. discriminate Hne.
    + rewrite IH. reflexivity.
Qed.

Lemma dict_set_new (items : list (pykey * pyval)) (k : pykey) (v : pyval) :
  Py.dict_get items k = None -> Py.dict_set items k v = items ++ [(k, v)].
Proof.
  induction items as [| [k' v'] r IH]; cbn; [ reflexivity | ].
  destruct (Py.key_eqb k' k); [ discriminate | ].
  intros H. rewrite (IH H). reflexivity.
Qed.

Lemma dict_get_app_none (a b : list (pykey * pyval)) (k : pykey) :
  Py.dict_get (a ++ b) k = None <-> Py.dict_get a k = None /\ Py.dict_get b k = None.
Proof.
  induction a as [| [k' v'] r IH]; cbn.
  - tauto.
  - destruct (Py.key_eqb k' k); [ | exact IH ].
    split; [ discriminate | intros [H _]; discriminate H ].
Qed.

(** The keys of [d[k] = v] are the keys of [d], and [k]. *)
Lemma dict_set_in (items : list (pykey * pyval)) (k : pykey) (v : pyval)
    (k' : pykey) (v' : pyval) :
  In (k', v') (Py.dict_set items k v) ->
  (exists v0, In (k', v0) items) \/ k' = k.
Proof.
  induction items as [| [k0 v0] r IH]; cbn.
  - intros [H | []]. right. congruence.
  - destruct (Py.key_eqb k0 k).
    + intros [H | H].
      * left. exists v0. left. congruence.
      * left. exists v'. right. exact H.
    + intros [H | H].
      * left. exists v0. left. congruence.
      * destruct (IH H) as [[v1 G] | G]; [ left; exists v1; right; exact G | right; exact G ].
Qed.

Lemma dict_set_keys (P : pykey -> Prop) (items : list (pykey * pyval))
    (k : pykey) (v : pyval) :
  Forall (fun kv => P (fst kv)) items -> P k ->
  Forall (fun kv => P (fst kv)) (Py.dict_set items k v).
Proof.
  intros H Hk. induction H as [| [k0 v0] r H0 Hr IH]; cbn.
  - constructor; [ exact Hk | constructor ].
  - destruct (Py.key_eqb k0 k); constructor; auto.
Qed.

Lemma dict_set_values (P : pyval -> Prop) (items : list (pykey * pyval))
    (k : pykey) (v : pyval) :
  Forall (fun kv => P (snd kv)) items -> P v ->
  Forall (fun kv => P (snd kv)) (Py.dict_set items k v).
Proof.
  intros H Hv. induction H as [| [k0 v0] r H0 Hr IH]; cbn.
  - constructor; [ exact Hv | constructor ].
  - destruct (Py.key_eqb k0 k); constructor; auto.
Qed.

Lemma dict_set_distinct (items : list (pykey * pyval)) (k : pykey) (v : pyval) :
  distinct items -> distinct (Py.dict_set items k v).
Proof.
  induction items as [| [k0 v0] r IH]; cbn.
  - intros _. split; [ reflexivity | exact I ].
  - intros [H0 Hr]. destruct (Py.key_eqb k0 k) eqn:E; cbn.
    + split; assumption.
    + split; [ | exact (IH Hr) ].
      rewrite dict_get_set_other; [ exact H0 | ].
      rewrite key_eqb_sym. exact E.
Qed.

Lemma dict_get_in (items : list (pykey * pyval)) (k : pykey) (v : pyval) :
  Py.dict_get items k = Some v -> exists k', In (k', v) items.
Proof.
  induction items as [| [k0 v0] r IH]; cbn; [ discriminate | ].
  destruct (Py.key_eqb k0 k).
  - intros H. injection H as ->. exists k0. left. reflexivity.
  - intros H. destruct (IH H) as [k' G]. exists k'. right. exact G.
Qed.

Lemma dict_get_none_in (items : list (pykey * pyval)) (k : pykey) :
  Py.dict_get items k = None ->
  forall kv, In kv items -> Py.key_eqb (fst kv) k = false.
Proof.
  induction items as [| [k0 v0] r IH]; cbn; [ intros _ kv [] | ].
  destruct (Py.key_eqb k0 k) eqn:E; [ discriminate | ].
  intros H kv [<- | Hi]; [ exact E | exact (IH H kv Hi) ].
Qed.

Lemma fold_set_distinct (l acc : list (pykey * pyval)) :
  distinct l ->
  (forall kv, In kv l -> Py.dict_get acc (fst kv) = None) ->
  fold_left (fun d kv => Py.dict_set d (fst kv) (snd kv)) l acc = acc ++ l.
Proof.
  revert acc. induction l as [| [k v] r IH]; intros acc Hd Hacc; cbn.
  - rewrite app_nil_r. reflexivity.
  - destruct Hd as [H0 Hr]. cbn in H0.
    rewrite (dict_set_new acc k v (Hacc (k, v) (or_introl eq_refl))).
    rewrite IH; [ rewrite <- app_assoc; reflexivity | exact Hr | ].
    intros kv Hi. apply dict_get_app_none. split.
    + apply Hacc. right. exact Hi.
    + cbn. rewrite key_eqb_sym, (dict_get_none_in r k H0 kv Hi). reflexivity.
Qed.

Lemma dict_of_pairs_distinct_id (l : list (pykey * pyval)) :
  distinct l -> Py.dict_of_pairs l = l.
Proof.
  intros H. unfold Py.dict_of_pairs. rewrite fold_set_distinct; auto.
Qed.

Lemma fold_set_invariant (P : list (pykey * pyval) -> Prop)
    (Q : pykey * pyval -> Prop) (l acc : list (pykey * pyval)) :
  (forall d kv, P d -> Q kv -> P (Py.dict_set d (fst kv) (snd kv))) ->
  Forall Q l -> P acc ->
  P (fold_left (fun d kv => Py.dict_set d (fst kv) (snd kv)) l acc).
Proof.
  intros Hstep H. revert acc. induction H as [| kv r Hkv Hr IH]; intros acc Hacc; cbn.
  - exact Hacc.
  - apply IH. apply Hstep; assumption.
Qed.

(** ** Loading and dumping *)

Lemma json_induction (P : json -> Prop) :
  P JNull -> (forall b, P (JBool b)) -> (forall z, P (JNum z)) ->
  (forall s, P (JStr s)) ->
  (forall l, Forall P l -> P (JArr l)) ->
  (forall ms, Forall (fun kv => P (snd kv)) ms -> P (JObj ms)) ->
  forall j, P j.
Proof.
  intros Hn Hb Hz Hs Ha Ho. fix IH 1. intros [| b | z | s | l | ms].
  - exact Hn.
  - apply Hb.
  - apply Hz.
  - apply Hs.
  - apply Ha. revert l. fix IHl 1. intros [| x l].
    + constructor.
    + constructor; [ apply IH | apply IHl ].
  - apply Ho. revert ms. fix IHl 1. intros [| [k x] ms].
    + constructor.
    + constructor; [ apply IH | apply IHl ].
Qed.

Lemma pyval_induction (P : pyval -> Prop) :
  P PNone -> (forall b, P (PBool b)) -> (forall z, P (PInt z)) ->
  (forall s, P (PStr s)) ->
  (forall l, Forall P l -> P (PList l)) ->
  (forall items, Forall (fun kv => P (snd kv)) items -> P (PDict items)) ->
  forall v, P v.
Proof.
  intros Hn Hb Hz Hs Ha Ho. fix IH 1. intros [| b | z | s | l | items].
  - exact Hn.
  - apply Hb.
  - apply Hz.
  - apply Hs.
  - apply Ha. revert l. fix IHl 1. intros [| x l].
    + constructor.
    + constructor; [ apply IH | apply IHl ].
  - apply Ho. revert items. fix IHl 1. intros [| [k x] items].
    + constructor.
    + constructor; [ apply IH | apply IHl ].
Qed.

(** What [json.load] returns is a loaded value. *)
Lemma load_loaded (j : json) : loaded (Json.load j).
Proof.
  induction j as [| b | z | s | l IH | ms IH] using json_induction; cbn [Json.load];
    try constructor.
  - induction IH; constructor; assumption.
  - unfold Py.dict_of_pairs.
    apply (fold_set_invariant
             (fun d => Forall (fun kv => is_str_key (fst kv)) d)
             (fun kv => is_str_key (fst kv))).
    + intros d kv Hd Hk. apply dict_set_keys; assumption.
    + induction ms as [| [k x] ms IHms]; constructor; [ exists k; reflexivity | ].
      apply IHms. inversion IH; assumption.
    + constructor.
  - unfold Py.dict_of_pairs.
    apply (fold_set_invariant
             (fun d => Forall (fun kv => loaded (snd kv)) d)
             (fun kv => loaded (snd kv))).
    + intros d kv Hd Hk. apply dict_set_values; assumption.
    + induction IH as [| [k x] ms Hx Hms IHms]; constructor; assumption.
    + constructor.
  - unfold Py.dict_of_pairs.
    apply (fold_set_invariant distinct (fun _ => True)).
    + intros d kv Hd _. apply dict_set_distinct. exact Hd.
    + apply Forall_forall. intros; exact I.
    + exact I.
Qed.

(** Dumping a loaded value and loading it again gives it back. *)
Lemma load_dump (v : pyval) : loaded v -> Json.load (Json.dump v) = v.
Proof.
  induction v as [| b | z | s | l IH | items IH] using pyval_induction;
    intros H; cbn [Json.load Json.dump]; try reflexivity.
  - inversion H as [| | | | l' Hl |]; subst. f_equal.
    rewrite map_map. clear H. induction IH as [| x r Hx Hr IHr]; [ reflexivity | ].
    inversion Hl; subst. cbn. f_equal; auto.
  - inversion H as [| | | | | items' Hk Hv Hd]; subst. f_equal.
    rewrite map_map. cbn [fst snd].
    replace (map (fun x => (KStr (Json.key_text (fst x)), Json.load (Json.dump (snd x)))) items)
      with items; [ apply dict_of_pairs_distinct_id; exact Hd | ].
    clear Hd H. induction IH as [| [k x] r Hx Hr IHr]; [ reflexivity | ].
    inversion Hk as [| ? ? [s Hs] Hk']; subst. inversion Hv; subst.
    cbn [fst snd] in *. cbn [map fst snd]. rewrite Hs. cbn [Json.key_text].
    rewrite Hx by assumption. f_equal. apply IHr; assumption.
Qed.

(** ** Bodies that work on the reverse index only *)

Lemma on_index_ret {A : Type} (a : A) : on_index (ret a).
Proof. split; [ intros w; destruct w; reflexivity | intros w w' H; split; [ reflexivity | exact H ] ]. Qed.

Lemma on_index_lift {A : Type} (r : result A) : on_index (lift r).
Proof. split; [ intros w; destruct w; reflexivity | intros w w' H; split; [ reflexivity | exact H ] ]. Qed.

Lemma on_index_gets : on_index (gets address_to_account).
Proof.
  split; [ intros w; destruct w; reflexivity | ].
  intros w w' H; split; [ cbn; rewrite H; reflexivity | exact H ].
Qed.

Lemma on_index_set (v : pyval) : on_index (modify (set_address_to_account v)).
Proof. split; [ intros w; reflexivity | intros w w' H; split; reflexivity ]. Qed.

Lemma on_index_bind {A B : Type} (m : M A) (k : A -> M B) :
  on_index m -> (forall a, on_index (k a)) -> on_index (bind m k).
Proof.
  intros [Hm1 Hm2] Hk. split.
  - intros w. unfold bind. specialize (Hm1 w).
    destruct (m w) as [[a | e] w1]; cbn [snd] in *; [ | exact Hm1 ].
    destruct (Hk a) as [Hk1 _]. etransitivity; [ apply Hk1 | ].
    generalize (address_to_account (snd (k a w1))). intros x.
    rewrite Hm1. reflexivity.
  - intros w w' H. unfold bind. specialize (Hm2 w w' H).
    destruct (m w) as [r w1], (m w') as [r' w1']. cbn [fst snd] in Hm2.
    destruct Hm2 as [<- Ha]. destruct r as [a | e]; [ | split; [ reflexivity | exact Ha ] ].
    destruct (Hk a) as [_ Hk2]. exact (Hk2 w1 w1' Ha).
Qed.

Lemma on_index_try {A : Type} (m : M A) (h : exn -> M A) :
  on_index m -> (forall e, on_index (h e)) -> on_index (try_except m h).
Proof.
  intros [Hm1 Hm2] Hh. split.
  - intros w. unfold try_except. specialize (Hm1 w).
    destruct (m w) as [[a | e] w1]; cbn [snd] in *; [ exact Hm1 | ].
    destruct (Hh e) as [Hh1 _]. etransitivity; [ apply Hh1 | ].
    generalize (address_to_account (snd (h e w1))). intros x.
    rewrite Hm1. reflexivity.
  - intros w w' H. unfold try_except. specialize (Hm2 w w' H).
    destruct (m w) as [r w1], (m w') as [r' w1']. cbn [fst snd] in Hm2.
    destruct Hm2 as [<- Ha]. destruct r as [a | e]; [ split; [ reflexivity | exact Ha ] | ].
    destruct (Hh e) as [_ Hh2]. exact (Hh2 w1 w1' Ha).
Qed.

Lemma on_index_for_each {A : Type} (l : list A) (body : A -> M unit) :
  (forall x, on_index (body x)) -> on_index (for_each l body).
Proof.
  intros Hb. induction l as [| x r IH]; cbn [for_each].
  - apply on_index_ret.
  - apply on_index_bind; [ apply Hb | intros _; exact IH ].
Qed.

Lemma on_index_reindex_account (a : string * pyval) :
  on_index (Wallet.reindex_account a).
Proof.
  unfold Wallet.reindex_account.
  apply on_index_try; [ | intros _; apply on_index_ret ].
  apply on_index_bind; [ apply on_index_lift | intros addresses ].
  apply on_index_bind; [ apply on_index_lift | intros entries ].
  apply on_index_for_each. intros address.
  apply on_index_bind; [ apply on_index_lift | intros a0 ].
  apply on_index_bind; [ apply on_index_gets | intros a2a ].
  apply on_index_bind; [ apply on_index_lift | intros a2a' ].
  apply on_index_set.
Qed.

(** The loop of [reindex] swallows every exception. *)
Lemma reindex_account_ok (a : string * pyval) (w : world) :
  fst (Wallet.reindex_account a w) = Ok tt.
Proof.
  unfold Wallet.reindex_account, try_except.
  match goal with |- context [match ?m w with _ => _ end] =>
    destruct (m w) as [[[] | e] w1] end; reflexivity.
Qed.

Lemma reindex_loop_ok (l : list (string * pyval)) (w : world) :
  fst (for_each l Wallet.reindex_account w) = Ok tt.
Proof.
  revert w. induction l as [| a r IH]; intros w; cbn [for_each]; [ reflexivity | ].
  unfold bind. assert (H := reindex_account_ok a w).
  destruct (Wallet.reindex_account a w) as [[[] | e] w1]; [ apply IH | discriminate H ].
Qed.

(** ** The walk and a rewritten [rindex.json] *)

Lemma yields_app (a b : list (list string * string * content)) :
  Wallet.yields (a ++ b) = Wallet.yields a ++ Wallet.yields b.
Proof. apply flat_map_app. Qed.

Lemma put_subdirs (n : string) (c : content) (here : list string) :
  forall es es',
    Fs.put n c es = Some es' ->
    flat_map (fun e => Fs.walk_node (here ++ [fst e]) (snd e)) es'
    = flat_map (fun e => Fs.walk_node (here ++ [fst e]) (snd e)) es.
Proof.
  induction es as [| [m x] r IH]; intros es' H; cbn in H.
  - injection H as <-. reflexivity.
  - destruct (String.eqb m n).
    + destruct x; [ | discriminate H ]. injection H as <-. reflexivity.
    + destruct (Fs.put n c r) as [r' |]; [ | discriminate H ].
      injection H as <-. cbn [flat_map]. rewrite (IH r' eq_refl). reflexivity.
Qed.

Lemma put_files (n : string) (c : content) (here : list string) :
  (forall c1, Wallet.parse_file n c1 = None) ->
  forall es es',
    Fs.put n c es = Some es' ->
    Wallet.yields (map (fun f => (here, fst f, snd f)) (Fs.files_of es'))
    = Wallet.yields (map (fun f => (here, fst f, snd f)) (Fs.files_of es)).
Proof.
  intros Hn. induction es as [| [m x] r IH]; intros es' H; cbn in H.
  - injection H as <-. cbn. rewrite Hn. reflexivity.
  - destruct (String.eqb m n) eqn:E.
    + destruct x as [c0 | sub]; [ | discriminate H ]. injection H as <-.
      apply String.eqb_eq in E. subst m. cbn. rewrite !Hn. reflexivity.
    + destruct (Fs.put n c r) as [r' |]; [ | discriminate H ].
      injection H as <-. unfold Fs.files_of in *. cbn [flat_map].
      rewrite !map_app, !yields_app, (IH r' eq_refl). reflexivity.
Qed.

Lemma rindex_passed_over (c : content) : Wallet.parse_file "rindex.json" c = None.
Proof. reflexivity. Qed.

(** Writing [rindex.json] at the root changes nothing of what
    [_parse_accounts] yields. *)
Lemma yields_after_save (p : string) (c : content) (d d' : listing) :
  Fs.write (p ++ "/rindex.json") c d = Ok d' ->
  Wallet.yields (Fs.walk p d') = Wallet.yields (Fs.walk p d).
Proof.
  intros H.
  change (p ++ "/rindex.json")%string with (p ++ "/" ++ "rindex.json")%string in H.
  rewrite (write_child p "rindex.json" c d) in H by (discriminate || reflexivity).
  destruct (Fs.modify (Fs.components p) (Fs.put "rindex.json" c) d) as [d1 |] eqn:E;
    [ | discriminate H ].
  injection H as ->.
  destruct (modify_lookup _ _ d d' E) as [es [es' [Hl [Hp Hl']]]].
  unfold Fs.walk, Fs.stat. destruct (String.eqb p ""); [ reflexivity | ].
  rewrite Hl, Hl'. cbn [Fs.walk_node].
  rewrite !yields_app, (put_subdirs _ _ _ es es' Hp).
  rewrite (put_files _ _ _ rindex_passed_over es es' Hp). reflexivity.
Qed.

Lemma write_idempotent (p : string) (c : content) (d d' : listing) :
  Fs.write p c d = Ok d' -> Fs.write p c d' = Ok d'.
Proof.
  unfold Fs.write, Fs.at_parent. destruct (String.eqb p ""); [ discriminate | ].
  destruct (Fs.components p) as [| a cs]; [ discriminate | ].
  destruct (Fs.modify _ _ d) as [d1 |] eqn:E; [ | discriminate ].
  intros H. injection H as ->.
  rewrite (modify_idempotent _ _ (put_idempotent _ c) d d' E). reflexivity.
Qed.

(** ** [reindex], run twice *)

Lemma save_rindex_run (w : world) :
  Wallet._save_rindex w
  = match Fs.write (path w ++ "/rindex.json")
                   (Doc false (Json.dump (address_to_account w))) (disk w) with
    | Ok d => (Ok tt, set_disk d w)
    | Raise e => (Raise e, w)
    end.
Proof. reflexivity. Qed.

Lemma parse_accounts_run (w : world) :
  Wallet._parse_accounts w
  = (Ok (Wallet.yields (Fs.walk (path w) (disk w))), w).
Proof. reflexivity. Qed.

Lemma reindex_run (w : world) :
  Wallet.reindex w
  = (let w0 := set_address_to_account (PDict []) w in
     let wl := snd (for_each (Wallet.yields (Fs.walk (path w) (disk w)))
                             Wallet.reindex_account w0) in
     match Fs.write (path w ++ "/rindex.json")
                    (Doc false (Json.dump (address_to_account wl))) (disk w) with
     | Ok d => (Ok true, set_disk d wl)
     | Raise e => (Raise e, wl)
     end).
Proof.
  unfold Wallet.reindex. rewrite bind_modify.
  rewrite (bind_ok _ (parse_accounts_run _)). cbv zeta.
  change (path (set_address_to_account (PDict []) w)) with (path w).
  change (disk (set_address_to_account (PDict []) w)) with (disk w).
  set (w0 := set_address_to_account (PDict []) w).
  set (l := Wallet.yields (Fs.walk (path w) (disk w))).
  assert (Hok := reindex_loop_ok l w0).
  destruct (on_index_for_each l _ on_index_reindex_account) as [Hframe _].
  specialize (Hframe w0).
  unfold bind at 1.
  destruct (for_each l Wallet.reindex_account w0) as [[[] | e] wl];
    [ | discriminate Hok ].
  cbn [snd] in *. unfold bind. rewrite save_rindex_run.
  rewrite Hframe. unfold w0.
  cbn [path disk address_to_account set_address_to_account].
  destruct (Fs.write _ _ (disk w)); reflexivity.
Qed.

Lemma read_after_write (p n : string) (c : content) (d d' : listing) :
  n <> "" -> Str.mem "/" n = false ->
  Fs.write (p ++ "/" ++ n) c d = Ok d' ->
  Fs.read (p ++ "/" ++ n) d' = Ok c.
Proof.
  intros Hne Hm H. rewrite (write_child p n c d Hne Hm) in H.
  destruct (Fs.modify (Fs.components p) (Fs.put n c) d) as [d1 |] eqn:E;
    [ | discriminate H ].
  injection H as ->. unfold Fs.read. rewrite (stat_child p n d' Hne Hm).
  rewrite (modify_put_lookup _ _ _ _ _ E). reflexivity.
Qed.

Lemma read_rindex_after_save (p : string) (c : content) (d d' : listing) :
  Fs.write (p ++ "/rindex.json") c d = Ok d' ->
  Fs.read (p ++ "/rindex.json") d' = Ok c.
Proof.
  change (p ++ "/rindex.json")%string with (p ++ "/" ++ "rindex.json")%string.
  apply read_after_write; [ discriminate | reflexivity ].
Qed.

(** C8: [reindex] run again on the state the first run left gives the same
    outcome and the same state: the same reverse index in memory and the
    same disk.  When the runs return, [rindex.json] holds, after each, the
    dump of that one mapping, so the two documents are identical. *)
Theorem reindex_twice (w : world) :
  let w1 := snd (Wallet.reindex w) in
  let w2 := snd (Wallet.reindex w1) in
  Wallet.reindex w1 = (fst (Wallet.reindex w), w1)
  /\ address_to_account w2 = address_to_account w1
  /\ disk w2 = disk w1
  /\ (fst (Wallet.reindex w) = Ok true ->
      Fs.read (path w ++ "/rindex.json") (disk w1)
      = Ok (Doc false (Json.dump (address_to_account w1)))
      /\ Fs.read (path w ++ "/rindex.json") (disk w2)
         = Ok (Doc false (Json.dump (address_to_account w1)))).
Proof.
  cbv zeta.
  assert (Main : Wallet.reindex (snd (Wallet.reindex w))
                 = (fst (Wallet.reindex w), snd (Wallet.reindex w))).
  { rewrite (reindex_run w). cbv zeta.
    set (w0 := set_address_to_account (PDict []) w).
    set (l := Wallet.yields (Fs.walk (path w) (disk w))).
    destruct (on_index_for_each l _ on_index_reindex_account) as [Hframe Hdep].
    set (wl := snd (for_each l Wallet.reindex_account w0)).
    assert (Hwl : wl = set_address_to_account (address_to_account wl) w)
      by (exact (Hframe w0)).
    destruct (Fs.write (path w ++ "/rindex.json")
                (Doc false (Json.dump (address_to_account wl))) (disk w))
      as [d1 | e] eqn:Ew; cbn [fst snd].
    - rewrite reindex_run. cbv zeta.
      assert (P : path (set_disk d1 wl) = path w) by (rewrite Hwl; reflexivity).
      assert (D : disk (set_disk d1 wl) = d1) by reflexivity.
      rewrite P, D, (yields_after_save _ _ _ _ Ew). fold l.
      assert (W0 : set_address_to_account (PDict []) (set_disk d1 wl) = set_disk d1 w0)
        by (rewrite Hwl; reflexivity).
      rewrite W0.
      destruct (Hdep w0 (set_disk d1 w0) eq_refl) as [_ Ha].
      assert (Hwl' := Hframe (set_disk d1 w0)).
      fold wl in Ha. rewrite <- Ha in Hwl'. rewrite Hwl'.
      cbn [address_to_account set_address_to_account].
      rewrite (write_idempotent _ _ _ _ Ew).
      rewrite Hwl. reflexivity.
    - rewrite reindex_run. cbv zeta.
      assert (P : path wl = path w) by (rewrite Hwl; reflexivity).
      assert (D : disk wl = disk w) by (rewrite Hwl; reflexivity).
      assert (W0 : set_address_to_account (PDict []) wl = w0)
        by (rewrite Hwl; reflexivity).
      rewrite P, D, W0. fold l. fold wl. rewrite Ew. reflexivity. }
  split; [ exact Main | ].
  rewrite Main. cbn [snd]. split; [ reflexivity | ]. split; [ reflexivity | ].
  intros Hok. rewrite (reindex_run w) in Hok |- *. cbv zeta in Hok |- *.
  destruct (Fs.write (path w ++ "/rindex.json") _ (disk w)) as [d1 | e] eqn:Ew;
    [ | discriminate Hok ].
  cbn [snd disk set_disk address_to_account].
  split; exact (read_rindex_after_save _ _ _ _ Ew).
Qed.

(** ** The walk and the tree *)

Lemma node_induction (P : node -> Prop) :
  (forall c, P (File c)) ->
  (forall es, Forall (fun e => P (snd e)) es -> P (Dir es)) ->
  forall x, P x.
Proof.
  intros Hf Hd. fix IH 1. intros [c | es].
  - apply Hf.
  - apply Hd. revert es. fix IHl 1. intros [| [n x] es].
    + constructor.
    + constructor; [ apply IH | apply IHl ].
Qed.

Lemma files_of_in (n : string) (c : content) (es : listing) :
  In (n, c) (Fs.files_of es) -> In (n, File c) es.
Proof.
  unfold Fs.files_of. intros H. apply in_flat_map in H as [[m x] [He Hx]].
  destruct x as [c0 | sub]; cbn in Hx; [ | destruct Hx ].
  destruct Hx as [Hx | []]. injection Hx as -> ->. exact He.
Qed.

Lemma file_at_step (m : string) (q : list string) (n : string) (c : content)
    (sub es : listing) :
  In (m, Dir sub) es -> Fs.file_at (q ++ [n]) c sub ->
  Fs.file_at ((m :: q) ++ [n]) c es.
Proof.
  intros Hi Hs. cbn [app]. destruct (q ++ [n]) as [| k r] eqn:E.
  - destruct q; discriminate E.
  - apply file_at_deep. exists sub. split; assumption.
Qed.

(** Every file the walk meets is in the tree, below where the walk began. *)
Lemma walk_node_file_at (x : node) :
  forall here f,
    In f (Fs.walk_node here x) ->
    exists q sub,
      x = Dir sub /\ fst (fst f) = here ++ q
      /\ Fs.file_at (q ++ [snd (fst f)]) (snd f) sub.
Proof.
  induction x as [c | es IH] using node_induction; intros here f Hf.
  - destruct Hf.
  - cbn [Fs.walk_node] in Hf. apply in_app_or in Hf as [Hf | Hf].
    + apply in_map_iff in Hf as [[n c] [<- Hn]]. cbn [fst snd].
      exists [], es. rewrite app_nil_r. repeat split.
      apply file_at_one. apply files_of_in. exact Hn.
    + apply in_flat_map in Hf as [[m y] [He Hy]]. cbn [fst snd] in Hy.
      rewrite Forall_forall in IH.
      assert (G := IH (m, y) He (here ++ [m]) f Hy). cbn [snd] in G.
      destruct G as [q [sub [Hsub [Hq Hs]]]]. subst y.
      exists (m :: q), es. split; [ reflexivity | ]. split.
      * rewrite Hq, <- app_assoc. reflexivity.
      * exact (file_at_step m q _ _ sub es He Hs).
Qed.

Lemma walk_file_at (p : string) (d : listing) (f : list string * string * content) :
  In f (Fs.walk p d) ->
  exists q, Fs.file_at (Fs.components p ++ q ++ [snd (fst f)]) (snd f) d.
Proof.
  unfold Fs.walk, Fs.stat. destruct (String.eqb p ""); [ intros [] | ].
  destruct (Fs.lookup (Fs.components p) d) as [[c | es] |] eqn:El; try (intros []).
  intros Hf.
  destruct (walk_node_file_at (Dir es) _ f Hf) as [q [sub [Hsub [_ Hs]]]].
  injection Hsub as <-. exists q.
  exact (file_at_below _ d es _ _ El Hs).
Qed.

Lemma parse_file_some (n : string) (c : content) (a : string * pyval) :
  Wallet.parse_file n c = Some a ->
  n <> "index.json" /\ n <> "rindex.json"
  /\ exists bom j, c = Doc bom j /\ snd a = Json.load j.
Proof.
  unfold Wallet.parse_file.
  destruct (negb _); [ discriminate | ].
  destruct (String.eqb (Str.lower n) "index.json") eqn:E1; [ discriminate | ].
  destruct (String.eqb (Str.lower n) "rindex.json") eqn:E2; [ discriminate | ].
  cbn [orb]. destruct c as [t | bom j]; cbn [json_loads_sig]; [ discriminate | ].
  intros H. injection H as <-. repeat split.
  - intros ->. discriminate E1.
  - intros ->. discriminate E2.
  - exists bom, j. split; reflexivity.
Qed.

(** What [_parse_accounts] yields was read from an account file. *)
Lemma yields_from_files (w : world) (a : string * pyval) :
  In a (Wallet.yields (Fs.walk (path w) (disk w))) ->
  from_account_file w (snd a).
Proof.
  unfold Wallet.yields. intros H. apply in_flat_map in H as [f [Hf Ha]].
  destruct (Wallet.parse_file (snd (fst f)) (snd f)) as [a' |] eqn:Ep; [ | destruct Ha ].
  destruct Ha as [<- | []].
  destruct (parse_file_some _ _ _ Ep) as [Hi [Hr [bom [j [Hc Hl]]]]].
  destruct (walk_file_at _ _ f Hf) as [q Hq]. rewrite Hc in Hq.
  exists (Fs.components (path w) ++ q ++ [snd (fst f)]), bom, j.
  split; [ exact Hq | ]. split; [ | exact Hl ].
  split; [ eexists; reflexivity | ].
  split; intros E; apply app_inv_head in E;
    [ change ["index.json"] with ([] ++ ["index.json"]) in E
    | change ["rindex.json"] with ([] ++ ["rindex.json"]) in E ];
    apply app_inj_tail in E as [_ E]; auto.
Qed.

(** ** Keeping the reverse index sound *)

Lemma bind_inv {A B : Type} (I : world -> Prop) (m : M A) (k : A -> M B) (w : world) :
  I (snd (m w)) ->
  (forall a w', m w = (Ok a, w') -> I w' -> I (snd (k a w'))) ->
  I (snd (bind m k w)).
Proof.
  intros H Hk. unfold bind. destruct (m w) as [[a | e] w'] eqn:E; cbn [snd] in *.
  - apply (Hk a w' eq_refl H).
  - exact H.
Qed.

Lemma for_each_inv {A : Type} (I : world -> Prop) (l : list A) (body : A -> M unit) :
  (forall x w, In x l -> I w -> I (snd (body x w))) ->
  forall w, I w -> I (snd (for_each l body w)).
Proof.
  induction l as [| x r IH]; intros Hb w Hw; cbn [for_each].
  - exact Hw.
  - apply bind_inv.
    + apply Hb; [ left; reflexivity | exact Hw ].
    + intros _ w' _ Hw'. apply IH; [ | exact Hw' ].
      intros y w2 Hy. apply Hb. right. exact Hy.
Qed.

Lemma sound_same (w w' : world) :
  disk w' = disk w -> path w' = path w ->
  address_to_account w' = address_to_account w ->
  rindex_sound w -> rindex_sound w'.
Proof.
  unfold rindex_sound. intros Hd Hp Ha H items k v. rewrite Hd, Hp, Ha. apply H.
Qed.

(** A disk that keeps every account file keeps the index sound. *)
Lemma sound_disk (w : world) (d' : listing) :
  rindex_sound w ->
  (forall p c, account_file (path w) p -> Fs.file_at p c (disk w) -> Fs.file_at p c d') ->
  rindex_sound (set_disk d' w).
Proof.
  intros H Hkeep items k v Ha Hi. cbn in Ha.
  destruct (H items k v Ha Hi) as [p [c [Hf [Hacc Hc]]]].
  exists p, c. split; [ cbn; apply Hkeep; assumption | ].
  split; [ exact Hacc | exact Hc ].
Qed.

Lemma sound_write_rindex (w : world) (c : content) (d' : listing) :
  rindex_sound w ->
  Fs.write (path w ++ "/rindex.json") c (disk w) = Ok d' ->
  rindex_sound (set_disk d' w).
Proof.
  intros H Hw. apply sound_disk; [ exact H | ]. intros p c0 Hacc Hf.
  change (path w ++ "/rindex.json")%string
    with (path w ++ "/" ++ "rindex.json")%string in Hw.
  rewrite write_child in Hw by (discriminate || reflexivity).
  destruct (Fs.modify _ _ (disk w)) as [d1 |] eqn:E; [ | discriminate Hw ].
  injection Hw as ->.
  destruct (modify_put_keeps _ _ _ _ _ _ _ E Hf) as [G | [G _]]; [ exact G | ].
  destruct Hacc as [_ [_ Hr]]. contradiction.
Qed.

Lemma sound_save_rindex (w : world) :
  rindex_sound w -> rindex_sound (snd (Wallet._save_rindex w)).
Proof.
  intros H. rewrite save_rindex_run.
  destruct (Fs.write _ _ (disk w)) as [d' | e] eqn:E; cbn [snd]; [ | exact H ].
  exact (sound_write_rindex w _ d' H E).
Qed.

Lemma sound_mkdir (p : string) (w : world) :
  rindex_sound w -> rindex_sound (snd (os_mkdir p w)).
Proof.
  intros H. unfold os_mkdir.
  destruct (Fs.mkdir p (disk w)) as [d' | e] eqn:E; cbn [snd]; [ | exact H ].
  apply sound_disk; [ exact H | ]. intros q c _ Hf.
  unfold Fs.mkdir, Fs.at_parent in E.
  destruct (String.eqb p ""); [ discriminate E | ].
  destruct (Fs.components p) as [| a cs]; [ discriminate E | ].
  destruct (Fs.modify _ _ (disk w)) as [d1 |] eqn:Em; [ | discriminate E ].
  injection E as ->.
  exact (modify_grows _ _ (add_dir_grows _) _ _ _ _ Em Hf).
Qed.

(** Registering an address that an account file lists. *)
Lemma sound_register (w : world) (a0 v a2a' : pyval) :
  rindex_sound w ->
  Py.setitem (address_to_account w) a0 v = Ok a2a' ->
  (forall k, Py.to_key a0 = Ok k ->
             exists p c, Fs.file_at p c (disk w) /\ account_file (path w) p
                         /\ has_address c k) ->
  rindex_sound (set_address_to_account a2a' w).
Proof.
  intros H Hs Hk items k v' Ha Hi. cbn in Ha. subst a2a'.
  cbn [disk path set_address_to_account].
  destruct (address_to_account w) as [| | | | l | its] eqn:Ea; cbn in Hs;
    try discriminate Hs.
  - destruct (Py.to_key a0) as [k0 |]; [ | discriminate Hs ].
    destruct (Py.as_index k0); [ | discriminate Hs ].
    destruct (_ && _)%bool; discriminate Hs.
  - destruct (Py.to_key a0) as [k0 |] eqn:Ek; [ | discriminate Hs ].
    injection Hs as <-.
    destruct (dict_set_in _ _ _ _ _ Hi) as [[v0 G] | ->].
    + exact (H its k v0 Ea G).
    + exact (Hk k0 eq_refl).
Qed.

(** ** [reindex] leaves a sound index *)

Lemma try_inv {A : Type} (I : world -> Prop) (m : M A) (h : exn -> M A) (w : world) :
  I (snd (m w)) ->
  (forall e w', I w' -> I (snd (h e w'))) ->
  I (snd (try_except m h w)).
Proof.
  intros H Hh. unfold try_except. destruct (m w) as [[a | e] w']; cbn [snd] in *.
  - exact H.
  - apply Hh. exact H.
Qed.

Lemma sound_reindex_account (w w0 : world) (a : string * pyval) :
  from_account_file w (snd a) ->
  rindex_sound w0 /\ disk w0 = disk w /\ path w0 = path w ->
  let w1 := snd (Wallet.reindex_account a w0) in
  rindex_sound w1 /\ disk w1 = disk w /\ path w1 = path w.
Proof.
  intros [p [bom [j [Hf [Hacc Hl]]]]] H0. cbv zeta.
  unfold Wallet.reindex_account.
  apply (try_inv (fun w1 => rindex_sound w1 /\ disk w1 = disk w /\ path w1 = path w));
    [ | intros e w' Hw'; exact Hw' ].
  rewrite bind_lift.
  destruct (Py.getitem (snd a) (PStr "addresses")) as [addresses | e] eqn:Ea;
    [ | exact H0 ].
  rewrite bind_lift.
  destruct (Py.iter addresses) as [entries | e] eqn:Ei; [ | exact H0 ].
  apply (for_each_inv (fun w1 => rindex_sound w1 /\ disk w1 = disk w /\ path w1 = path w));
    [ | exact H0 ].
  intros address w1 Hin [Hs [Hd Hp]].
  rewrite bind_lift.
  destruct (Py.getitem address (PInt 0)) as [a0 | e] eqn:E0; [ | auto ].
  rewrite bind_gets, bind_lift.
  destruct (Py.setitem (address_to_account w1) a0 (PStr (fst a))) as [a2a' | e] eqn:Es;
    [ | auto ].
  cbn [modify snd]. split; [ | split; assumption ].
  apply (sound_register w1 a0 (PStr (fst a)) a2a' Hs Es).
  intros k Hk. exists p, (Doc bom j). rewrite Hd, Hp.
  split; [ exact Hf | ]. split; [ exact Hacc | ].
  exists bom, j, addresses, entries, address, a0, k.
  rewrite <- Hl. repeat split; try assumption. apply key_eqb_refl.
Qed.

Lemma sound_empty (w : world) : rindex_sound (set_address_to_account (PDict []) w).
Proof. intros items k v Ha Hi. cbn in Ha. injection Ha as <-. destruct Hi. Qed.

Lemma sound_reindex (w : world) : rindex_sound (snd (Wallet.reindex w)).
Proof.
  rewrite reindex_run. cbv zeta.
  set (w0 := set_address_to_account (PDict []) w).
  set (l := Wallet.yields (Fs.walk (path w) (disk w))).
  assert (H : let wl := snd (for_each l Wallet.reindex_account w0) in
              rindex_sound wl /\ disk wl = disk w /\ path wl = path w).
  { apply (for_each_inv
             (fun w1 => rindex_sound w1 /\ disk w1 = disk w /\ path w1 = path w)).
    - intros a w1 Ha Hw1. apply sound_reindex_account; [ | exact Hw1 ].
      apply yields_from_files. exact Ha.
    - split; [ apply sound_empty | split; reflexivity ]. }
  cbv zeta in H. destruct H as [Hs [Hd Hp]].
  set (wl := snd (for_each l Wallet.reindex_account w0)) in *.
  destruct (Fs.write (path w ++ "/rindex.json") _ (disk w)) as [d' | e] eqn:E;
    cbn [snd]; [ | exact Hs ].
  rewrite <- Hd, <- Hp in E. exact (sound_write_rindex wl _ d' Hs E).
Qed.

(** ** The file of an account *)

Lemma take_nonempty (name : string) : name <> "" -> Str.take 2 name <> "".
Proof. destruct name; [ congruence | discriminate ]. Qed.

Lemma append_nonempty (a b : string) : a <> "" -> (a ++ b)%string <> "".
Proof. destruct a; [ congruence | discriminate ]. Qed.

(** For a name without [/], the file [_get_account] works on is one name
    below its directory, and is an account file of the store. *)
Lemma get_paths_shape (p name : string) :
  Str.mem "/" name = false ->
  exists parent n,
    Wallet._get_account_paths p name = ((parent ++ "/" ++ n)%string, parent)
    /\ n <> "" /\ Str.mem "/" n = false
    /\ account_file p (Fs.components parent ++ [n]).
Proof.
  intros Hm. unfold Wallet._get_account_paths.
  destruct (String.eqb "" name || String.eqb "default" name) eqn:E.
  - exists p, "default.json". split; [ reflexivity | ].
    split; [ discriminate | ]. split; [ reflexivity | ].
    split; [ eexists; reflexivity | ].
    split; intros H; apply app_inv_head in H; discriminate H.
  - apply orb_false_elim in E as [E _].
    assert (Hne : name <> "") by (intros ->; discriminate E).
    exists (Wallet.shard_path p name), (name ++ ".json")%string.
    split; [ reflexivity | ].
    split; [ apply append_nonempty; exact Hne | ].
    split; [ rewrite mem_append, Hm; reflexivity | ].
    unfold Wallet.shard_path.
    rewrite (components_child p (Str.take 2 name) (take_nonempty name Hne)
               (mem_substring "/" name 2 Hm)).
    rewrite <- app_assoc. cbn [app].
    split; [ eexists; reflexivity | ].
    split; intros H; apply app_inv_head in H; discriminate H.
Qed.

Lemma save_paths_same (p name : string) :
  name <> "default" ->
  Wallet._save_account_paths p name = Wallet._get_account_paths p name.
Proof.
  intros Hne. unfold Wallet._save_account_paths, Wallet._get_account_paths.
  destruct (String.eqb_spec "default" name) as [E | _]; [ congruence | ].
  rewrite orb_false_r. reflexivity.
Qed.

(** ** Making a directory and the files *)

Lemma add_dir_find_back (n m : string) (es es' : listing) (x : node) :
  Fs.add_dir n es = Some es' -> Fs.find m es' = Some x ->
  Fs.find m es = Some x \/ x = Dir [].
Proof.
  unfold Fs.add_dir. destruct (Fs.find n es); [ discriminate | ].
  intros H. injection H as <-.
  induction es as [| [k y] r IH]; cbn.
  - destruct (String.eqb n m); [ | discriminate ].
    intros H. injection H as <-. right. reflexivity.
  - destruct (String.eqb k m); [ intros H; left; exact H | exact IH ].
Qed.

Lemma lookup_empty_dir (q : list string) (c : content) :
  Fs.lookup q [] <> Some (File c).
Proof. destruct q; discriminate. Qed.

Lemma modify_add_dir_lookup_back (cs : list string) (n : string) :
  forall q d d' c',
    Fs.modify cs (Fs.add_dir n) d = Some d' ->
    Fs.lookup q d' = Some (File c') ->
    Fs.lookup q d = Some (File c').
Proof.
  induction cs as [| m0 q0 IH]; intros q d d' c' H Hl.
  - cbn in H. destruct q as [| k q']; [ discriminate Hl | ].
    cbn [Fs.lookup] in *.
    destruct (Fs.find k d') as [x |] eqn:Ef; [ | discriminate Hl ].
    destruct (add_dir_find_back n k d d' x H Ef) as [G | ->].
    + rewrite G. exact Hl.
    + exfalso. exact (lookup_empty_dir q' c' Hl).
  - induction d as [| [m x] r IHd] in d', H, Hl |- *.
    + discriminate H.
    + rewrite modify_cons in H.
      destruct q as [| k q']; [ discriminate Hl | ].
      cbn [Fs.lookup Fs.find].
      destruct (String.eqb m m0) eqn:E.
      * destruct x as [c0 | sub]; [ discriminate H | ].
        destruct (Fs.modify q0 (Fs.add_dir n) sub) as [sub' |] eqn:Es; [ | discriminate H ].
        injection H as <-. cbn [Fs.lookup Fs.find] in Hl.
        destruct (String.eqb m k) eqn:Ek; [ | exact Hl ].
        exact (IH q' sub sub' c' Es Hl).
      * destruct (Fs.modify (m0 :: q0) (Fs.add_dir n) r) as [r' |] eqn:Er; [ | discriminate H ].
        injection H as <-. cbn [Fs.lookup Fs.find] in Hl.
        destruct (String.eqb m k) eqn:Ek; [ exact Hl | ].
        apply (IHd r' eq_refl). cbn [Fs.lookup]. exact Hl.
Qed.

Lemma read_lookup (f : string) (d : listing) (c : content) :
  Fs.read f d = Ok c <-> f <> "" /\ Fs.lookup (Fs.components f) d = Some (File c).
Proof.
  unfold Fs.read, Fs.stat. destruct (String.eqb_spec f "") as [-> | Hne].
  - split; [ discriminate | intros [H _]; congruence ].
  - destruct (Fs.lookup (Fs.components f) d) as [[c0 | es] |]; split;
      try discriminate; try (intros [_ H]; discriminate H).
    + intros H. injection H as ->. split; [ exact Hne | reflexivity ].
    + intros [_ H]. injection H as ->. reflexivity.
Qed.

(** [os.mkdir] neither hides nor brings a regular file. *)
Lemma mkdir_read (p f : string) (d d' : listing) (c : content) :
  Fs.mkdir p d = Ok d' -> (Fs.read f d' = Ok c <-> Fs.read f d = Ok c).
Proof.
  unfold Fs.mkdir, Fs.at_parent. destruct (String.eqb p ""); [ discriminate | ].
  destruct (Fs.components p) as [| a cs]; [ discriminate | ].
  destruct (Fs.modify _ _ d) as [d1 |] eqn:E; [ | discriminate ].
  intros H. injection H as ->. rewrite !read_lookup.
  split; intros [Hne Hl]; (split; [ exact Hne | ]).
  - exact (modify_add_dir_lookup_back _ _ _ _ _ _ E Hl).
  - exact (modify_add_dir_lookup _ _ _ _ _ _ E Hl).
Qed.

(** A write leaves every other regular file as it reads. *)
Lemma write_read_other (p n f : string) (c c' : content) (d d' : listing) :
  n <> "" -> Str.mem "/" n = false ->
  Fs.write (p ++ "/" ++ n) c d = Ok d' ->
  Fs.components f <> Fs.components p ++ [n] ->
  Fs.read f d = Ok c' -> Fs.read f d' = Ok c'.
Proof.
  intros Hne Hm H Hf. rewrite (write_child p n c d Hne Hm) in H.
  destruct (Fs.modify (Fs.components p) (Fs.put n c) d) as [d1 |] eqn:E;
    [ | discriminate H ].
  injection H as ->. rewrite !read_lookup. intros [Hn Hl]. split; [ exact Hn | ].
  exact (modify_put_lookup_other _ _ _ _ _ _ _ E Hf Hl).
Qed.

(** ** Steps of the methods that end well *)

Lemma json_dump_to_ok (v : pyval) (f : string) (w w' : world) (u : unit) :
  json_dump_to v f w = (Ok u, w') ->
  exists d', Fs.write f (Doc false (Json.dump v)) (disk w) = Ok d'
             /\ w' = set_disk d' w.
Proof.
  unfold json_dump_to. destruct (Fs.write f _ (disk w)) as [d' | e]; [ | discriminate ].
  intros H. injection H as _ <-. exists d'. split; reflexivity.
Qed.

Lemma when_mkdir_ok (b : bool) (p : string) (w w' : world) (u : unit) :
  when b (os_mkdir p) w = (Ok u, w') ->
  path w' = path w /\ address_to_account w' = address_to_account w
  /\ key w' = key w
  /\ forall f c, Fs.read f (disk w') = Ok c <-> Fs.read f (disk w) = Ok c.
Proof.
  destruct b; cbn [when].
  - unfold os_mkdir. destruct (Fs.mkdir p (disk w)) as [d' | e] eqn:E; [ | discriminate ].
    intros H. injection H as _ <-. repeat split; try reflexivity;
      apply (mkdir_read p f (disk w) d' c E).
  - intros H. injection H as _ <-. repeat split; auto.
Qed.

Lemma sound_when_mkdir (b : bool) (p : string) (w : world) :
  rindex_sound w -> rindex_sound (snd (when b (os_mkdir p) w)).
Proof.
  intros H. destruct b; cbn [when]; [ apply sound_mkdir; exact H | exact H ].
Qed.

Lemma check_ok (name : string) (w w' : world) (v : pyval) :
  Wallet._check_account_name name w = (Ok v, w') -> w' = w.
Proof. intros H. rewrite <- (check_pure name w), H. reflexivity. Qed.

(** Writing an account file: a key whose address the old content listed
    must find it in the new content. *)
Lemma sound_json_dump (w : world) (v : pyval) (parent n : string) :
  n <> "" -> Str.mem "/" n = false ->
  account_file (path w) (Fs.components parent ++ [n]) ->
  rindex_sound w ->
  (forall c k, Fs.read (parent ++ "/" ++ n) (disk w) = Ok c ->
               has_address c k -> has_address (Doc false (Json.dump v)) k) ->
  rindex_sound (snd (json_dump_to v (parent ++ "/" ++ n) w)).
Proof.
  intros Hne Hm Hacc H Hnew. unfold json_dump_to.
  rewrite (write_child parent n _ (disk w) Hne Hm).
  destruct (Fs.modify _ _ (disk w)) as [d' |] eqn:E; cbn [snd]; [ | exact H ].
  intros items k v' Ha Hi. cbn in Ha.
  destruct (H items k v' Ha Hi) as [p [c [Hf [Hp Hc]]]].
  cbn [disk path set_disk].
  destruct (modify_put_keeps _ _ _ _ _ _ _ E Hf) as [G | [G1 G2]].
  - exists p, c. split; [ exact G | split; [ exact Hp | exact Hc ] ].
  - exists (Fs.components parent ++ [n]), (Doc false (Json.dump v)).
    split; [ apply lookup_file_at; exact (modify_put_lookup _ _ _ _ _ E) | ].
    split; [ exact Hacc | ].
    apply (Hnew c k); [ | exact Hc ].
    apply read_lookup. split; [ apply join_nonempty | ].
    rewrite (components_child parent n Hne Hm). exact G2.
Qed.

Lemma bind_ok_inv {A B : Type} (m : M A) (k : A -> M B) (w w' : world) (b : B) :
  bind m k w = (Ok b, w') ->
  exists a w1, m w = (Ok a, w1) /\ k a w1 = (Ok b, w').
Proof.
  unfold bind. destruct (m w) as [[a | e] w1]; [ | discriminate ].
  intros H. exists a, w1. split; [ reflexivity | exact H ].
Qed.

Lemma load_from_pure (f : string) (w : world) : snd (json_load_from f w) = w.
Proof.
  unfold json_load_from. destruct (Fs.read f (disk w)) as [[t | [|] j] | e]; reflexivity.
Qed.

Lemma load_from_ok (f : string) (w w' : world) (v : pyval) :
  json_load_from f w = (Ok v, w') ->
  w' = w /\ exists j, Fs.read f (disk w) = Ok (Doc false j) /\ Json.load j = v.
Proof.
  unfold json_load_from.
  destruct (Fs.read f (disk w)) as [[t | [|] j] | e]; try discriminate.
  intros H. injection H as <- <-. split; [ reflexivity | ].
  exists j. split; reflexivity.
Qed.

Lemma save_rindex_ok (w w' : world) (u : unit) :
  Wallet._save_rindex w = (Ok u, w') ->
  exists d', Fs.write (path w ++ "/" ++ "rindex.json")
               (Doc false (Json.dump (address_to_account w))) (disk w) = Ok d'
             /\ w' = set_disk d' w.
Proof.
  rewrite save_rindex_run.
  change (path w ++ "/rindex.json")%string with (path w ++ "/" ++ "rindex.json")%string.
  destruct (Fs.write _ _ (disk w)) as [d' | e]; [ | discriminate ].
  intros H. injection H as _ <-. exists d'. split; reflexivity.
Qed.

Lemma write_file_at (p n : string) (c : content) (d d' : listing) :
  n <> "" -> Str.mem "/" n = false ->
  Fs.write (p ++ "/" ++ n) c d = Ok d' ->
  Fs.file_at (Fs.components p ++ [n]) c d'.
Proof.
  intros Hne Hm H. rewrite (write_child p n c d Hne Hm) in H.
  destruct (Fs.modify (Fs.components p) (Fs.put n c) d) as [d1 |] eqn:E;
    [ | discriminate H ].
  injection H as ->. apply lookup_file_at. exact (modify_put_lookup _ _ _ _ _ E).
Qed.

(** The record of a new account lists the address of its key. *)
Lemma has_address_fresh (k0 : Key) :
  has_address
    (Doc false (Json.dump (PDict [(KStr "encrypted", PBool false);
                                  (KStr "addresses", PList [KeyM.as_list k0])])))
    (KStr (address k0)).
Proof.
  exists false, (Json.dump (PDict [(KStr "encrypted", PBool false);
                                   (KStr "addresses", PList [KeyM.as_list k0])])),
    (PList [KeyM.as_list k0]), [KeyM.as_list k0], (KeyM.as_list k0),
    (PStr (address k0)), (KStr (address k0)).
  split; [ reflexivity | ]. split; [ reflexivity | ]. split; [ reflexivity | ].
  split; [ left; reflexivity | ]. split; [ reflexivity | ].
  split; [ reflexivity | apply key_eqb_refl ].
Qed.

(** ** [_get_account] leaves a sound index *)

Lemma sound_get_account (provider : nat -> keypair) (name : string) (w : world) :
  Str.mem "/" name = false ->
  rindex_sound w ->
  rindex_sound (snd (Wallet._get_account provider name w)).
Proof.
  intros Hm H. unfold Wallet._get_account.
  apply bind_inv; [ rewrite check_pure; exact H | ].
  intros v w' E _. rewrite (check_ok _ _ _ _ E). clear v w' E.
  rewrite bind_gets. cbv zeta.
  destruct (get_paths_shape (path w) name Hm) as [parent [n [Hp [Hne [Hmn Hacc]]]]].
  rewrite Hp. cbn [fst snd]. unfold os_path_isfile. rewrite bind_gets.
  destruct (Fs.isfile (parent ++ "/" ++ n) (disk w)) eqn:Ef; cbn [negb].
  - rewrite load_from_pure. exact H.
  - unfold Wallet.key_generate. rewrite bind_modify, bind_gets.
    set (wk := set_key (KeyM.generate provider (key w)) w).
    assert (Sk : rindex_sound wk) by (apply (sound_same w); auto).
    unfold os_path_exists. rewrite bind_gets.
    apply bind_inv; [ apply sound_when_mkdir; exact Sk | ].
    intros u wm Em Sm.
    destruct (when_mkdir_ok _ _ _ _ _ Em) as [Pm [Am [Km Rm]]].
    apply bind_inv.
    { apply sound_json_dump; try assumption.
      - rewrite Pm. exact Hacc.
      - intros c k Hr. apply Rm in Hr. apply read_isfile in Hr.
        change (disk wk) with (disk w) in Hr. congruence. }
    intros u2 wd Ed Sd.
    destruct (json_dump_to_ok _ _ _ _ _ Ed) as [d' [Hw ->]].
    rewrite bind_gets, bind_lift.
    destruct (Py.setitem _ _ _) as [a2a' | e] eqn:Es; [ | exact Sd ].
    rewrite bind_modify.
    apply bind_inv; [ | intros u3 w3 E3 S3; exact S3 ].
    apply sound_save_rindex. apply (sound_register _ _ _ _ Sd Es).
    intros k Hk. cbn in Hk. injection Hk as <-.
    exists (Fs.components parent ++ [n]). eexists.
    split; [ exact (write_file_at _ _ _ _ _ Hne Hmn Hw) | ].
    split; [ cbn [path set_disk]; rewrite Pm; exact Hacc | ].
    apply has_address_fresh.
Qed.

(** What [_get_account] returns is what its file then holds. *)
Lemma get_account_post
    (provider : nat -> keypair) (name : string) (w w' : world) (v : pyval) :
  Str.mem "/" name = false ->
  Wallet._get_account provider name w = (Ok v, w') ->
  path w' = path w
  /\ exists j,
      Fs.read (fst (Wallet._get_account_paths (path w) name)) (disk w')
      = Ok (Doc false j)
      /\ Json.load j = v.
Proof.
  intros Hm. unfold Wallet._get_account. intros H.
  apply bind_ok_inv in H as [v0 [w0 [E H]]]. rewrite (check_ok _ _ _ _ E) in H.
  clear v0 w0 E. rewrite bind_gets in H. cbv zeta in H.
  destruct (get_paths_shape (path w) name Hm) as [parent [n [Hp [Hne [Hmn Hacc]]]]].
  rewrite Hp in *. cbn [fst snd] in *. unfold os_path_isfile in H.
  rewrite bind_gets in H.
  destruct (Fs.isfile (parent ++ "/" ++ n) (disk w)) eqn:Ef; cbn [negb] in H.
  - apply load_from_ok in H as [-> [j [Hr Hl]]]. split; [ reflexivity | ].
    exists j. split; assumption.
  - unfold Wallet.key_generate in H. rewrite bind_modify, bind_gets in H.
    set (wk := set_key (KeyM.generate provider (key w)) w) in *.
    unfold os_path_exists in H. rewrite bind_gets in H.
    apply bind_ok_inv in H as [u [wm [Em H]]].
    destruct (when_mkdir_ok _ _ _ _ _ Em) as [Pm [Am [Km Rm]]].
    apply bind_ok_inv in H as [u2 [wd [Ed H]]].
    destruct (json_dump_to_ok _ _ _ _ _ Ed) as [d' [Hw ->]].
    rewrite bind_gets, bind_lift in H.
    destruct (Py.setitem _ _ _) as [a2a' | e] eqn:Es; [ | discriminate H ].
    rewrite bind_modify in H.
    apply bind_ok_inv in H as [u3 [w3 [E3 H]]].
    destruct (save_rindex_ok _ _ _ E3) as [d2 [Hw2 ->]].
    cbn [ret] in H. injection H as <- <-.
    split; [ exact Pm | ].
    match goal with |- exists j, _ /\ Json.load j = ?r => exists (Json.dump r) end.
    split; [ | reflexivity ].
    cbn [disk set_disk].
    apply (write_read_other _ _ _ _ _ _ _ (ltac:(discriminate) : "rindex.json" <> "")
             eq_refl Hw2).
    + rewrite (components_child parent n Hne Hmn).
      cbn [path set_disk set_address_to_account]. rewrite Pm.
      destruct Hacc as [_ [_ Hr]]. exact Hr.
    + exact (read_after_write _ _ _ _ _ Hne Hmn Hw).
Qed.

(** ** Appending an entry to a stored record *)

Lemma appended_record (j : json) (items : list (pykey * pyval))
    (l0 : list pyval) (e : pyval) :
  Json.load j = PDict items ->
  Py.dict_get items (KStr "addresses") = Some (PList l0) ->
  loaded e ->
  let new := PDict (Py.dict_set items (KStr "addresses") (PList (l0 ++ [e]))) in
  Json.load (Json.dump new) = new
  /\ Py.getitem new (PStr "addresses") = Ok (PList (l0 ++ [e])).
Proof.
  intros Hl Hg He. cbv zeta. split.
  - apply load_dump. assert (L := load_loaded j). rewrite Hl in L.
    inversion L as [| | | | | items' Hk Hv Hd]; subst.
    constructor.
    + apply dict_set_keys; [ exact Hk | exists "addresses"; reflexivity ].
    + apply dict_set_values; [ exact Hv | ].
      constructor. apply Forall_app. split; [ | constructor; [ exact He | constructor ] ].
      destruct (dict_get_in _ _ _ Hg) as [k' Hin].
      rewrite Forall_forall in Hv. specialize (Hv _ Hin). cbn in Hv.
      inversion Hv; assumption.
    + apply dict_set_distinct. exact Hd.
  - cbn. rewrite dict_get_set_same. reflexivity.
Qed.

Lemma has_address_kept (bom : bool) (j : json) (items : list (pykey * pyval))
    (l0 : list pyval) (e : pyval) (k : pykey) :
  Json.load j = PDict items ->
  Py.dict_get items (KStr "addresses") = Some (PList l0) ->
  loaded e ->
  has_address (Doc bom j) k ->
  has_address
    (Doc false (Json.dump (PDict (Py.dict_set items (KStr "addresses")
                                    (PList (l0 ++ [e])))))) k.
Proof.
  intros Hl Hg He [bom' [j' [l [entries [x [a0 [k' H]]]]]]].
  destruct H as [Hc [Hga [Hit [Hin [Hx [Hk Hkk]]]]]].
  injection Hc as _ <-. rewrite Hl in Hga. cbn in Hga. rewrite Hg in Hga.
  injection Hga as <-. cbn in Hit. injection Hit as <-.
  destruct (appended_record j items l0 e Hl Hg He) as [R G].
  eexists false, _, _, (l0 ++ [e]), x, a0, k'.
  split; [ reflexivity | ]. rewrite R. split; [ exact G | ].
  split; [ reflexivity | ]. split; [ apply in_or_app; left; exact Hin | ].
  repeat split; assumption.
Qed.

Lemma has_address_new (j : json) (items : list (pykey * pyval))
    (l0 : list pyval) (k0 : Key) :
  Json.load j = PDict items ->
  Py.dict_get items (KStr "addresses") = Some (PList l0) ->
  has_address
    (Doc false (Json.dump (PDict (Py.dict_set items (KStr "addresses")
                                    (PList (l0 ++ [KeyM.as_list k0]))))))
    (KStr (address k0)).
Proof.
  intros Hl Hg.
  assert (He : loaded (KeyM.as_list k0))
    by (repeat constructor).
  destruct (appended_record j items l0 _ Hl Hg He) as [R G].
  eexists false, _, _, (l0 ++ [KeyM.as_list k0]), (KeyM.as_list k0),
    (PStr (address k0)), (KStr (address k0)).
  split; [ reflexivity | ]. rewrite R. split; [ exact G | ].
  split; [ reflexivity | ].
  split; [ apply in_or_app; right; left; reflexivity | ].
  split; [ reflexivity | ]. split; [ reflexivity | apply key_eqb_refl ].
Qed.

(** ** [_save_account] *)

Lemma sound_save_account (v : pyval) (name : string) (w : world) (parent n : string) :
  Wallet._save_account_paths (path w) name = ((parent ++ "/" ++ n)%string, parent) ->
  n <> "" -> Str.mem "/" n = false ->
  account_file (path w) (Fs.components parent ++ [n]) ->
  rindex_sound w ->
  (forall c k, Fs.read (parent ++ "/" ++ n) (disk w) = Ok c ->
               has_address c k -> has_address (Doc false (Json.dump v)) k) ->
  rindex_sound (snd (Wallet._save_account v name w)).
Proof.
  intros Hp Hne Hmn Hacc H Hnew. unfold Wallet._save_account.
  apply bind_inv; [ rewrite check_pure; exact H | ].
  intros v0 w' E _. rewrite (check_ok _ _ _ _ E). clear v0 w' E.
  rewrite bind_gets. cbv zeta. rewrite Hp. cbn [fst snd].
  unfold os_path_exists. rewrite bind_gets.
  apply bind_inv; [ apply sound_when_mkdir; exact H | ].
  intros u wm Em Sm.
  destruct (when_mkdir_ok _ _ _ _ _ Em) as [Pm [Am [Km Rm]]].
  apply bind_inv; [ | intros u2 w2 _ S2; exact S2 ].
  apply sound_json_dump; try assumption.
  - rewrite Pm. exact Hacc.
  - intros c k Hr. apply Rm in Hr. exact (Hnew c k Hr).
Qed.

Lemma save_account_ok (v : pyval) (name : string) (w w' : world) (b : bool)
    (parent n : string) :
  Wallet._save_account_paths (path w) name = ((parent ++ "/" ++ n)%string, parent) ->
  n <> "" -> Str.mem "/" n = false ->
  Wallet._save_account v name w = (Ok b, w') ->
  path w' = path w /\ address_to_account w' = address_to_account w
  /\ key w' = key w
  /\ Fs.file_at (Fs.components parent ++ [n]) (Doc false (Json.dump v)) (disk w')
  /\ Fs.read (parent ++ "/" ++ n) (disk w') = Ok (Doc false (Json.dump v)).
Proof.
  intros Hp Hne Hmn. unfold Wallet._save_account. intros H.
  apply bind_ok_inv in H as [v0 [w0 [E H]]]. rewrite (check_ok _ _ _ _ E) in H.
  clear v0 w0 E. rewrite bind_gets in H. cbv zeta in H. rewrite Hp in H.
  cbn [fst snd] in H. unfold os_path_exists in H. rewrite bind_gets in H.
  apply bind_ok_inv in H as [u [wm [Em H]]].
  destruct (when_mkdir_ok _ _ _ _ _ Em) as [Pm [Am [Km Rm]]].
  apply bind_ok_inv in H as [u2 [wd [Ed H]]].
  destruct (json_dump_to_ok _ _ _ _ _ Ed) as [d' [Hw ->]].
  cbn [ret] in H. injection H as _ <-.
  repeat split; try assumption.
  - exact (write_file_at _ _ _ _ _ Hne Hmn Hw).
  - exact (read_after_write _ _ _ _ _ Hne Hmn Hw).
Qed.

(** ** [get_new_address] leaves a sound index *)

Lemma sound_get_new_address (provider : nat -> keypair) (name : string) (w : world) :
  Str.mem "/" name = false ->
  name <> "default" ->
  rindex_sound w ->
  rindex_sound (snd (Wallet.get_new_address provider name w)).
Proof.
  intros Hm Hnd H. unfold Wallet.get_new_address.
  apply bind_inv; [ apply sound_get_account; assumption | ].
  intros account_dict w1 E1 S1.
  destruct (get_account_post provider name w w1 account_dict Hm E1) as [P1 [j [Hr Hl]]].
  destruct (get_paths_shape (path w) name Hm) as [parent [n [Hp [Hne [Hmn Hacc]]]]].
  rewrite Hp in Hr. cbn [fst] in Hr.
  unfold Wallet.key_generate. rewrite bind_modify, bind_gets.
  set (wk := set_key (KeyM.generate provider (key w1)) w1).
  assert (Sk : rindex_sound wk) by (apply (sound_same w1); auto).
  rewrite bind_lift.
  destruct (Py.getitem account_dict (PStr "addresses")) as [l | e] eqn:El; [ | exact Sk ].
  rewrite bind_lift.
  destruct (Py.append l (KeyM.as_list (key wk))) as [l' | e] eqn:Eap; [ | exact Sk ].
  destruct l as [| | | | l0 |]; try discriminate Eap. cbn in Eap. injection Eap as <-.
  rewrite bind_lift.
  destruct (Py.setitem account_dict (PStr "addresses") _) as [ad' | e] eqn:Eset;
    [ | exact Sk ].
  destruct account_dict as [| | | | lst | items]; try discriminate Eset;
    try discriminate El.
  cbn in Eset. injection Eset as <-. cbn in El.
  destruct (Py.dict_get items (KStr "addresses")) as [x |] eqn:Eg; [ | discriminate El ].
  injection El as ->.
  assert (Hps : Wallet._save_account_paths (path wk) name
                = ((parent ++ "/" ++ n)%string, parent)).
  { rewrite (save_paths_same _ name Hnd). change (path wk) with (path w1).
    rewrite P1. exact Hp. }
  assert (Hacck : account_file (path wk) (Fs.components parent ++ [n])).
  { change (path wk) with (path w1). rewrite P1. exact Hacc. }
  apply bind_inv.
  { apply (sound_save_account _ name wk parent n Hps Hne Hmn Hacck Sk).
    intros c k Hrc Hc. change (disk wk) with (disk w1) in Hrc.
    rewrite Hr in Hrc. injection Hrc as <-.
    apply (has_address_kept false j items l0 _ k Hl Eg); [ | exact Hc ].
    repeat constructor. }
  intros b w2 E2 S2.
  destruct (save_account_ok _ name wk w2 b parent n Hps Hne Hmn E2)
    as [P2 [A2 [K2 [F2 _]]]].
  rewrite bind_gets, bind_lift.
  destruct (Py.setitem (address_to_account w2) _ _) as [a2a' | e] eqn:Es; [ | exact S2 ].
  rewrite bind_modify.
  apply bind_inv; [ | intros u3 w3 _ S3; exact S3 ].
  apply sound_save_rindex. apply (sound_register _ _ _ _ S2 Es).
  intros k Hk. cbn in Hk. injection Hk as <-.
  exists (Fs.components parent ++ [n]). eexists.
  split; [ exact F2 | ]. split; [ rewrite P2; exact Hacck | ].
  exact (has_address_new j items l0 (key wk) Hl Eg).
Qed.

(** ** When [get_new_address] returns *)

Lemma lookup_snoc (cs : list string) (n : string) :
  forall d,
    Fs.lookup (cs ++ [n]) d
    = match Fs.lookup cs d with
      | Some (Dir es) => Fs.find n es
      | _ => None
      end.
Proof.
  induction cs as [| m q IH]; intros d.
  - cbn. destruct (Fs.find n d) as [[c | sub] |]; reflexivity.
  - cbn [app Fs.lookup]. destruct (Fs.find m d) as [[c | sub] |]; [ | apply IH | reflexivity ].
    destruct q; reflexivity.
Qed.

Lemma put_succeeds (n : string) (c : content) (es : listing) :
  (forall sub, Fs.find n es <> Some (Dir sub)) ->
  exists es', Fs.put n c es = Some es'.
Proof.
  induction es as [| [m x] r IH]; cbn; intros H.
  - eexists. reflexivity.
  - destruct (String.eqb m n).
    + destruct x as [c0 | sub]; [ eexists; reflexivity | ].
      exfalso. exact (H sub eq_refl).
    + destruct (IH H) as [r' ->]. eexists. reflexivity.
Qed.

Lemma write_ok (p n : string) (c : content) (d es : listing) :
  n <> "" -> Str.mem "/" n = false ->
  Fs.lookup (Fs.components p) d = Some (Dir es) ->
  (forall sub, Fs.find n es <> Some (Dir sub)) ->
  exists d', Fs.write (p ++ "/" ++ n) c d = Ok d'.
Proof.
  intros Hne Hm Hl Hf. rewrite (write_child p n c d Hne Hm).
  destruct (put_succeeds n c es Hf) as [es' Hp].
  destruct (modify_at _ _ d es es' Hl Hp) as [d' ->]. exists d'. reflexivity.
Qed.

Lemma read_child (p n : string) (d : listing) (c : content) :
  n <> "" -> Str.mem "/" n = false ->
  Fs.read (p ++ "/" ++ n) d = Ok c ->
  exists es, Fs.lookup (Fs.components p) d = Some (Dir es)
             /\ Fs.find n es = Some (File c).
Proof.
  intros Hne Hm H. apply read_lookup in H as [_ H].
  rewrite (components_child p n Hne Hm), lookup_snoc in H.
  destruct (Fs.lookup (Fs.components p) d) as [[c0 | es] |]; try discriminate H.
  exists es. split; [ reflexivity | exact H ].
Qed.

(** An existing regular file can be written over. *)
Lemma write_over (p n : string) (c c0 : content) (d : listing) :
  n <> "" -> Str.mem "/" n = false ->
  Fs.read (p ++ "/" ++ n) d = Ok c0 ->
  exists d', Fs.write (p ++ "/" ++ n) c d = Ok d'.
Proof.
  intros Hne Hm H. destruct (read_child p n d c0 Hne Hm H) as [es [Hl Hf]].
  apply (write_ok p n c d es Hne Hm Hl). intros sub E. congruence.
Qed.

Lemma exists_parent (p n : string) (d : listing) (c : content) :
  n <> "" -> Str.mem "/" n = false -> p <> "" ->
  Fs.read (p ++ "/" ++ n) d = Ok c -> Fs.exists_ p d = true.
Proof.
  intros Hne Hm Hp H. destruct (read_child p n d c Hne Hm H) as [es [Hl _]].
  unfold Fs.exists_, Fs.stat. destruct (String.eqb_spec p ""); [ contradiction | ].
  rewrite Hl. reflexivity.
Qed.

Lemma find_app_new (n : string) (es : listing) (x : node) :
  Fs.find n es = None -> Fs.find n (es ++ [(n, x)]) = Some x.
Proof.
  induction es as [| [k y] r IH]; cbn.
  - intros _. rewrite String.eqb_refl. reflexivity.
  - destruct (String.eqb k n); [ discriminate | exact IH ].
Qed.

(** A missing directory below an existing one can be made, and is empty. *)
Lemma mkdir_ok (p n : string) (d es : listing) :
  n <> "" -> Str.mem "/" n = false ->
  Fs.lookup (Fs.components p) d = Some (Dir es) ->
  Fs.find n es = None ->
  exists d', Fs.mkdir (p ++ "/" ++ n) d = Ok d'
             /\ Fs.lookup (Fs.components p ++ [n]) d' = Some (Dir []).
Proof.
  intros Hne Hm Hl Hf. rewrite (mkdir_child p n d Hne Hm).
  assert (Ha : Fs.add_dir n es = Some (es ++ [(n, Dir [])]))
    by (unfold Fs.add_dir; rewrite Hf; reflexivity).
  destruct (modify_at _ _ d es _ Hl Ha) as [d' E]. rewrite E.
  exists d'. split; [ reflexivity | ].
  destruct (modify_lookup _ _ d d' E) as [es0 [es1 [Hl0 [Ha0 Hl1]]]].
  rewrite Hl in Hl0. injection Hl0 as <-. rewrite Ha in Ha0. injection Ha0 as <-.
  rewrite lookup_snoc, Hl1. apply find_app_new. exact Hf.
Qed.

Lemma plain_nonempty (name : string) : plain_name name -> name <> "".
Proof. intros [[H _] _] ->. cbn in H. lia. Qed.

(** For a plain name other than [default], both methods work on the shard
    file. *)
Lemma plain_paths (p name : string) :
  plain_name name -> name <> "default" ->
  Wallet._get_account_paths p name
  = (Wallet.shard_fname p name, Wallet.shard_path p name)
  /\ Wallet._save_account_paths p name
     = (Wallet.shard_fname p name, Wallet.shard_path p name).
Proof.
  intros Hpl Hnd. assert (Hne := plain_nonempty name Hpl).
  unfold Wallet._get_account_paths, Wallet._save_account_paths.
  destruct (String.eqb_spec "" name) as [E | _]; [ congruence | ].
  destruct (String.eqb_spec "default" name) as [E | _]; [ congruence | ].
  split; reflexivity.
Qed.

Lemma json_dump_to_run (v : pyval) (f : string) (w : world) (d' : listing) :
  Fs.write f (Doc false (Json.dump v)) (disk w) = Ok d' ->
  json_dump_to v f w = (Ok tt, set_disk d' w).
Proof. intros H. unfold json_dump_to. rewrite H. reflexivity. Qed.

Lemma save_rindex_over (w : world) (c : content) :
  Fs.read (path w ++ "/rindex.json") (disk w) = Ok c ->
  exists d', Wallet._save_rindex w = (Ok tt, set_disk d' w)
             /\ exists c', Fs.read (path w ++ "/rindex.json") d' = Ok c'.
Proof.
  intros H. rewrite save_rindex_run.
  change (path w ++ "/rindex.json")%string with (path w ++ "/" ++ "rindex.json")%string in *.
  destruct (write_over (path w) "rindex.json"
              (Doc false (Json.dump (address_to_account w))) c (disk w)
              (ltac:(discriminate) : "rindex.json" <> "") eq_refl H) as [d' E].
  rewrite E. exists d'. split; [ reflexivity | ].
  eexists.
  exact (read_after_write _ _ _ _ _ (ltac:(discriminate) : "rindex.json" <> "") eq_refl E).
Qed.

Lemma not_exists_not_file (p n : string) (d : listing) :
  n <> "" -> Str.mem "/" n = false -> p <> "" ->
  Fs.exists_ p d = false -> Fs.isfile (p ++ "/" ++ n) d = false.
Proof.
  intros Hne Hm Hp He. destruct (Fs.isfile (p ++ "/" ++ n) d) eqn:E; [ | reflexivity ].
  unfold Fs.isfile in E.
  destruct (Fs.stat (p ++ "/" ++ n) d) as [[c | es] |] eqn:Es; try discriminate E.
  assert (R : Fs.read (p ++ "/" ++ n) d = Ok c) by (unfold Fs.read; rewrite Es; reflexivity).
  rewrite (exists_parent p n d c Hne Hm Hp R) in He. discriminate He.
Qed.

Lemma shard_names (name : string) :
  plain_name name ->
  (Str.take 2 name <> "" /\ Str.mem "/" (Str.take 2 name) = false)
  /\ ((name ++ ".json")%string <> "" /\ Str.mem "/" (name ++ ".json") = false).
Proof.
  intros Hpl. assert (Hne := plain_nonempty name Hpl).
  destruct Hpl as [_ [_ Hm]]. repeat split.
  - apply take_nonempty. exact Hne.
  - apply mem_substring. exact Hm.
  - apply append_nonempty. exact Hne.
  - rewrite mem_append, Hm. reflexivity.
Qed.

Lemma shard_file_not_rindex (p name : string) :
  plain_name name ->
  Fs.components (Wallet.shard_fname p name) <> Fs.components p ++ ["rindex.json"].
Proof.
  intros Hpl. destruct (shard_names name Hpl) as [[Ha Hma] [Hn Hmn]].
  unfold Wallet.shard_fname, Wallet.shard_path.
  rewrite (components_child _ _ Hn Hmn), (components_child _ _ Ha Hma), <- app_assoc.
  intros E. apply app_inv_head in E. discriminate E.
Qed.

(** On a store in order, [_get_account] returns the account's record and
    leaves the store in order, the account stored. *)
Lemma get_account_returns (provider : nat -> keypair) (name : string) (w : world) :
  plain_name name -> name <> "default" ->
  store_in_order w name ->
  exists w1 j items l0,
    Wallet._get_account provider name w = (Ok (Json.load j), w1)
    /\ path w1 = path w
    /\ (exists a2a, address_to_account w1 = PDict a2a)
    /\ (exists c, Fs.read (path w ++ "/rindex.json") (disk w1) = Ok c)
    /\ Fs.read (Wallet.shard_fname (path w) name) (disk w1) = Ok (Doc false j)
    /\ Json.load j = PDict items
    /\ Py.dict_get items (KStr "addresses") = Some (PList l0).
Proof.
  intros Hpl Hnd [[a2a Ha] [[cr Hr] Hacct]].
  destruct (plain_paths (path w) name Hpl Hnd) as [Hg _].
  destruct (shard_names name Hpl) as [[Had Hmad] [Hn Hmn]].
  destruct Hacct as [Hfresh | [j [items [l0 [Hf [Hl Hd]]]]]].
  - (* a new account *)
    change (path w ++ "/rindex.json")%string
      with (path w ++ "/" ++ "rindex.json")%string in Hr.
    destruct (read_child (path w) "rindex.json" (disk w) cr
                (ltac:(discriminate) : "rindex.json" <> "") eq_refl Hr)
      as [es [Hroot _]].
    assert (Hnone : Fs.find (Str.take 2 name) es = None).
    { unfold Fs.exists_, Wallet.shard_path in Hfresh.
      rewrite (stat_child _ _ (disk w) Had Hmad), lookup_snoc, Hroot in Hfresh.
      destruct (Fs.find (Str.take 2 name) es); [ discriminate Hfresh | reflexivity ]. }
    destruct (mkdir_ok (path w) (Str.take 2 name) (disk w) es Had Hmad Hroot Hnone)
      as [d1 [Hmk Hsh]].
    fold (Wallet.shard_path (path w) name) in Hmk.
    assert (Hsh' : Fs.lookup (Fs.components (Wallet.shard_path (path w) name)) d1
                   = Some (Dir [])).
    { unfold Wallet.shard_path. rewrite (components_child _ _ Had Hmad). exact Hsh. }
    set (wk := set_key (KeyM.generate provider (key w)) w).
    set (res := PDict [(KStr "encrypted", PBool false);
                       (KStr "addresses", PList [KeyM.as_list (key wk)])]).
    destruct (write_ok (Wallet.shard_path (path w) name) (name ++ ".json")
                (Doc false (Json.dump res)) d1 [] Hn Hmn Hsh'
                ltac:(intros sub E; discriminate E)) as [d2 Hw2].
    fold (Wallet.shard_fname (path w) name) in Hw2.
    assert (Hr1 : Fs.read (path w ++ "/" ++ "rindex.json") d1 = Ok cr)
      by (apply (mkdir_read _ _ _ _ _ Hmk); exact Hr).
    assert (Hr2 : Fs.read (path w ++ "/" ++ "rindex.json") d2 = Ok cr).
    { unfold Wallet.shard_fname in Hw2.
      apply (write_read_other _ _ _ _ _ _ _ Hn Hmn Hw2); [ | exact Hr1 ].
      intros E. apply (shard_file_not_rindex (path w) name Hpl).
      unfold Wallet.shard_fname. rewrite (components_child _ _ Hn Hmn), <- E.
      apply (components_child (path w) "rindex.json"); [ discriminate | reflexivity ]. }
    set (a2a' := PDict (Py.dict_set a2a (KStr (address (key wk))) (PStr name))).
    set (wr := set_address_to_account a2a' (set_disk d2 (set_disk d1 wk))).
    destruct (save_rindex_over wr cr Hr2) as [d3 [Hsv [c3 Hr3]]].
    exists (set_disk d3 wr), (Json.dump res),
      [(KStr "encrypted", PBool false);
       (KStr "addresses", PList [KeyM.as_list (key wk)])],
      [KeyM.as_list (key wk)].
    split; [ | split; [ reflexivity | split; [ exists (Py.dict_set a2a (KStr (address (key wk))) (PStr name)); reflexivity | ] ] ].
    + unfold Wallet._get_account.
      destruct (check_accepted name w (plain_accepted name Hpl)) as [v Hv].
      rewrite (bind_ok _ Hv), bind_gets. cbv zeta. rewrite Hg. cbn [fst snd].
      unfold os_path_isfile. rewrite bind_gets.
      unfold Wallet.shard_fname at 1.
      rewrite (not_exists_not_file (Wallet.shard_path (path w) name) _ (disk w)
                 Hn Hmn (join_nonempty _ _) Hfresh).
      cbn [negb]. unfold Wallet.key_generate. rewrite bind_modify, bind_gets.
      fold wk. unfold os_path_exists. rewrite bind_gets.
      change (disk wk) with (disk w). rewrite Hfresh. cbn [negb when].
      unfold bind at 1. unfold os_mkdir. change (disk wk) with (disk w).
      rewrite Hmk.
      rewrite (bind_ok _ (json_dump_to_run res _ (set_disk d1 wk) d2 Hw2)).
      rewrite bind_gets, bind_lift.
      change (address_to_account (set_disk d2 (set_disk d1 wk)))
        with (address_to_account w).
      rewrite Ha. cbn [Py.setitem Py.to_key]. rewrite bind_modify.
      fold a2a'. fold wr. rewrite (bind_ok _ Hsv). reflexivity.
    + split; [ exists c3; exact Hr3 | ].
      split; [ | split; reflexivity ].
      cbn [disk set_disk].
      destruct (save_rindex_ok wr (set_disk d3 wr) tt Hsv) as [d3' [Hw3 E3]].
      assert (D : d3' = d3) by (injection E3; congruence). subst d3'.
      unfold Wallet.shard_fname.
      apply (write_read_other _ _ _ _ _ _ _
               (ltac:(discriminate) : "rindex.json" <> "") eq_refl Hw3).
      * exact (shard_file_not_rindex (path w) name Hpl).
      * exact (read_after_write _ _ _ _ _ Hn Hmn Hw2).
  - (* an account already stored *)
    exists w, j, items, l0.
    split; [ | split; [ reflexivity | split; [ exists a2a; exact Ha | ] ] ].
    + apply (get_account_stored provider name w j (plain_accepted name Hpl)).
      rewrite Hg. exact Hf.
    + split; [ exists cr; exact Hr | ]. split; [ exact Hf | split; assumption ].
Qed.

(** On a store in order, [get_new_address] returns. *)
Lemma get_new_address_returns (provider : nat -> keypair) (name : string) (w : world) :
  plain_name name -> name <> "default" ->
  store_in_order w name ->
  exists a w', Wallet.get_new_address provider name w = (Ok a, w').
Proof.
  intros Hpl Hnd Hord.
  destruct (get_account_returns provider name w Hpl Hnd Hord)
    as [w1 [j [items [l0 [E1 [P1 [[a2a Ha] [[cr Hr] [Hf [Hl Hd]]]]]]]]]].
  destruct (plain_paths (path w) name Hpl Hnd) as [_ Hs].
  destruct (shard_names name Hpl) as [[Had Hmad] [Hn Hmn]].
  unfold Wallet.get_new_address. rewrite (bind_ok _ E1).
  unfold Wallet.key_generate. rewrite bind_modify, bind_gets.
  set (wk := set_key (KeyM.generate provider (key w1)) w1).
  rewrite Hl. rewrite bind_lift. cbn [Py.getitem Py.to_key]. rewrite Hd.
  rewrite bind_lift. cbn [Py.append]. rewrite bind_lift. cbn [Py.setitem Py.to_key].
  set (ad' := PDict (Py.dict_set items (KStr "addresses")
                       (PList (l0 ++ [KeyM.as_list (key wk)])))).
  unfold Wallet.shard_fname in Hf.
  destruct (write_over (Wallet.shard_path (path w) name) (name ++ ".json")
              (Doc false (Json.dump ad')) _ (disk w1) Hn Hmn Hf) as [d4 Hw4].
  assert (Esave : Wallet._save_account ad' name wk = (Ok true, set_disk d4 wk)).
  { unfold Wallet._save_account.
    destruct (check_accepted name wk (plain_accepted name Hpl)) as [v Hv].
    rewrite (bind_ok _ Hv), bind_gets. cbv zeta.
    change (path wk) with (path w1). rewrite P1, Hs. cbn [fst snd].
    unfold os_path_exists. rewrite bind_gets. change (disk wk) with (disk w1).
    rewrite (exists_parent (Wallet.shard_path (path w) name) _ (disk w1) _
               Hn Hmn (join_nonempty _ _) Hf).
    cbn [negb when]. rewrite bind_ret.
    unfold Wallet.shard_fname.
    rewrite (bind_ok _ (json_dump_to_run ad' _ wk d4 Hw4)). reflexivity. }
  rewrite (bind_ok _ Esave). rewrite bind_gets, bind_lift.
  change (address_to_account (set_disk d4 wk)) with (address_to_account w1).
  rewrite Ha. cbn [Py.setitem Py.to_key]. rewrite bind_modify.
  set (wr := set_address_to_account _ (set_disk d4 wk)).
  assert (Hr4 : Fs.read (path wr ++ "/rindex.json") (disk wr) = Ok cr).
  { change (path wr) with (path w1). change (disk wr) with d4. rewrite P1.
    change (path w ++ "/rindex.json")%string
      with (path w ++ "/" ++ "rindex.json")%string in *.
    apply (write_read_other _ _ _ _ _ _ _ Hn Hmn Hw4); [ | exact Hr ].
    intros E. apply (shard_file_not_rindex (path w) name Hpl).
    unfold Wallet.shard_fname. rewrite (components_child _ _ Hn Hmn), <- E.
    apply (components_child (path w) "rindex.json"); [ discriminate | reflexivity ]. }
  destruct (save_rindex_over wr cr Hr4) as [d5 [Hsv _]].
  rewrite (bind_ok _ Hsv). eexists. eexists. reflexivity.
Qed.

(** ** The reverse index across the operations *)

Lemma demo_store_sound :
  rindex_sound (Demo.wallet Demo.one_default (PDict [(KStr "A", PStr "")])).
Proof.
  intros items k v Ha Hi. cbn in Ha. injection Ha as <-.
  destruct Hi as [Hi | []]. injection Hi as <- <-.
  exists ["w"; "default.json"], (Demo.record [Demo.entry "A" "PRIV" "PUB"]).
  split; [ | split ].
  - cbn. exists [("index.json", File Demo.index_doc);
                 ("rindex.json", File (Doc false (JObj [("A", JStr "")])));
                 ("default.json", File (Demo.record [Demo.entry "A" "PRIV" "PUB"]))].
    split; [ left; reflexivity | right; right; left; reflexivity ].
  - split; [ exists ["default.json"]; reflexivity | ].
    split; intros E; vm_compute in E; discriminate E.
  - exists false, (JObj [("encrypted", JBool false);
                         ("addresses", JArr [Demo.entry "A" "PRIV" "PUB"])]),
      (PList [PList [PStr "A"; PStr "PRIV"; PStr "PUB"]]),
      [PList [PStr "A"; PStr "PRIV"; PStr "PUB"]],
      (PList [PStr "A"; PStr "PRIV"; PStr "PUB"]), (PStr "A"), (KStr "A").
    repeat split. left. reflexivity.
Qed.

(** C7, the claim as stated fails: on an existing, empty store directory
    with an empty (hence sound) reverse index, [_get_account "//rindex"]
    completes; the file it derives from the name is [w/rindex.json] itself,
    which [_save_rindex] then overwrites, so the address it registered is in
    no account file. *)
Lemma slash_name_breaks_soundness :
  rindex_sound (Demo.wallet Demo.empty_dir (PDict []))
  /\ fst (Wallet._get_account Demo.provider "//rindex"
            (Demo.wallet Demo.empty_dir (PDict [])))
     = Ok (PDict [(KStr "encrypted", PBool false);
                  (KStr "addresses",
                   PList [PList [PStr "ADDR0"; PStr "PRIV0"; PStr "PUB0"]])])
  /\ address_to_account
       (snd (Wallet._get_account Demo.provider "//rindex"
               (Demo.wallet Demo.empty_dir (PDict []))))
     = PDict [(KStr "ADDR0", PStr "//rindex")]
  /\ ~ rindex_sound
         (snd (Wallet._get_account Demo.provider "//rindex"
                 (Demo.wallet Demo.empty_dir (PDict [])))).
Proof.
  split; [ | split; [ | split ] ].
  - intros items k v Ha Hi. cbn in Ha. injection Ha as <-. destruct Hi.
  - reflexivity.
  - reflexivity.
  - intros H.
    destruct (H [(KStr "ADDR0", PStr "//rindex")] (KStr "ADDR0") (PStr "//rindex")
                eq_refl (or_introl eq_refl)) as [p [c [Hf [[_ [_ Hr]] _]]]].
    assert (D : disk (snd (Wallet._get_account Demo.provider "//rindex"
                             (Demo.wallet Demo.empty_dir (PDict []))))
                = [("w", Dir [("rindex.json",
                               File (Doc false (JObj [("ADDR0", JStr "//rindex")])))])])
      by reflexivity.
    rewrite D in Hf.
    assert (P : path (snd (Wallet._get_account Demo.provider "//rindex"
                             (Demo.wallet Demo.empty_dir (PDict [])))) = "w")
      by reflexivity.
    rewrite P in Hr. apply Hr. clear Hr H D P.
    destruct p as [| a [| b [| b2 q]]].
    + destruct Hf.
    + cbn in Hf. destruct Hf as [Hf | []]. discriminate Hf.
    + cbn in Hf. destruct Hf as [sub [[Hs | []] Hb]].
      injection Hs as <- <-. destruct Hb as [Hb | []]. injection Hb as <- _.
      reflexivity.
    + apply file_at_deep in Hf as [sub [[Hs | []] Hb]].
      injection Hs as <- <-.
      apply file_at_deep in Hb as [sub2 [[Hs2 | []] _]]. discriminate Hs2.
Qed.

(** C7, amended: from a state whose reverse index is sound (every key is an
    address listed by some account file of the store), [reindex], and, for
    an account name without [/], [_get_account], and, for a name without [/]
    other than the literal [default], [get_new_address], each leave a state
    whose reverse index is sound, whether the operation returns or raises
    on the way: an address is registered only once the file listing it is
    written. *)
Theorem rindex_sound_preserved
    (provider : nat -> keypair) (name : string) (w : world) :
  rindex_sound w ->
  rindex_sound (snd (Wallet.reindex w))
  /\ (Str.mem "/" name = false ->
      rindex_sound (snd (Wallet._get_account provider name w)))
  /\ (Str.mem "/" name = false -> name <> "default" ->
      rindex_sound (snd (Wallet.get_new_address provider name w))).
Proof.
  intros H. split; [ apply sound_reindex | ]. split.
  - intros Hm. apply sound_get_account; assumption.
  - intros Hm Hnd. apply sound_get_new_address; assumption.
Qed.

Lemma rindex_sound_preserved_witness :
  rindex_sound (Demo.wallet Demo.one_default (PDict [(KStr "A", PStr "")]))
  /\ rindex_sound
       (snd (Wallet.get_new_address Demo.provider "ab"
               (Demo.wallet Demo.one_default (PDict [(KStr "A", PStr "")])))).
Proof.
  split; [ exact demo_store_sound | ].
  refine (proj2 (proj2 (rindex_sound_preserved Demo.provider "ab"
                          (Demo.wallet Demo.one_default (PDict [(KStr "A", PStr "")]))
                          demo_store_sound)) eq_refl _).
  discriminate.
Defined.

(** ** A new address resolves to its account *)

Lemma setitem_getitem_str (c v c' : pyval) (s : string) :
  Py.setitem c (PStr s) v = Ok c' -> Py.getitem c' (PStr s) = Ok v.
Proof.
  destruct c; cbn; try discriminate.
  intros H. injection H as <-. cbn. rewrite dict_get_set_same. reflexivity.
Qed.

(** C1: for a valid account name (2 to 128 characters of the base64 set,
    without [/]): whenever [get_new_address] returns an address,
    [get_account] on that address, in the state [get_new_address] left,
    returns the account name (whatever address the key provider gave); and
    on a store in order (for a name other than the literal [default])
    [get_new_address] does return. *)
Theorem new_address_resolves
    (provider : nat -> keypair) (name : string) (w : world) :
  plain_name name ->
  (forall a w',
      Wallet.get_new_address provider name w = (Ok a, w') ->
      Wallet.get_account a w' = (Ok (PStr name), w'))
  /\ (name <> "default" -> store_in_order w name ->
      exists a w',
        Wallet.get_new_address provider name w = (Ok a, w')
        /\ Wallet.get_account a w' = (Ok (PStr name), w')).
Proof.
  intros Hpl.
  assert (Main : forall a w',
             Wallet.get_new_address provider name w = (Ok a, w') ->
             Wallet.get_account a w' = (Ok (PStr name), w')).
  { intros a w' H. unfold Wallet.get_new_address in H.
    apply bind_ok_inv in H as [account_dict [w1 [_ H]]].
    unfold Wallet.key_generate in H. rewrite bind_modify, bind_gets in H.
    rewrite bind_lift in H.
    destruct (Py.getitem account_dict _) as [l | e]; [ | discriminate H ].
    rewrite bind_lift in H. destruct (Py.append l _) as [l' | e]; [ | discriminate H ].
    rewrite bind_lift in H.
    destruct (Py.setitem account_dict _ _) as [ad' | e]; [ | discriminate H ].
    apply bind_ok_inv in H as [b [w2 [_ H]]].
    rewrite bind_gets, bind_lift in H.
    destruct (Py.setitem (address_to_account w2) _ _) as [a2a' | e] eqn:Es;
      [ | discriminate H ].
    rewrite bind_modify in H.
    apply bind_ok_inv in H as [u [w3 [E3 H]]].
    destruct (save_rindex_ok _ _ _ E3) as [d [_ ->]].
    cbn [ret] in H. injection H as <- <-.
    unfold Wallet.get_account, try_except. rewrite bind_gets.
    cbn [address_to_account set_disk set_address_to_account lift].
    assert (G := setitem_getitem_str _ _ _ _ Es).
    cbn [address key set_key KeyM.generate] in G. rewrite G. reflexivity. }
  split; [ exact Main | ].
  intros Hnd Hord.
  destruct (get_new_address_returns provider name w Hpl Hnd Hord) as [a [w' E]].
  exists a, w'. split; [ exact E | exact (Main a w' E) ].
Qed.

Lemma new_address_resolves_witness :
  Wallet.get_account "ADDR1"
    (snd (Wallet.get_new_address Demo.provider "AbCdEf12"
            (Demo.wallet Demo.one_default (PDict [(KStr "A", PStr "")]))))
  = (Ok (PStr "AbCdEf12"),
     snd (Wallet.get_new_address Demo.provider "AbCdEf12"
            (Demo.wallet Demo.one_default (PDict [(KStr "A", PStr "")]))))
  /\ exists a w',
      Wallet.get_new_address Demo.provider "AbCdEf12"
        (Demo.wallet Demo.one_default (PDict [(KStr "A", PStr "")]))
      = (Ok a, w')
      /\ Wallet.get_account a w' = (Ok (PStr "AbCdEf12"), w').
Proof.
  assert (Hpl : plain_name "AbCdEf12")
    by (split; [ simpl; lia | split; reflexivity ]).
  destruct (new_address_resolves Demo.provider "AbCdEf12"
              (Demo.wallet Demo.one_default (PDict [(KStr "A", PStr "")])) Hpl)
    as [H1 H2].
  split.
  - apply H1. vm_compute. reflexivity.
  - apply H2.
    + discriminate.
    + split; [ eexists; reflexivity | ].
      split; [ eexists; vm_compute; reflexivity | left; vm_compute; reflexivity ].
Defined.

Lemma reindex_twice_witness :
  fst (Wallet.reindex (Demo.wallet Demo.no_rindex (PDict []))) = Ok true
  /\ Fs.read "w/rindex.json"
       (disk (snd (Wallet.reindex
                     (snd (Wallet.reindex (Demo.wallet Demo.no_rindex (PDict [])))))))
     = Ok (Doc false (JObj [("A", JStr "")])).
Proof.
  assert (H : fst (Wallet.reindex (Demo.wallet Demo.no_rindex (PDict []))) = Ok true)
    by (vm_compute; reflexivity).
  split; [ exact H | ].
  destruct (reindex_twice (Demo.wallet Demo.no_rindex (PDict []))) as [_ [_ [_ G]]].
  destruct (G H) as [_ G2]. exact G2.
Defined.

(** ** The constructor on any missing directory *)

Lemma missing_has_no_child (p n : string) (d : listing) :
  n <> "" -> Str.mem "/" n = false -> p <> "" ->
  Fs.exists_ p d = false -> Fs.exists_ (p ++ "/" ++ n) d = false.
Proof.
  intros Hne Hm Hp H. unfold Fs.exists_ in *.
  rewrite (stat_child p n d Hne Hm), lookup_snoc.
  unfold Fs.stat in H. destruct (String.eqb_spec p ""); [ contradiction | ].
  destruct (Fs.lookup (Fs.components p) d); [ discriminate H | reflexivity ].
Qed.

Lemma bind_assoc {A B C : Type} (m : M A) (k : A -> M B) (h : B -> M C) (w : world) :
  bind (bind m k) h w = bind m (fun a => bind (k a) h) w.
Proof. unfold bind. destruct (m w) as [[a | e] w1]; reflexivity. Qed.

(** With [verbose] off, the constructor on a missing directory creates
    nothing, whatever the path and the disk. *)
Lemma init_quiet_general (p : string) (d : listing) :
  p <> "" -> Fs.exists_ p d = false ->
  Wallet.__init__ p false d
  = (Ok tt,
     World d p false false false "" (Str.repeat 16 "000") PNone KeyM.new (PDict [])).
Proof.
  intros Hp H. unfold Wallet.__init__.
  unfold os_path_exists. rewrite bind_gets. cbn [disk]. rewrite H. cbn [negb when].
  rewrite bind_assoc, bind_gets. cbn [verbose when]. rewrite bind_ret, bind_modify.
  unfold Wallet.load. rewrite bind_gets. cbv zeta. cbn [path set_key].
  unfold os_path_exists. rewrite bind_gets. cbn [disk set_key].
  change (p ++ "/index.json")%string with (p ++ "/" ++ "index.json")%string.
  rewrite (missing_has_no_child p "index.json" d
             (ltac:(discriminate) : "index.json" <> "") eq_refl Hp H).
  reflexivity.
Qed.

(** ** An address lost under the name [default] *)

(** On an empty store directory, two calls of [get_new_address "default"]
    both return; the address of the first call is still in the reverse
    index but in neither [default.json] nor [de/default.json]: the second
    call wrote over the file of the first with the root file's record. *)
Lemma default_name_loses_address :
  let w0 := Demo.wallet Demo.empty_dir (PDict []) in
  let r1 := Wallet.get_new_address Demo.provider "default" w0 in
  let r2 := Wallet.get_new_address Demo.provider "default" (snd r1) in
  fst r1 = Ok "ADDR1" /\ fst r2 = Ok "ADDR2"
  /\ Wallet.get_account "ADDR1" (snd r2) = (Ok (PStr "default"), snd r2)
  /\ Fs.read "w/default.json" (disk (snd r2))
     = Ok (Demo.record [Demo.entry "ADDR0" "PRIV0" "PUB0"])
  /\ Fs.read "w/de/default.json" (disk (snd r2))
     = Ok (Demo.record [Demo.entry "ADDR0" "PRIV0" "PUB0";
                        Demo.entry "ADDR2" "PRIV2" "PUB2"]).
Proof. vm_compute. repeat split. Qed.

(** ** [reindex] brings the listed addresses back *)

Lemma dict_get_set_eq (items : list (pykey * pyval)) (k k2 : pykey) (v : pyval) :
  Py.key_eqb k k2 = true ->
  Py.dict_get (Py.dict_set items k v) k2 = Some v.
Proof.
  intros He. induction items as [| [k' v'] r IH]; cbn.
  - rewrite He. reflexivity.
  - destruct (Py.key_eqb k' k) eqn:E; cbn.
    + rewrite (key_eqb_trans _ _ _ E He). reflexivity.
    + destruct (Py.key_eqb k' k2) eqn:E2; [ | exact IH ].
      rewrite (key_eqb_sym k k2) in He.
      rewrite (key_eqb_trans _ _ _ E2 He) in E. discriminate E.
Qed.

(** One round of the inner loop of [reindex], on a reverse index that is a
    dict. *)
Lemma register_step (name : string) (address : pyval) (w : world) :
  index_is_dict w ->
  let body :=
    (a0 <- lift (Py.getitem address (PInt 0)) ;;
     a2a <- gets address_to_account ;;
     a2a' <- lift (Py.setitem a2a a0 (PStr name)) ;;
     modify (set_address_to_account a2a'))%wallet in
  index_is_dict (snd (body w))
  /\ (forall a, index_maps a w -> index_maps a (snd (body w)))
  /\ (forall a0 k, Py.getitem address (PInt 0) = Ok a0 -> Py.to_key a0 = Ok k ->
                   fst (body w) = Ok tt
                   /\ forall a, a0 = PStr a -> index_maps a (snd (body w))).
Proof.
  intros [items Hi]. cbv zeta. rewrite bind_lift.
  destruct (Py.getitem address (PInt 0)) as [a0 | e] eqn:E0.
  - rewrite bind_gets, bind_lift, Hi. cbn [Py.setitem].
    destruct (Py.to_key a0) as [k |] eqn:Ek.
    + cbn [modify fst snd]. split; [ eexists; reflexivity | ]. split.
      * intros a [items' [nm [Hi' Hg]]]. rewrite Hi in Hi'. injection Hi' as <-.
        destruct (Py.key_eqb k (KStr a)) eqn:Ke.
        -- exists (Py.dict_set items k (PStr name)), name.
           split; [ reflexivity | apply dict_get_set_eq; exact Ke ].
        -- exists (Py.dict_set items k (PStr name)), nm.
           split; [ reflexivity | rewrite dict_get_set_other; assumption ].
      * intros a1 k1 Ha1 Hk1. injection Ha1 as <-. split; [ reflexivity | ].
        intros a ->. cbn in Ek. injection Ek as <-.
        exists (Py.dict_set items (KStr a) (PStr name)), name.
        split; [ reflexivity | apply dict_get_set_same ].
    + cbn [snd]. split; [ exists items; exact Hi | ]. split; [ auto | ].
      intros a1 k1 Ha1 Hk1. injection Ha1 as <-. rewrite Ek in Hk1. discriminate Hk1.
  - cbn [snd]. split; [ exists items; exact Hi | ]. split; [ auto | ].
    intros a1 k1 Ha1. discriminate Ha1.
Qed.

Lemma register_loop (name : string) (entries : list pyval) :
  forall w,
    index_is_dict w ->
    let loop :=
      for_each entries (fun address =>
        a0 <- lift (Py.getitem address (PInt 0)) ;;
        a2a <- gets address_to_account ;;
        a2a' <- lift (Py.setitem a2a a0 (PStr name)) ;;
        modify (set_address_to_account a2a'))%wallet in
    index_is_dict (snd (loop w))
    /\ (forall a, index_maps a w -> index_maps a (snd (loop w)))
    /\ (Forall (fun e => exists a0 k,
                    Py.getitem e (PInt 0) = Ok a0 /\ Py.to_key a0 = Ok k) entries ->
        forall a e, In e entries -> Py.getitem e (PInt 0) = Ok (PStr a) ->
                    index_maps a (snd (loop w))).
Proof.
  induction entries as [| x r IH]; intros w Hd; cbv zeta; cbn [for_each].
  - split; [ exact Hd | ]. split; [ auto | ]. intros _ a e [].
  - destruct (register_step name x w Hd) as [S1 [S2 S3]]. cbv zeta in S1, S2, S3.
    match goal with
    | |- context [bind ?m ?k w] => destruct (m w) as [[[] | err] w1] eqn:Eb
    end; cbn [fst snd] in S1, S2, S3;
      [ rewrite !(bind_ok _ Eb) | rewrite !(bind_raise _ Eb); cbn [snd] ].
    + destruct (IH w1 S1) as [L1 [L2 L3]]. cbv zeta in L1, L2, L3.
      split; [ exact L1 | ]. split; [ intros a Ha; apply L2, S2, Ha | ].
      intros Hwf a e [<- | Hin] He.
      * apply L2. inversion Hwf as [| ? ? [a0 [k [Hx Hk]]] _]; subst.
        destruct (S3 a0 k Hx Hk) as [_ G]. apply G. congruence.
      * inversion Hwf; subst. exact (L3 ltac:(assumption) a e Hin He).
    + split; [ exact S1 | ]. split; [ exact S2 | ].
      intros Hwf. inversion Hwf as [| ? ? [a0 [k [Hx Hk]]] _]; subst.
      destruct (S3 a0 k Hx Hk) as [G _]. discriminate G.
Qed.

Lemma restore_account (a : string) (account : string * pyval) (w : world) :
  index_is_dict w ->
  index_is_dict (snd (Wallet.reindex_account account w))
  /\ (index_maps a w -> index_maps a (snd (Wallet.reindex_account account w)))
  /\ (forall l entries,
         Py.getitem (snd account) (PStr "addresses") = Ok l ->
         Py.iter l = Ok entries ->
         Forall (fun e => exists a0 k,
                     Py.getitem e (PInt 0) = Ok a0 /\ Py.to_key a0 = Ok k) entries ->
         (exists e, In e entries /\ Py.getitem e (PInt 0) = Ok (PStr a)) ->
         index_maps a (snd (Wallet.reindex_account account w))).
Proof.
  intros Hd. unfold Wallet.reindex_account, try_except.
  rewrite bind_lift.
  destruct (Py.getitem (snd account) (PStr "addresses")) as [l | e] eqn:El;
    cbn [ret snd].
  - rewrite bind_lift. destruct (Py.iter l) as [entries | e] eqn:Ei; cbn [ret snd].
    + destruct (register_loop (fst account) entries w Hd) as [L1 [L2 L3]].
      cbv zeta in L1, L2, L3.
      match goal with
      | |- context [match ?m w with _ => _ end] => destruct (m w) as [[[] | err] w1]
      end; cbn [ret fst snd] in L1, L2, L3 |- *.
      * split; [ exact L1 | ]. split; [ apply L2 | ].
        intros l' entries' Hl Hi Hwf [e [Hin He]].
        injection Hl as <-. rewrite Ei in Hi. injection Hi as <-.
        exact (L3 Hwf a e Hin He).
      * split; [ exact L1 | ]. split; [ apply L2 | ].
        intros l' entries' Hl Hi Hwf [e [Hin He]].
        injection Hl as <-. rewrite Ei in Hi. injection Hi as <-.
        exact (L3 Hwf a e Hin He).
    + split; [ exact Hd | ]. split; [ auto | ].
      intros l' entries' Hl Hi. injection Hl as <-. rewrite Ei in Hi. discriminate Hi.
  - split; [ exact Hd | ]. split; [ auto | ].
    intros l' entries' Hl. discriminate Hl.
Qed.

Lemma restore_loop (a : string) (l : list (string * pyval)) :
  forall w,
    index_is_dict w ->
    index_is_dict (snd (for_each l Wallet.reindex_account w))
    /\ (index_maps a w -> index_maps a (snd (for_each l Wallet.reindex_account w)))
    /\ (forall account la entries,
           In account l ->
           Py.getitem (snd account) (PStr "addresses") = Ok la ->
           Py.iter la = Ok entries ->
           Forall (fun e => exists a0 k,
                       Py.getitem e (PInt 0) = Ok a0 /\ Py.to_key a0 = Ok k) entries ->
           (exists e, In e entries /\ Py.getitem e (PInt 0) = Ok (PStr a)) ->
           index_maps a (snd (for_each l Wallet.reindex_account w))).
Proof.
  induction l as [| x r IH]; intros w Hd; cbn [for_each].
  - split; [ exact Hd | ]. split; [ auto | ]. intros account la entries [].
  - destruct (restore_account a x w Hd) as [S1 [S2 S3]].
    assert (Hok := reindex_account_ok x w).
    unfold bind.
    destruct (Wallet.reindex_account x w) as [[[] | err] w1]; [ | discriminate Hok ].
    cbn [snd] in *. destruct (IH w1 S1) as [L1 [L2 L3]].
    split; [ exact L1 | ]. split; [ intros Ha; apply L2, S2, Ha | ].
    intros account la entries [<- | Hin] Hl Hi Hwf He.
    + apply L2. exact (S3 la entries Hl Hi Hwf He).
    + exact (L3 account la entries Hin Hl Hi Hwf He).
Qed.

(** After a [reindex] that returns, every listed address resolves. *)
Lemma reindex_restores (w w' : world) (a : string) (r : bool) :
  listed w a ->
  Wallet.reindex w = (Ok r, w') ->
  exists name, Wallet.get_account a w' = (Ok (PStr name), w').
Proof.
  intros [account [la [entries [Hin [Hl [Hi [Hwf He]]]]]]] H.
  rewrite reindex_run in H. cbv zeta in H.
  set (w0 := set_address_to_account (PDict []) w) in H.
  assert (Hd : index_is_dict w0) by (eexists; reflexivity).
  destruct (restore_loop a (Wallet.yields (Fs.walk (path w) (disk w))) w0 Hd)
    as [_ [_ L3]].
  specialize (L3 account la entries Hin Hl Hi Hwf He).
  destruct (Fs.write _ _ (disk w)) as [d |]; [ | discriminate H ].
  injection H as _ <-.
  destruct L3 as [items [name [Ha Hg]]]. exists name.
  unfold Wallet.get_account, try_except. rewrite bind_gets.
  cbn [address_to_account set_disk lift]. rewrite Ha.
  cbn [Py.getitem Py.to_key]. rewrite Hg. reflexivity.
Qed.


(** ** Loading a store without its reverse index *)

(** C10: with an [index.json] document in the store directory and a
    [rindex.json] that is absent or that [json.load] cannot read, [load]
    ends without error, the disk is as before, the reverse index in memory
    is the empty mapping, and [get_account] then raises [UnknownnAddress] for
    every address, whatever the account files hold; once [reindex] has run
    (and returned), the addresses the account files list resolve again. *)
Theorem load_without_rindex (w : world) (j : json) :
  Fs.read (path w ++ "/index.json") (disk w) = Ok (Doc false j) ->
  (forall j', Fs.read (path w ++ "/rindex.json") (disk w) <> Ok (Doc false j')) ->
  exists w',
    Wallet.load w = (Ok tt, w')
    /\ disk w' = disk w
    /\ path w' = path w
    /\ index w' = Json.load j
    /\ address_to_account w' = PDict []
    /\ (forall a, Wallet.get_account a w' = (Raise UnknownnAddress, w'))
    /\ (forall a r w2,
          listed w' a -> Wallet.reindex w' = (Ok r, w2) ->
          exists name, Wallet.get_account a w2 = (Ok (PStr name), w2)).
Proof.
  intros Hidx Hr.
  exists (set_address_to_account (PDict []) (set_index (Json.load j) w)).
  split; [ | split; [ destruct w; reflexivity | ];
             split; [ destruct w; reflexivity | ];
             split; [ destruct w; reflexivity | ];
             split; [ destruct w; reflexivity | ];
             split; [ intros a; apply get_account_unknown; reflexivity | ];
             intros a r w2 Hl Hre; exact (reindex_restores _ _ a r Hl Hre) ].
  unfold Wallet.load. run.
  rewrite (read_exists _ _ _ Hidx). cbn [negb].
  unfold bind at 1. unfold json_load_from at 1. rewrite Hidx. run.
  unfold try_except, bind, modify, json_load_from.
  replace (disk (set_index (Json.load j) w)) with (disk w) by (destruct w; reflexivity).
  replace (path (set_index (Json.load j) w)) with (path w) by (destruct w; reflexivity).
  destruct (Fs.read (path w ++ "/rindex.json") (disk w)) as [[t | [|] j'] | e] eqn:E;
    try reflexivity.
  exfalso. exact (Hr j' eq_refl).
Qed.

Lemma load_without_rindex_witness :
  exists w',
    Wallet.load (Demo.wallet Demo.no_rindex (PDict [(KStr "A", PStr "")]))
    = (Ok tt, w')
    /\ address_to_account w' = PDict []
    /\ Wallet.get_account "A" w' = (Raise UnknownnAddress, w')
    /\ exists name,
        Wallet.get_account "A" (snd (Wallet.reindex w'))
        = (Ok (PStr name), snd (Wallet.reindex w')).
Proof.
  destruct (load_without_rindex
              (Demo.wallet Demo.no_rindex (PDict [(KStr "A", PStr "")]))
              (JObj [("version", JStr "0.0.3"); ("encrypted", JBool false)])
              eq_refl)
    as [w' [H1 [Hd [Hp [_ [H2 [H3 H4]]]]]]].
  - intros j' H. vm_compute in H. discriminate H.
  - exists w'. split; [ exact H1 | ]. split; [ exact H2 | ]. split; [ apply H3 | ].
    injection H1 as E. subst w'.
    apply (H4 "A" true); [ | vm_compute; reflexivity ].
    exists ("", PDict [(KStr "encrypted", PBool false);
                       (KStr "addresses",
                        PList [PList [PStr "A"; PStr "PRIV"; PStr "PUB"]])]),
      (PList [PList [PStr "A"; PStr "PRIV"; PStr "PUB"]]),
      [PList [PStr "A"; PStr "PRIV"; PStr "PUB"]].
    split; [ vm_compute; left; reflexivity | ].
    split; [ reflexivity | ]. split; [ reflexivity | ].
    split; [ constructor; [ exists (PStr "A"), (KStr "A"); split; reflexivity
                          | constructor ] | ].
    exists (PList [PStr "A"; PStr "PRIV"; PStr "PUB"]).
    split; [ left; reflexivity | reflexivity ].
Defined.

(** * Further properties of the wallet store *)

(** ** The names the walk yields *)

Lemma substring_whole (s : string) : substring 0 (String.length s) s = s.
Proof. induction s as [| c r IH]; cbn; [ reflexivity | rewrite IH; reflexivity ]. Qed.

Lemma substring_of_empty (n m : nat) : substring n m "" = "".
Proof. destruct n, m; reflexivity. Qed.

Lemma substring_cut (i : nat) (s : string) :
  (substring 0 i s ++ substring i (String.length s - i) s)%string = s.
Proof.
  revert i. induction s as [| c r IH]; intros i.
  - rewrite !substring_of_empty. reflexivity.
  - destruct i as [| i].
    + cbn [substring append]. rewrite Nat.sub_0_r.
      change (substring 0 (String.length (String c r)) (String c r) = String c r).
      apply substring_whole.
    + cbn [substring append String.length Nat.sub]. rewrite IH. reflexivity.
Qed.

(** [os.path.splitext] cuts the name in two. *)
Lemma splitext_join (p : string) :
  (fst (Str.splitext p) ++ snd (Str.splitext p))%string = p.
Proof.
  unfold Str.splitext. destruct (Str.rfind "." p) as [i |]; cbn [fst snd].
  - destruct (Str.forallb _ _); cbn [fst snd];
      [ apply append_empty_r | apply substring_cut ].
  - apply append_empty_r.
Qed.

Lemma lower_append (a b : string) :
  Str.lower (a ++ b) = (Str.lower a ++ Str.lower b)%string.
Proof. induction a as [| c r IH]; cbn; [ reflexivity | rewrite IH; reflexivity ]. Qed.

(** What [parse_file] yields for a file: the name is the file name without
    its [.json], with [default] turned into the empty name; the files of the
    two index names are passed over. *)
Lemma parse_file_name (afile : string) (c : content) (account : string * pyval) :
  Wallet.parse_file afile c = Some account ->
  fst account <> "default"
  /\ Str.lower (fst account) <> "index"
  /\ Str.lower (fst account) <> "rindex".
Proof.
  unfold Wallet.parse_file. cbv zeta.
  set (nm := if String.eqb "default" (fst (Str.splitext afile))
             then "" else fst (Str.splitext afile)).
  destruct (String.eqb (Str.lower (snd (Str.splitext afile))) ".json") eqn:Ee;
    cbn [negb]; [ | discriminate ].
  destruct (String.eqb (Str.lower afile) "index.json") eqn:E1; [ discriminate | ].
  destruct (String.eqb (Str.lower afile) "rindex.json") eqn:E2; [ discriminate | ].
  cbn [orb]. destruct (json_loads_sig c) as [res | e]; [ | discriminate ].
  intros H. injection H as <-. cbn [fst].
  apply String.eqb_eq in Ee.
  assert (L : Str.lower afile
              = (Str.lower (fst (Str.splitext afile)) ++ ".json")%string).
  { rewrite <- Ee, <- lower_append, splitext_join. reflexivity. }
  unfold nm. destruct (String.eqb_spec "default" (fst (Str.splitext afile))) as [Ed | Ed].
  - repeat split; discriminate.
  - split; [ congruence | ].
    split; intros Hl; rewrite Hl in L; rewrite L in *; discriminate.
Qed.

Lemma yields_names (p : string) (d : listing) (account : string * pyval) :
  In account (Wallet.yields (Fs.walk p d)) ->
  fst account <> "default"
  /\ Str.lower (fst account) <> "index"
  /\ Str.lower (fst account) <> "rindex".
Proof.
  unfold Wallet.yields. intros H. apply in_flat_map in H as [f [_ Ha]].
  destruct (Wallet.parse_file (snd (fst f)) (snd f)) as [a' |] eqn:Ep; [ | destruct Ha ].
  destruct Ha as [<- | []]. exact (parse_file_name _ _ _ Ep).
Qed.

(** ** [list_accounts] *)

Lemma dict_of_pairs_in (l : list (pykey * pyval)) (k : pykey) (v : pyval) :
  In (k, v) (Py.dict_of_pairs l) -> exists k' v', In (k', v') l /\ k = k' .
Proof.
  unfold Py.dict_of_pairs.
  assert (G : forall acc,
             In (k, v) (fold_left (fun d kv => Py.dict_set d (fst kv) (snd kv)) l acc) ->
             (exists v0, In (k, v0) acc) \/ exists k' v', In (k', v') l /\ k = k').
  { induction l as [| [k0 v0] r IH]; intros acc H; cbn in H.
    - left. exists v. exact H.
    - destruct (IH _ H) as [[v1 H1] | [k' [v' [H1 H2]]]].
      + destruct (dict_set_in _ _ _ _ _ H1) as [[v2 H2] | ->].
        * left. exists v2. exact H2.
        * right. exists k0, v0. split; [ left; reflexivity | reflexivity ].
      + right. exists k', v'. split; [ right; exact H1 | exact H2 ]. }
  intros H. destruct (G [] H) as [[v0 []] | G']. exact G'.
Qed.

Lemma dict_of_pairs_values (P : pyval -> Prop) (l : list (pykey * pyval)) :
  Forall (fun kv => P (snd kv)) l ->
  Forall (fun kv => P (snd kv)) (Py.dict_of_pairs l).
Proof.
  intros H. unfold Py.dict_of_pairs.
  apply (fold_set_invariant (fun d => Forall (fun kv => P (snd kv)) d)
                            (fun kv => P (snd kv))).
  - intros d kv Hd Hk. apply dict_set_values; assumption.
  - exact H.
  - constructor.
Qed.

Lemma fold_set_has_key (l acc : list (pykey * pyval)) (k : pykey) :
  (Py.dict_get acc k <> None \/ exists v, In (k, v) l) ->
  Py.dict_get (fold_left (fun d kv => Py.dict_set d (fst kv) (snd kv)) l acc) k
  <> None.
Proof.
  revert acc. induction l as [| [k0 v0] r IH]; intros acc H; cbn.
  - destruct H as [H | [v []]]. exact H.
  - apply IH. destruct H as [H | [v [H | H]]].
    + left. destruct (Py.key_eqb k0 k) eqn:E.
      * cbn. rewrite (dict_get_set_eq _ _ _ _ E). discriminate.
      * cbn. rewrite (dict_get_set_other _ _ _ _ E). exact H.
    + injection H as -> ->. left. cbn. rewrite dict_get_set_same. discriminate.
    + right. exists v. exact H.
Qed.

(** X1: whenever [list_accounts] returns, it has changed nothing and the
    result is a dict whose keys are exactly the account names
    [_parse_accounts] yields, each with the value [-1]; no key is [default],
    nor [index] or [rindex] in any letter case (the default account is
    listed under the empty name, and accounts with the names of the two
    index files are not listed at all). *)
Theorem list_accounts_lists_yielded (w w' : world) (r : pyval) :
  Wallet.list_accounts w = (Ok r, w') ->
  w' = w
  /\ exists items,
      r = PDict items
      /\ (forall k v, In (k, v) items ->
            v = PInt (-1)
            /\ exists name,
                k = KStr name
                /\ (exists details,
                       In (name, details) (Wallet.yields (Fs.walk (path w) (disk w))))
                /\ name <> "default"
                /\ Str.lower name <> "index" /\ Str.lower name <> "rindex")
      /\ (forall account,
            In account (Wallet.yields (Fs.walk (path w) (disk w))) ->
            Py.getitem (PDict items) (PStr (fst account)) = Ok (PInt (-1))).
Proof.
  intros Hret.
  set (l := Wallet.yields (Fs.walk (path w) (disk w))).
  set (pairs := map (fun a : string * pyval => (KStr (fst a), PInt (-1))) l).
  unfold Wallet.list_accounts, try_except in Hret.
  change (Wallet._parse_accounts w) with (Ok l, w) in Hret.
  unfold bind in Hret.
  change (Wallet._parse_accounts w) with (Ok l, w) in Hret.
  cbn [ret] in Hret. fold pairs in Hret. injection Hret as <- <-.
  split; [ reflexivity | ].
  exists (Py.dict_of_pairs pairs).
  assert (Hv : Forall (fun kv => snd kv = PInt (-1)) (Py.dict_of_pairs pairs)).
  { apply (dict_of_pairs_values (fun v => v = PInt (-1))).
    unfold pairs. apply Forall_forall. intros kv Hkv.
    apply in_map_iff in Hkv as [a [<- _]]. reflexivity. }
  rewrite Forall_forall in Hv.
  split; [ reflexivity | ]. split.
  - intros k v Hin. split; [ exact (Hv (k, v) Hin) | ].
    destruct (dict_of_pairs_in _ _ _ Hin) as [k' [v' [Hp ->]]].
    unfold pairs in Hp. apply in_map_iff in Hp as [[name details] [E Ha]].
    injection E as <- _. exists name. split; [ reflexivity | ].
    split; [ exists details; exact Ha | ].
    exact (yields_names _ _ _ Ha).
  - intros account Ha. cbn [Py.getitem Py.to_key].
    destruct (Py.dict_get (Py.dict_of_pairs pairs) (KStr (fst account))) as [v |] eqn:Eg.
    + destruct (dict_get_in _ _ _ Eg) as [k' Hin].
      assert (E := Hv (k', v) Hin). cbn [snd] in E. rewrite E. reflexivity.
    + exfalso. revert Eg. unfold Py.dict_of_pairs. apply fold_set_has_key.
      right. exists (PInt (-1)). unfold pairs.
      apply in_map_iff. exists account. split; [ reflexivity | exact Ha ].
Qed.

(** ** What [reindex] registers *)

Lemma dict_set_in_value (items : list (pykey * pyval)) (k : pykey) (v : pyval)
    (k' : pykey) (v' : pyval) :
  In (k', v') (Py.dict_set items k v) -> In (k', v') items \/ v' = v.
Proof.
  induction items as [| [k0 v0] r IH]; cbn.
  - intros [H | []]. right. congruence.
  - destruct (Py.key_eqb k0 k).
    + intros [H | H]; [ right; congruence | left; right; exact H ].
    + intros [H | H]; [ left; left; exact H | ].
      destruct (IH H) as [G | G]; [ left; right; exact G | right; exact G ].
Qed.

Lemma dict_get_in_key (items : list (pykey * pyval)) (k : pykey) (v : pyval) :
  Py.dict_get items k = Some v ->
  exists k', In (k', v) items /\ Py.key_eqb k' k = true.
Proof.
  induction items as [| [k0 v0] r IH]; cbn; [ discriminate | ].
  destruct (Py.key_eqb k0 k) eqn:E.
  - intros H. injection H as ->. exists k0. split; [ left; reflexivity | exact E ].
  - intros H. destruct (IH H) as [k' [G1 G2]]. exists k'. split; [ right; exact G1 | exact G2 ].
Qed.

Lemma key_eqb_str (k : pykey) (s : string) :
  Py.key_eqb k (KStr s) = true -> k = KStr s.
Proof.
  unfold Py.key_eqb. rewrite raw_eqb_eq. destruct k as [| [|] | z | t]; cbn; congruence.
Qed.

(** The values of the reverse index, while the loop of [reindex] runs, are
    names of the accounts gone through. *)
Lemma reindex_loop_values (l : list (string * pyval)) (w0 : world) :
  let named (w1 : world) :=
    forall items k v,
      address_to_account w1 = PDict items -> In (k, v) items ->
      exists account, In account l /\ v = PStr (fst account) in
  named w0 -> named (snd (for_each l Wallet.reindex_account w0)).
Proof.
  cbv zeta. apply for_each_inv. intros x w1 Hx H1.
  unfold Wallet.reindex_account.
  apply try_inv; [ | intros e w' Hw'; exact Hw' ].
  rewrite bind_lift.
  destruct (Py.getitem (snd x) (PStr "addresses")) as [addresses | e]; [ | exact H1 ].
  rewrite bind_lift.
  destruct (Py.iter addresses) as [entries | e]; [ | exact H1 ].
  apply for_each_inv; [ | exact H1 ].
  intros address w2 _ H2. rewrite bind_lift.
  destruct (Py.getitem address (PInt 0)) as [a0 | e]; [ | exact H2 ].
  rewrite bind_gets, bind_lift.
  destruct (Py.setitem (address_to_account w2) a0 (PStr (fst x))) as [a2a' | e] eqn:Es;
    [ | exact H2 ].
  cbn [modify snd]. intros items k v Ha Hi. cbn in Ha. subst a2a'.
  destruct (address_to_account w2) as [| | | | lst | its] eqn:Ea; cbn in Es;
    try discriminate Es.
  - destruct (Py.to_key a0) as [k0 |]; [ | discriminate Es ].
    destruct (Py.as_index k0); [ | discriminate Es ].
    destruct (_ && _)%bool; discriminate Es.
  - destruct (Py.to_key a0) as [k0 |]; [ | discriminate Es ].
    injection Es as <-.
    destruct (dict_set_in_value _ _ _ _ _ Hi) as [G | ->].
    + exact (H2 its k v eq_refl G).
    + exists x. split; [ exact Hx | reflexivity ].
Qed.

Lemma reindex_index (w : world) :
  address_to_account (snd (Wallet.reindex w))
  = address_to_account
      (snd (for_each (Wallet.yields (Fs.walk (path w) (disk w)))
                     Wallet.reindex_account
                     (set_address_to_account (PDict []) w))).
Proof.
  rewrite reindex_run. cbv zeta.
  destruct (Fs.write _ _ (disk w)); reflexivity.
Qed.

Lemma get_account_ok (a : string) (w w' : world) (v : pyval) :
  Wallet.get_account a w = (Ok v, w') ->
  w' = w /\ Py.getitem (address_to_account w) (PStr a) = Ok v.
Proof.
  unfold Wallet.get_account, try_except. rewrite bind_gets. unfold lift.
  destruct (Py.getitem (address_to_account w) (PStr a)) as [v0 | e]; [ | discriminate ].
  intros H. injection H as <- <-. split; reflexivity.
Qed.

(** X2: after [reindex], whatever [get_account] returns is the name of an
    account [_parse_accounts] yielded: never [default] (the files named
    [default.json] are registered under the empty name), and never [index]
    or [rindex] in any letter case (account files with these names are
    passed over in every directory, so their addresses are not registered
    again). *)
Theorem reindex_registers_yielded_names (w w2 : world) (a : string) (v : pyval) :
  Wallet.get_account a (snd (Wallet.reindex w)) = (Ok v, w2) ->
  exists name details,
    v = PStr name
    /\ In (name, details) (Wallet.yields (Fs.walk (path w) (disk w)))
    /\ name <> "default"
    /\ Str.lower name <> "index" /\ Str.lower name <> "rindex".
Proof.
  intros H. apply get_account_ok in H as [_ H]. rewrite reindex_index in H.
  set (l := Wallet.yields (Fs.walk (path w) (disk w))) in *.
  assert (N := reindex_loop_values l (set_address_to_account (PDict []) w)).
  cbv zeta in N.
  destruct (address_to_account (snd (for_each l Wallet.reindex_account _)))
    as [| | | | lst | items] eqn:Ea; cbn in H; try discriminate H.
  destruct (Py.dict_get items (KStr a)) as [v0 |] eqn:Eg; [ | discriminate H ].
  injection H as ->. destruct (dict_get_in _ _ _ Eg) as [k' Hin].
  assert (N0 : forall its k0 v0,
             address_to_account (set_address_to_account (PDict []) w) = PDict its ->
             In (k0, v0) its ->
             exists account, In account l /\ v0 = PStr (fst account)).
  { intros its k0 v0 E0 Hi0. cbn in E0. injection E0 as <-. destruct Hi0. }
  destruct (N N0 items k' v Ea Hin) as [[name details] [Hacc ->]].
  exists name, details. split; [ reflexivity | ]. split; [ exact Hacc | ].
  exact (yields_names _ _ _ Hacc).
Qed.

Lemma reindex_registers_yielded_names_witness :
  exists details,
    In ("", details)
       (Wallet.yields (Fs.walk "w" Demo.one_default)).
Proof.
  destruct (reindex_registers_yielded_names
              (Demo.wallet Demo.one_default (PDict [])) _ "A" (PStr "")
              ltac:(vm_compute; reflexivity))
    as [name [details [E [H _]]]].
  injection E as <-. exists details. exact H.
Defined.

(** The loop of [reindex] registers listed addresses only, on the disk it
    started from. *)
Lemma reindex_loop_sound (w : world) :
  let wl := snd (for_each (Wallet.yields (Fs.walk (path w) (disk w)))
                          Wallet.reindex_account
                          (set_address_to_account (PDict []) w)) in
  rindex_sound wl /\ disk wl = disk w /\ path wl = path w.
Proof.
  cbv zeta.
  apply (for_each_inv
           (fun w1 => rindex_sound w1 /\ disk w1 = disk w /\ path w1 = path w)).
  - intros a w1 Ha Hw1. apply sound_reindex_account; [ | exact Hw1 ].
    apply yields_from_files. exact Ha.
  - split; [ apply sound_empty | split; reflexivity ].
Qed.

(** X3: [reindex] forgets what no account file lists: an address that no
    account file of the store has as first field of an entry is unknown to
    [get_account] after [reindex], whatever the reverse index held before. *)
Theorem reindex_forgets_unlisted (w : world) (a : string) :
  (forall p c, Fs.file_at p c (disk w) -> account_file (path w) p ->
               ~ has_address c (KStr a)) ->
  Wallet.get_account a (snd (Wallet.reindex w))
  = (Raise UnknownnAddress, snd (Wallet.reindex w)).
Proof.
  intros Hno.
  destruct (reindex_loop_sound w) as [Hs [Hd Hp]].
  unfold Wallet.get_account, try_except. rewrite bind_gets. unfold lift.
  rewrite reindex_index.
  set (wl := snd (for_each _ Wallet.reindex_account _)) in *.
  destruct (Py.getitem (address_to_account wl) (PStr a)) as [v | e] eqn:Eg;
    [ | reflexivity ].
  exfalso.
  destruct (address_to_account wl) as [| | | | lst | items] eqn:Ea; cbn in Eg;
    try discriminate Eg.
  destruct (Py.dict_get items (KStr a)) as [v0 |] eqn:Ed; [ | discriminate Eg ].
  destruct (dict_get_in_key _ _ _ Ed) as [k' [Hin Hk]].
  apply key_eqb_str in Hk. subst k'.
  destruct (Hs items (KStr a) v0 Ea Hin) as [p [c [Hf [Hacc Hc]]]].
  rewrite Hd in Hf. rewrite Hp in Hacc. exact (Hno p c Hf Hacc Hc).
Qed.

Lemma reindex_forgets_unlisted_witness :
  Wallet.get_account "A"
    (snd (Wallet.reindex (Demo.wallet Demo.empty_account (PDict [(KStr "A", PStr "ab")]))))
  = (Raise UnknownnAddress,
     snd (Wallet.reindex (Demo.wallet Demo.empty_account (PDict [(KStr "A", PStr "ab")])))).
Proof.
  apply reindex_forgets_unlisted.
  intros p c Hf _ [bom [j [l [entries [e [a0 [k' H]]]]]]].
  destruct H as [Hc [Hg [Hi [Hin _]]]]. subst c.
  assert (E : j = JObj [("version", JStr "0.0.3"); ("encrypted", JBool false)]
              \/ j = JObj []
              \/ j = JObj [("encrypted", JBool false); ("addresses", JArr [])]).
  { cbn [disk Demo.wallet Demo.empty_account] in Hf.
    destruct p as [| n1 [| n2 [| n3 [| n4 q]]]]; cbn in Hf.
    - destruct Hf.
    - destruct Hf as [Hf | []]. discriminate Hf.
    - destruct Hf as [sub [[Hs | []] Hf]]. injection Hs as <- <-.
      destruct Hf as [Hf | [Hf | [Hf | []]]]; try discriminate Hf.
      + injection Hf as _ _ <-. left. reflexivity.
      + injection Hf as _ _ <-. right. left. reflexivity.
    - destruct Hf as [sub [[Hs | []] [sub2 [Hs2 Hf]]]]. injection Hs as <- <-.
      destruct Hs2 as [Hs2 | [Hs2 | [Hs2 | []]]]; try discriminate Hs2.
      injection Hs2 as _ <-. destruct Hf as [Hf | []]. injection Hf as _ _ <-.
      right. right. reflexivity.
    - destruct Hf as [sub [[Hs | []] [sub2 [Hs2 [sub3 [Hs3 _]]]]]].
      injection Hs as <- <-.
      destruct Hs2 as [Hs2 | [Hs2 | [Hs2 | []]]]; try discriminate Hs2.
      injection Hs2 as _ <-. destruct Hs3 as [Hs3 | []]. discriminate Hs3. }
  destruct E as [-> | [-> | ->]]; cbn in Hg; try discriminate Hg.
  injection Hg as <-. cbn in Hi. injection Hi as <-. destruct Hin.
Defined.

(** ** The keys of an address *)


Lemma eq_str_true (v : pyval) (s : string) : Py.eq_str v s = true -> v = PStr s.
Proof.
  destruct v; cbn; try discriminate. intros H. apply String.eqb_eq in H. congruence.
Qed.


(** ** The first touch of an account *)

(** What [_get_account] returned when the account file was not there: the
    record of one new entry, made from the next key of the provider and
    registered under the name. *)
Lemma get_account_created
    (provider : nat -> keypair) (name : string) (w w1 : world) (v : pyval) :
  Fs.isfile (fst (Wallet._get_account_paths (path w) name)) (disk w) = false ->
  Wallet._get_account provider name w = (Ok v, w1) ->
  let k := KeyM.generate provider (key w) in
  v = PDict [(KStr "encrypted", PBool false);
             (KStr "addresses", PList [KeyM.as_list k])]
  /\ key w1 = k /\ path w1 = path w
  /\ Py.setitem (address_to_account w) (PStr (address k)) (PStr name)
     = Ok (address_to_account w1).
Proof.
  intros Hf H. cbv zeta. unfold Wallet._get_account in H.
  apply bind_ok_inv in H as [v0 [w0 [E H]]]. rewrite (check_ok _ _ _ _ E) in H.
  clear v0 w0 E. rewrite bind_gets in H. cbv zeta in H.
  unfold os_path_isfile in H. rewrite bind_gets, Hf in H. cbn [negb] in H.
  unfold Wallet.key_generate in H. rewrite bind_modify, bind_gets in H.
  set (wk := set_key (KeyM.generate provider (key w)) w) in *.
  unfold os_path_exists in H. rewrite bind_gets in H.
  apply bind_ok_inv in H as [u [wm [Em H]]].
  destruct (when_mkdir_ok _ _ _ _ _ Em) as [Pm [Am [Km _]]].
  apply bind_ok_inv in H as [u2 [wd [Ed H]]].
  destruct (json_dump_to_ok _ _ _ _ _ Ed) as [d' [_ ->]].
  rewrite bind_gets, bind_lift in H.
  destruct (Py.setitem _ _ _) as [a2a' | e] eqn:Es; [ | discriminate H ].
  rewrite bind_modify in H.
  apply bind_ok_inv in H as [u3 [w3 [E3 H]]].
  destruct (save_rindex_ok _ _ _ E3) as [d2 [_ ->]].
  cbn [ret] in H. injection H as <- <-.
  split; [ reflexivity | ]. split; [ exact Km | ]. split; [ exact Pm | ].
  cbn [address_to_account set_disk set_address_to_account] in Es |- *.
  rewrite Am in Es. exact Es.
Qed.

(** X5: the first call of [get_account_address] for an account whose file
    is not there yet returns the address of the key the provider gives
    next, and that address then resolves to the account name given (the
    name as given: [default] for [default], the empty name for the empty
    name). *)
Theorem first_touch_registers
    (provider : nat -> keypair) (name : string) (w w' : world) (a : pyval) :
  Fs.isfile (fst (Wallet._get_account_paths (path w) name)) (disk w) = false ->
  Wallet.get_account_address provider name w = (Ok a, w') ->
  a = PStr (kp_address (provider (minted (key w))))
  /\ Wallet.get_account (kp_address (provider (minted (key w)))) w'
     = (Ok (PStr name), w').
Proof.
  intros Hf H. unfold Wallet.get_account_address in H.
  apply bind_ok_inv in H as [v [w1 [E H]]].
  destruct (get_account_created provider name w w1 v Hf E) as [-> [_ [_ Hs]]].
  cbn in H. injection H as <- <-. split; [ reflexivity | ].
  unfold Wallet.get_account, try_except. rewrite bind_gets. unfold lift.
  cbn [address KeyM.generate] in Hs.
  rewrite (setitem_getitem_str _ _ _ _ Hs). reflexivity.
Qed.

Lemma first_touch_registers_witness :
  Wallet.get_account "ADDR0"
    (snd (Wallet.get_account_address Demo.provider ""
            (Demo.wallet Demo.empty_dir (PDict []))))
  = (Ok (PStr ""),
     snd (Wallet.get_account_address Demo.provider ""
            (Demo.wallet Demo.empty_dir (PDict [])))).
Proof.
  refine (proj2 (first_touch_registers Demo.provider ""
                   (Demo.wallet Demo.empty_dir (PDict [])) _ (PStr "ADDR0") _ _)).
  - reflexivity.
  - vm_compute. reflexivity.
Defined.

(** X6: a lookup of keys can create an account.  When the reverse index
    sends the address to an account whose shard directory does not exist
    (the store otherwise in order), [_get_keys_for_address] raises
    [UnknownnAddress], but on the way [_get_account] has made the account:
    its file is now there, with one entry for a new key, and the new key's
    address is registered. *)
Theorem keys_lookup_creates_account
    (provider : nat -> keypair) (a name : string) (w : world) :
  plain_name name -> name <> "default" ->
  (exists items, address_to_account w = PDict items) ->
  (exists c, Fs.read (path w ++ "/rindex.json") (disk w) = Ok c) ->
  Fs.exists_ (Wallet.shard_path (path w) name) (disk w) = false ->
  Py.getitem (address_to_account w) (PStr a) = Ok (PStr name) ->
  kp_address (provider (minted (key w))) <> a ->
  exists w',
    Wallet._get_keys_for_address provider a w = (Raise UnknownnAddress, w')
    /\ Fs.isfile (Wallet.shard_fname (path w) name) (disk w) = false
    /\ Fs.read (Wallet.shard_fname (path w) name) (disk w')
       = Ok (Doc false
               (Json.dump
                  (PDict [(KStr "encrypted", PBool false);
                          (KStr "addresses",
                           PList [KeyM.as_list (KeyM.generate provider (key w))])])))
    /\ Wallet.get_account (kp_address (provider (minted (key w)))) w'
       = (Ok (PStr name), w').
Proof.
  intros Hpl Hnd Hdict Hrx Hfresh Ha Hnew.
  destruct (shard_names name Hpl) as [_ [Hn Hmn]].
  destruct (plain_paths (path w) name Hpl Hnd) as [Hg _].
  assert (Hnf : Fs.isfile (Wallet.shard_fname (path w) name) (disk w) = false).
  { unfold Wallet.shard_fname.
    exact (not_exists_not_file (Wallet.shard_path (path w) name) _ (disk w)
             Hn Hmn (join_nonempty _ _) Hfresh). }
  destruct (get_account_returns provider name w Hpl Hnd
              (conj Hdict (conj Hrx (or_introl Hfresh))))
    as [w1 [j [items [l0 [E1 [_ [_ [_ [Hr [Hl _]]]]]]]]]].
  assert (Hf : Fs.isfile (fst (Wallet._get_account_paths (path w) name)) (disk w) = false)
    by (rewrite Hg; exact Hnf).
  destruct (get_account_created provider name w w1 _ Hf E1) as [Hv [_ [_ Hs]]].
  cbv zeta in Hv, Hs.
  exists w1. split; [ | split; [ exact Hnf | split ] ].
  - unfold Wallet._get_keys_for_address, try_except.
    rewrite bind_gets, bind_lift, Ha, bind_gets, bind_lift, Ha.
    cbn [Wallet._get_account_of]. rewrite (bind_ok _ E1), Hv.
    cbn [Py.getitem Py.to_key Py.dict_get Py.key_eqb Py.canon Py.raw_eqb String.eqb
         Ascii.eqb Bool.eqb].
    rewrite bind_lift. cbn [Py.iter]. rewrite bind_lift.
    cbn [Wallet.find_keys]. rewrite bind_lift.
    cbn [Py.getitem KeyM.as_list Py.to_key Py.as_index Py.seq_index Z.leb Z.compare
         nth_error Z.to_nat Py.eq_str address KeyM.generate].
    destruct (String.eqb_spec (kp_address (provider (minted (key w)))) a) as [E | _];
      [ contradiction | ].
    reflexivity.
  - clear - Hf E1 Hg Hn Hmn Hpl.
    unfold Wallet._get_account in E1.
    apply bind_ok_inv in E1 as [v0 [w0 [E H]]]. rewrite (check_ok _ _ _ _ E) in H.
    clear v0 w0 E. rewrite bind_gets in H. cbv zeta in H.
    unfold os_path_isfile in H. rewrite bind_gets, Hf in H. cbn [negb] in H.
    unfold Wallet.key_generate in H. rewrite bind_modify, bind_gets in H.
    set (wk := set_key (KeyM.generate provider (key w)) w) in *.
    unfold os_path_exists in H. rewrite bind_gets in H.
    apply bind_ok_inv in H as [u [wm [Em H]]].
    apply bind_ok_inv in H as [u2 [wd [Ed H]]].
    destruct (json_dump_to_ok _ _ _ _ _ Ed) as [d' [Hw ->]].
    rewrite bind_gets, bind_lift in H.
    destruct (Py.setitem _ _ _) as [a2a' | e] eqn:Es; [ | discriminate H ].
    rewrite bind_modify in H.
    apply bind_ok_inv in H as [u3 [w3 [E3 H]]].
    destruct (save_rindex_ok _ _ _ E3) as [d2 [Hw2 ->]].
    cbn [ret] in H. injection H as _ <-.
    rewrite Hg in Hw. cbn [fst] in Hw. unfold Wallet.shard_fname in Hw |- *.
    assert (R := read_after_write _ _ _ _ _ Hn Hmn Hw).
    cbn [disk set_disk].
    apply (write_read_other _ _ _ _ _ _ _
             (ltac:(discriminate) : "rindex.json" <> "") eq_refl Hw2);
      [ | exact R ].
    cbn [path set_disk set_address_to_account].
    assert (Pm : path wm = path w)
      by (destruct (when_mkdir_ok _ _ _ _ _ Em) as [Pm _]; exact Pm).
    rewrite Pm. exact (shard_file_not_rindex (path w) name Hpl).
  - unfold Wallet.get_account, try_except. rewrite bind_gets. unfold lift.
    cbn [address KeyM.generate] in Hs.
    rewrite (setitem_getitem_str _ _ _ _ Hs). reflexivity.
Qed.

Lemma keys_lookup_creates_account_witness :
  fst (Wallet._get_keys_for_address Demo.provider "A"
         (Demo.wallet
            [("w", Dir [("rindex.json", File (Doc false (JObj [("A", JStr "ab")])))])]
            (PDict [(KStr "A", PStr "ab")])))
  = Raise UnknownnAddress.
Proof.
  assert (Hpl : plain_name "ab")
    by (split; [ simpl; lia | split; reflexivity ]).
  destruct (keys_lookup_creates_account Demo.provider "A" "ab"
              (Demo.wallet
                 [("w", Dir [("rindex.json",
                              File (Doc false (JObj [("A", JStr "ab")])))])]
                 (PDict [(KStr "A", PStr "ab")]))
              Hpl ltac:(discriminate)
              (ex_intro _ _ eq_refl)
              (ex_intro _ _ eq_refl)
              eq_refl eq_refl ltac:(discriminate)) as [w' [E _]].
  rewrite E. reflexivity.
Defined.

(** ** The addresses of an account *)

Lemma get_account_accepted
    (provider : nat -> keypair) (name : string) (w w' : world) (v : pyval) :
  Wallet._get_account provider name w = (Ok v, w') -> accepted_name name.
Proof.
  unfold Wallet._get_account. intros H.
  destruct (check_outcome name w) as [[u [_ Hn]] | [E _]].
  - destruct Hn as [-> | Hn]; [ left; reflexivity | right; exact Hn ].
  - rewrite (bind_raise _ E) in H. discriminate H.
Qed.

(** The comprehension of [get_addresses_by_account] is [first_fields], and
    leaves the state alone. *)
Lemma addresses_tail (es : list pyval) (w : world) :
  (fix each (es : list pyval) : M pyval :=
     match es with
     | [] => ret (PList [])
     | e :: r =>
         bind (lift (Py.getitem e (PInt 0)))
           (fun a =>
              bind (each r)
                (fun rest =>
                   match rest with
                   | PList rs => ret (PList (a :: rs))
                   | _ => raise TypeError
                   end))
     end) es w
  = match first_fields es with
    | Ok rs => (Ok (PList rs), w)
    | Raise x => (Raise x, w)
    end.
Proof.
  induction es as [| e r IH]; [ reflexivity | ].
  cbn [first_fields fold_right]. fold (first_fields r).
  rewrite bind_lift. destruct (Py.getitem e (PInt 0)) as [a | x]; [ | reflexivity ].
  unfold bind at 1. rewrite IH.
  destruct (first_fields r) as [rs | x]; reflexivity.
Qed.

Lemma first_fields_app (l0 : list pyval) (e a : pyval) (l : list pyval) :
  first_fields l0 = Ok l -> Py.getitem e (PInt 0) = Ok a ->
  first_fields (l0 ++ [e]) = Ok (l ++ [a]).
Proof.
  revert l. induction l0 as [| x r IH]; intros l H He.
  - cbn in H. injection H as <-. cbn [app first_fields fold_right]. rewrite He.
    reflexivity.
  - cbn [app first_fields fold_right] in H |- *. fold (first_fields r) in H.
    fold (first_fields (r ++ [e])).
    destruct (Py.getitem x (PInt 0)) as [b | y]; [ | discriminate H ].
    destruct (first_fields r) as [rs | y]; [ | discriminate H ].
    injection H as <-. rewrite (IH rs eq_refl He). reflexivity.
Qed.

(** What [get_addresses_by_account] gives on a stored record. *)
Lemma addresses_of_stored
    (provider : nat -> keypair) (name : string) (w : world) (j : json)
    (l0 : list pyval) :
  accepted_name name ->
  Fs.read (fst (Wallet._get_account_paths (path w) name)) (disk w) = Ok (Doc false j) ->
  Py.getitem (Json.load j) (PStr "addresses") = Ok (PList l0) ->
  Wallet.get_addresses_by_account provider name w
  = match first_fields l0 with
    | Ok rs => (Ok (PList rs), w)
    | Raise x => (Raise x, w)
    end.
Proof.
  intros Hacc Hr Hg. unfold Wallet.get_addresses_by_account.
  rewrite (bind_ok _ (get_account_stored provider name w j Hacc Hr)).
  rewrite bind_lift, Hg, bind_lift. cbn [Py.iter]. apply addresses_tail.
Qed.

(** X7: [get_new_address] adds exactly its result at the end of the
    account's address list.  For a name without [/] other than [default]:
    when [get_addresses_by_account] gives the list [l] on the state before
    and [get_new_address] returns [a], then on the state after
    [get_addresses_by_account] gives [l] followed by [a], and changes
    nothing.  (On an account that is not there yet both calls create it
    with the same first key.) *)
Theorem new_address_is_listed_last
    (provider : nat -> keypair) (name : string) (w w0 w' : world)
    (l : list pyval) (a : string) :
  Str.mem "/" name = false -> name <> "default" ->
  Wallet.get_addresses_by_account provider name w = (Ok (PList l), w0) ->
  Wallet.get_new_address provider name w = (Ok a, w') ->
  Wallet.get_addresses_by_account provider name w'
  = (Ok (PList (l ++ [PStr a])), w').
Proof.
  intros Hm Hnd H0 H. unfold Wallet.get_new_address in H.
  apply bind_ok_inv in H as [ad [w1 [E1 H]]].
  assert (Hacc := get_account_accepted provider name w w1 ad E1).
  unfold Wallet.get_addresses_by_account in H0. rewrite (bind_ok _ E1) in H0.
  destruct (get_account_post provider name w w1 ad Hm E1) as [P1 [j [Hr Hl]]].
  destruct (get_paths_shape (path w) name Hm) as [parent [n [Hp [Hne [Hmn Haf]]]]].
  rewrite Hp in Hr. cbn [fst] in Hr.
  unfold Wallet.key_generate in H. rewrite bind_modify, bind_gets in H.
  set (wk := set_key (KeyM.generate provider (key w1)) w1) in *.
  rewrite bind_lift in H. rewrite bind_lift in H0.
  destruct (Py.getitem ad (PStr "addresses")) as [l1 | e] eqn:El; [ | discriminate H ].
  rewrite bind_lift in H.
  destruct (Py.append l1 (KeyM.as_list (key wk))) as [l' | e] eqn:Eap;
    [ | discriminate H ].
  destruct l1 as [| | | | l0 |]; try discriminate Eap. cbn in Eap. injection Eap as <-.
  rewrite bind_lift in H.
  destruct (Py.setitem ad (PStr "addresses") _) as [ad' | e] eqn:Eset;
    [ | discriminate H ].
  destruct ad as [| | | | lst | items]; try discriminate Eset; try discriminate El.
  cbn in Eset. injection Eset as <-. cbn in El.
  destruct (Py.dict_get items (KStr "addresses")) as [x |] eqn:Eg; [ | discriminate El ].
  injection El as ->.
  rewrite bind_lift in H0. cbn [Py.iter] in H0. rewrite addresses_tail in H0.
  destruct (first_fields l0) as [rs | x] eqn:Eff; [ | discriminate H0 ].
  injection H0 as <- _.
  assert (Hps : Wallet._save_account_paths (path wk) name
                = ((parent ++ "/" ++ n)%string, parent)).
  { rewrite (save_paths_same _ name Hnd). change (path wk) with (path w1).
    rewrite P1. exact Hp. }
  apply bind_ok_inv in H as [b [w2 [E2 H]]].
  destruct (save_account_ok _ name wk w2 b parent n Hps Hne Hmn E2)
    as [P2 [A2 [K2 [_ R2]]]].
  rewrite bind_gets, bind_lift in H.
  destruct (Py.setitem (address_to_account w2) _ _) as [a2a' | e] eqn:Es;
    [ | discriminate H ].
  rewrite bind_modify in H.
  apply bind_ok_inv in H as [u3 [w3 [E3 H]]].
  destruct (save_rindex_ok _ _ _ E3) as [d3 [Hw3 ->]].
  cbn [ret] in H. injection H as <- <-.
  assert (Pw : path w2 = path w).
  { rewrite P2. change (path wk) with (path w1). exact P1. }
  cbn [path set_address_to_account] in Hw3.
  destruct (appended_record j items l0 (KeyM.as_list (key wk)) Hl Eg
              ltac:(repeat constructor)) as [Hld Hga].
  cbv zeta in Hld, Hga.
  rewrite (addresses_of_stored provider name _
             (Json.dump (PDict (Py.dict_set items (KStr "addresses")
                                  (PList (l0 ++ [KeyM.as_list (key wk)])))))
             (l0 ++ [KeyM.as_list (key wk)]) Hacc).
  - rewrite (first_fields_app l0 (KeyM.as_list (key wk)) (PStr (address (key wk))) rs
               Eff eq_refl).
    reflexivity.
  - cbn [path disk set_disk set_address_to_account]. rewrite Pw, Hp. cbn [fst].
    apply (write_read_other _ _ _ _ _ _ _
             (ltac:(discriminate) : "rindex.json" <> "") eq_refl Hw3); [ | exact R2 ].
    rewrite Pw, (components_child parent n Hne Hmn).
    destruct Haf as [_ [_ Hx]]. exact Hx.
  - rewrite Hld. exact Hga.
Qed.

Lemma new_address_is_listed_last_witness :
  Wallet.get_addresses_by_account Demo.provider "ab"
    (snd (Wallet.get_new_address Demo.provider "ab"
            (Demo.wallet Demo.empty_account (PDict []))))
  = (Ok (PList ([] ++ [PStr "ADDR0"])),
     snd (Wallet.get_new_address Demo.provider "ab"
            (Demo.wallet Demo.empty_account (PDict [])))).
Proof.
  apply (new_address_is_listed_last Demo.provider "ab"
           (Demo.wallet Demo.empty_account (PDict []))
           (Demo.wallet Demo.empty_account (PDict []))).
  - reflexivity.
  - discriminate.
  - vm_compute. reflexivity.
  - vm_compute. reflexivity.
Defined.

(** ** The address of an account *)

(** X8: [get_account_address] is stable.  Once it has returned an address
    for a name without [/], a second call on the state it left returns the
    same address and changes nothing: the account is created at most once. *)
Theorem account_address_stable
    (provider : nat -> keypair) (name : string) (w w' : world) (a : pyval) :
  Str.mem "/" name = false ->
  Wallet.get_account_address provider name w = (Ok a, w') ->
  Wallet.get_account_address provider name w' = (Ok a, w').
Proof.
  intros Hm H. unfold Wallet.get_account_address in H |- *.
  apply bind_ok_inv in H as [v [w1 [E H]]].
  assert (Hacc := get_account_accepted provider name w w1 v E).
  destruct (get_account_post provider name w w1 v Hm E) as [P1 [j [Hr Hl]]].
  assert (Hw : w' = w1).
  { rewrite bind_lift in H. destruct (Py.getitem v _) as [l |]; [ | congruence ].
    rewrite bind_lift in H. destruct (Py.getitem l _) as [e |]; [ | congruence ].
    unfold lift in H. destruct (Py.getitem e _); congruence. }
  subst w'. rewrite <- P1 in Hr.
  rewrite (bind_ok _ (get_account_stored provider name w1 j Hacc Hr)), Hl.
  exact H.
Qed.

Lemma account_address_stable_witness :
  Wallet.get_account_address Demo.provider "ab"
    (snd (Wallet.get_account_address Demo.provider "ab"
            (Demo.wallet Demo.empty_dir (PDict []))))
  = (Ok (PStr "ADDR0"),
     snd (Wallet.get_account_address Demo.provider "ab"
            (Demo.wallet Demo.empty_dir (PDict [])))).
Proof.
  apply (account_address_stable Demo.provider "ab"
           (Demo.wallet Demo.empty_dir (PDict []))).
  - reflexivity.
  - vm_compute. reflexivity.
Defined.

Lemma loaded_value (items : list (pykey * pyval)) (k : pykey) (v : pyval) :
  loaded (PDict items) -> Py.dict_get items k = Some v -> loaded v.
Proof.
  intros H Hg. inversion H as [| | | | | items' _ Hv _]; subst.
  destruct (dict_get_in items k v Hg) as [k' Hin].
  rewrite Forall_forall in Hv. exact (Hv (k', v) Hin).
Qed.

Lemma str_keys_no_int (items : list (pykey * pyval)) (z : Z) :
  Forall (fun kv => is_str_key (fst kv)) items -> Py.dict_get items (KInt z) = None.
Proof.
  induction 1 as [| [k v] r [s Hs] _ IH]; [ reflexivity | ].
  cbn in Hs. subst k. cbn. exact IH.
Qed.

(** Indexing a loaded value at [0] gives the first thing its iteration
    gives. *)
Lemma first_of_iter (l e : pyval) :
  loaded l -> Py.getitem l (PInt 0) = Ok e ->
  exists rest, Py.iter l = Ok (e :: rest).
Proof.
  intros Hl H. destruct l as [| b | z | s | l0 | items]; try discriminate H.
  - cbn in H. destruct s as [| c r]; [ discriminate H | ]. cbn in H.
    injection H as <-. exists (Py.chars r). reflexivity.
  - cbn in H. destruct l0 as [| x r]; [ discriminate H | ]. cbn in H.
    injection H as <-. exists r. reflexivity.
  - inversion Hl as [| | | | | items' Hk _ _]; subst. cbn in H.
    rewrite (str_keys_no_int items 0 Hk) in H. discriminate H.
Qed.

(** X9: the address of an account is the first of its addresses.  When
    [get_account_address] has returned [a] for a name without [/], whatever
    list [get_addresses_by_account] then returns starts with [a], and the
    call changes nothing. *)
Theorem account_address_is_first
    (provider : nat -> keypair) (name : string) (w w' w'' : world) (a v : pyval) :
  Str.mem "/" name = false ->
  Wallet.get_account_address provider name w = (Ok a, w') ->
  Wallet.get_addresses_by_account provider name w' = (Ok v, w'') ->
  (exists rest, v = PList (a :: rest)) /\ w'' = w'.
Proof.
  intros Hm H H2. unfold Wallet.get_account_address in H.
  apply bind_ok_inv in H as [acc [w1 [E H]]].
  assert (Hacc := get_account_accepted provider name w w1 acc E).
  destruct (get_account_post provider name w w1 acc Hm E) as [P1 [j [Hr Hl]]].
  rewrite bind_lift in H.
  destruct (Py.getitem acc (PStr "addresses")) as [l |] eqn:El; [ | discriminate H ].
  rewrite bind_lift in H.
  destruct (Py.getitem l (PInt 0)) as [e |] eqn:Ee; [ | discriminate H ].
  unfold lift in H.
  destruct (Py.getitem e (PInt 0)) as [a0 |] eqn:Ea; [ | discriminate H ].
  injection H as -> ->.
  assert (Hll : loaded l).
  { assert (Hla : loaded acc) by (rewrite <- Hl; apply load_loaded).
    destruct acc as [| b | z | s | l0 | items]; try (cbn in El; discriminate El).
    cbn in El. destruct (Py.dict_get items (KStr "addresses")) as [x |] eqn:Eg;
      [ | discriminate El ].
    injection El as ->. exact (loaded_value items _ l Hla Eg). }
  destruct (first_of_iter l e Hll Ee) as [rest Hit].
  unfold Wallet.get_addresses_by_account in H2. rewrite <- P1 in Hr.
  rewrite (bind_ok _ (get_account_stored provider name w' j Hacc Hr)), Hl in H2.
  rewrite bind_lift, El, bind_lift, Hit in H2. cbv beta match in H2.
  rewrite bind_lift, Ea in H2. unfold bind at 1 in H2.
  rewrite addresses_tail in H2.
  destruct (first_fields rest) as [rs | x]; [ | discriminate H2 ].
  injection H2 as <- <-. split; [ exists rs; reflexivity | reflexivity ].
Qed.

Lemma account_address_is_first_witness :
  (exists rest, PList [PStr "A"] = PList (PStr "A" :: rest))
  /\ Demo.wallet Demo.one_default (PDict [(KStr "A", PStr "")])
     = Demo.wallet Demo.one_default (PDict [(KStr "A", PStr "")]).
Proof.
  apply (account_address_is_first Demo.provider ""
           (Demo.wallet Demo.one_default (PDict [(KStr "A", PStr "")]))).
  - reflexivity.
  - vm_compute. reflexivity.
  - vm_compute. reflexivity.
Defined.

(** ** The store across a restart *)

(** X10: the reverse index survives a restart.  When the reverse index in
    memory is a value JSON can carry (string keys, no two equal),
    [_save_rindex] has written it, and [index.json] is a readable
    document, [load] on the state left reads the same reverse index back,
    takes the index from [index.json], and leaves the disk alone. *)
Theorem rindex_survives_reload (w w1 : world) (u : unit) (j : json) :
  loaded (address_to_account w) ->
  Fs.read (path w ++ "/index.json") (disk w) = Ok (Doc false j) ->
  Wallet._save_rindex w = (Ok u, w1) ->
  exists w2,
    Wallet.load w1 = (Ok tt, w2)
    /\ address_to_account w2 = address_to_account w
    /\ index w2 = Json.load j
    /\ disk w2 = disk w1 /\ path w2 = path w.
Proof.
  intros Hl Hidx Hs.
  destruct (save_rindex_ok _ _ _ Hs) as [d' [Hw ->]].
  assert (Hi' : Fs.read (path w ++ "/index.json") d' = Ok (Doc false j)).
  { change (path w ++ "/index.json")%string
      with (path w ++ "/" ++ "index.json")%string in Hidx |- *.
    apply (write_read_other _ _ _ _ _ _ _
             (ltac:(discriminate) : "rindex.json" <> "") eq_refl Hw); [ | exact Hidx ].
    rewrite (components_child (path w) "index.json"
               (ltac:(discriminate) : "index.json" <> "") eq_refl).
    intros E. apply app_inv_head in E. discriminate E. }
  assert (Hr' := read_after_write _ _ _ _ _
                   (ltac:(discriminate) : "rindex.json" <> "") eq_refl Hw).
  exists (set_address_to_account (address_to_account w)
            (set_index (Json.load j) (set_disk d' w))).
  split; [ | destruct w; repeat split ].
  unfold Wallet.load. run. cbn [path disk set_disk].
  rewrite (read_exists _ _ _ Hi'). cbn [negb].
  unfold bind at 1. unfold json_load_from at 1. cbn [disk set_disk]. rewrite Hi'. run.
  unfold try_except, bind, modify, json_load_from.
  replace (disk (set_index (Json.load j) (set_disk d' w))) with d'
    by (destruct w; reflexivity).
  change (path w ++ "/rindex.json")%string
    with (path w ++ "/" ++ "rindex.json")%string.
  rewrite Hr'. rewrite (load_dump _ Hl). reflexivity.
Qed.

Lemma rindex_survives_reload_witness :
  exists w2,
    Wallet.load (snd (Wallet._save_rindex
                        (Demo.wallet Demo.no_rindex (PDict [(KStr "A", PStr "")]))))
    = (Ok tt, w2)
    /\ address_to_account w2 = PDict [(KStr "A", PStr "")].
Proof.
  destruct (rindex_survives_reload
              (Demo.wallet Demo.no_rindex (PDict [(KStr "A", PStr "")]))
              (snd (Wallet._save_rindex
                      (Demo.wallet Demo.no_rindex (PDict [(KStr "A", PStr "")]))))
              tt
              (JObj [("version", JStr "0.0.3"); ("encrypted", JBool false)]))
    as [w2 [H1 [H2 _]]].
  - constructor.
    + repeat constructor. exists "A". reflexivity.
    + repeat constructor.
    + vm_compute. auto.
  - reflexivity.
  - vm_compute. reflexivity.
  - exists w2. split; [ exact H1 | exact H2 ].
Defined.

(** ** A new store *)

Lemma mkdir_makes_empty (p : string) (d d1 : listing) :
  Fs.mkdir p d = Ok d1 ->
  p <> "" /\ Fs.exists_ p d = false
  /\ Fs.lookup (Fs.components p) d1 = Some (Dir [])
  /\ (forall q c, Fs.file_at q c d -> Fs.file_at q c d1).
Proof.
  unfold Fs.mkdir, Fs.at_parent. destruct (String.eqb p "") eqn:Ep; [ discriminate | ].
  destruct (Fs.components p) as [| a cs] eqn:Ec; [ discriminate | ].
  destruct (Fs.modify _ _ d) as [d' |] eqn:Em; [ | discriminate ].
  intros H. injection H as ->.
  assert (Hcs : a :: cs = removelast (a :: cs) ++ [last (a :: cs) ""])
    by (apply app_removelast_last; discriminate).
  set (rl := removelast (a :: cs)) in *. set (n := last (a :: cs) "") in *.
  destruct (modify_lookup _ _ _ _ Em) as [es [es' [L [Hf L']]]].
  unfold Fs.add_dir in Hf. destruct (Fs.find n es) eqn:Efind; [ discriminate | ].
  injection Hf as <-.
  split; [ apply String.eqb_neq; exact Ep | ].
  split; [ unfold Fs.exists_, Fs.stat; rewrite Ep, Ec, Hcs, lookup_snoc, L, Efind;
           reflexivity | ].
  split; [ rewrite Hcs, lookup_snoc, L', (find_app_new _ _ _ Efind); reflexivity | ].
  intros q c. apply (modify_grows _ _ (add_dir_grows n) _ _ q c Em).
Qed.

(** What a write into a directory leaves there. *)
Lemma write_into (p n : string) (c : content) (d d' es : listing) :
  n <> "" -> Str.mem "/" n = false ->
  Fs.lookup (Fs.components p) d = Some (Dir es) ->
  Fs.find n es = None ->
  Fs.write (p ++ "/" ++ n) c d = Ok d' ->
  Fs.lookup (Fs.components p) d' = Some (Dir (es ++ [(n, File c)]))
  /\ (forall q c', Fs.file_at q c' d -> Fs.file_at q c' d').
Proof.
  intros Hne Hm L Hf H. rewrite (write_child p n c d Hne Hm) in H.
  destruct (Fs.modify (Fs.components p) (Fs.put n c) d) as [d1 |] eqn:E;
    [ | discriminate H ].
  injection H as ->.
  destruct (modify_lookup _ _ _ _ E) as [es0 [es' [L0 [Hp L']]]].
  rewrite L in L0. injection L0 as <-.
  assert (Hput : forall l, Fs.find n l = None -> Fs.put n c l = Some (l ++ [(n, File c)])).
  { induction l as [| [m x] r IH]; [ reflexivity | ]. cbn.
    destruct (String.eqb m n); [ discriminate | ].
    intros G. rewrite (IH G). reflexivity. }
  rewrite (Hput es Hf) in Hp. injection Hp as <-.
  split; [ exact L' | ].
  intros q c' Hq. destruct (modify_put_keeps _ _ _ _ _ q c' E Hq) as [K | [_ K]];
    [ exact K | ].
  rewrite lookup_snoc, L, Hf in K. discriminate K.
Qed.

(** X11: a verbose constructor makes the store.  When [os.mkdir] can make
    the directory (so it does not exist yet), [Wallet(path, verbose=True)]
    ends without error; the directory then holds [index.json] with the
    version and the encryption flag and [rindex.json] with the empty
    mapping, both are in memory as well, and every regular file of the disk
    is still there with its content. *)
Theorem init_verbose_makes_store (p : string) (d d1 : listing) :
  Fs.mkdir p d = Ok d1 ->
  exists w',
    Wallet.__init__ p true d = (Ok tt, w')
    /\ path w' = p
    /\ index w' = PDict [(KStr "version", PStr "0.0.3"); (KStr "encrypted", PBool false)]
    /\ address_to_account w' = PDict []
    /\ Fs.read (p ++ "/index.json") (disk w')
       = Ok (Doc false (JObj [("version", JStr "0.0.3"); ("encrypted", JBool false)]))
    /\ Fs.read (p ++ "/rindex.json") (disk w') = Ok (Doc false (JObj []))
    /\ (forall q c, Fs.file_at q c d -> Fs.file_at q c (disk w')).
Proof.
  intros Hmk. destruct (mkdir_makes_empty p d d1 Hmk) as [Hp [Hex [Hl Hkeep]]].
  set (ci := Doc false (JObj [("version", JStr "0.0.3"); ("encrypted", JBool false)])).
  assert (Hni : "index.json" <> "") by discriminate.
  assert (Hnr : "rindex.json" <> "") by discriminate.
  destruct (write_ok p "index.json" ci d1 [] Hni eq_refl Hl) as [d2 Hw2];
    [ intros sub; discriminate | ].
  destruct (write_into p "index.json" ci d1 d2 [] Hni eq_refl Hl eq_refl Hw2)
    as [Hl2 Hkeep2].
  destruct (write_ok p "rindex.json" (Doc false (JObj [])) d2 _ Hnr eq_refl Hl2)
    as [d3 Hw3]; [ intros sub; discriminate | ].
  destruct (write_into p "rindex.json" (Doc false (JObj [])) d2 d3 _ Hnr eq_refl Hl2
              eq_refl Hw3) as [Hl3 Hkeep3].
  eexists. split; [ | split; [ | split; [ | split; [ | split; [ | split ] ] ] ] ].
  - unfold Wallet.__init__.
    unfold os_path_exists. rewrite bind_gets. cbn [disk]. rewrite Hex. cbn [negb when].
    rewrite bind_assoc, bind_gets. cbn [verbose when].
    unfold bind at 1. unfold os_mkdir at 1. cbn [disk]. rewrite Hmk.
    rewrite bind_modify.
    unfold Wallet.load. rewrite bind_gets. cbv zeta. cbn [path set_key set_disk].
    unfold os_path_exists. rewrite bind_gets. cbn [disk set_key set_disk].
    change (p ++ "/index.json")%string with (p ++ "/" ++ "index.json")%string.
    unfold Fs.exists_. rewrite (stat_child p "index.json" d1 Hni eq_refl).
    rewrite lookup_snoc, Hl. cbn [Fs.find negb].
    rewrite bind_gets. cbn [verbose set_key set_disk when].
    rewrite bind_modify, bind_gets.
    cbn [index set_index set_key set_disk].
    unfold bind at 1. unfold json_dump_to at 1.
    cbn [disk set_index set_key set_disk].
    change (Doc false (Json.dump (PDict [(KStr "version", PStr __version__);
                                         (KStr "encrypted", PBool false)])))
      with ci.
    rewrite Hw2. rewrite bind_modify.
    rewrite save_rindex_run.
    cbn [path disk address_to_account set_address_to_account set_disk set_index set_key].
    change (p ++ "/rindex.json")%string with (p ++ "/" ++ "rindex.json")%string.
    change (Doc false (Json.dump (PDict []))) with (Doc false (JObj [])).
    rewrite Hw3. reflexivity.
  - reflexivity.
  - reflexivity.
  - reflexivity.
  - cbn [disk set_disk].
    change (p ++ "/index.json")%string with (p ++ "/" ++ "index.json")%string.
    apply (write_read_other _ _ _ _ _ _ _ Hnr eq_refl Hw3).
    + rewrite (components_child p "index.json" Hni eq_refl).
      intros E. apply app_inv_head in E. discriminate E.
    + exact (read_after_write _ _ _ _ _ Hni eq_refl Hw2).
  - cbn [disk set_disk]. exact (read_after_write _ _ _ _ _ Hnr eq_refl Hw3).
  - intros q c Hq. cbn [disk set_disk]. apply Hkeep3, Hkeep2, Hkeep, Hq.
Qed.

Lemma init_verbose_makes_store_witness :
  exists w',
    Wallet.__init__ "w" true [] = (Ok tt, w')
    /\ Fs.read "w/rindex.json" (disk w') = Ok (Doc false (JObj [])).
Proof.
  destruct (init_verbose_makes_store "w" [] [("w", Dir [])] eq_refl)
    as [w' [H1 [_ [_ [_ [_ [H2 _]]]]]]].
  exists w'. split; [ exact H1 | exact H2 ].
Defined.

(** ** What the methods leave alone *)

Lemma keeps_refl (ps : list (list string)) (w : world) : keeps_but ps w w.
Proof. split; [ reflexivity | intros q c _ H; exact H ]. Qed.

Lemma keeps_trans (ps : list (list string)) (w w1 w2 : world) :
  keeps_but ps w w1 -> keeps_but ps w1 w2 -> keeps_but ps w w2.
Proof.
  intros [P1 K1] [P2 K2]. split; [ congruence | ].
  intros q c Hq H. exact (K2 q c Hq (K1 q c Hq H)).
Qed.

Lemma keeps_same (ps : list (list string)) (w w' : world) :
  disk w' = disk w -> path w' = path w -> keeps_but ps w w'.
Proof. intros Hd Hp. split; [ exact Hp | ]. intros q c _ H. rewrite Hd. exact H. Qed.

Lemma keeps_mkdir (ps : list (list string)) (p : string) (w : world) :
  keeps_but ps w (snd (os_mkdir p w)).
Proof.
  unfold os_mkdir. destruct (Fs.mkdir p (disk w)) as [d1 | e] eqn:E; cbn [snd];
    [ | apply keeps_refl ].
  destruct (mkdir_makes_empty _ _ _ E) as [_ [_ [_ K]]].
  split; [ destruct w; reflexivity | ].
  intros q c _ H. cbn [disk set_disk]. destruct w; exact (K q c H).
Qed.

Lemma keeps_write (ps : list (list string)) (v : pyval) (parent n : string) (w : world) :
  n <> "" -> Str.mem "/" n = false ->
  In (Fs.components parent ++ [n]) ps ->
  keeps_but ps w (snd (json_dump_to v (parent ++ "/" ++ n) w)).
Proof.
  intros Hne Hm Hin. unfold json_dump_to.
  destruct (Fs.write _ _ (disk w)) as [d1 | e] eqn:E; cbn [snd]; [ | apply keeps_refl ].
  split; [ destruct w; reflexivity | ].
  intros q c Hq H. rewrite (write_child parent n _ _ Hne Hm) in E.
  destruct (Fs.modify (Fs.components parent) _ (disk w)) as [d2 |] eqn:Em;
    [ | discriminate E ].
  injection E as ->.
  destruct (modify_put_keeps _ _ _ _ _ q c Em H) as [K | [-> _]].
  - destruct w; exact K.
  - contradiction.
Qed.

Lemma keeps_save_rindex (ps : list (list string)) (w : world) :
  In (Fs.components (path w) ++ ["rindex.json"]) ps ->
  keeps_but ps w (snd (Wallet._save_rindex w)).
Proof.
  intros Hin. unfold Wallet._save_rindex. rewrite bind_gets. cbv zeta. rewrite bind_gets.
  change (path w ++ "/rindex.json")%string with (path w ++ "/" ++ "rindex.json")%string.
  apply keeps_write; [ discriminate | reflexivity | exact Hin ].
Qed.

Lemma keeps_get_account
    (ps : list (list string)) (provider : nat -> keypair) (name : string) (w : world) :
  Str.mem "/" name = false ->
  In (Fs.components (fst (Wallet._get_account_paths (path w) name))) ps ->
  In (Fs.components (path w) ++ ["rindex.json"]) ps ->
  keeps_but ps w (snd (Wallet._get_account provider name w)).
Proof.
  intros Hm Hf Hr. unfold Wallet._get_account.
  apply bind_inv; [ rewrite check_pure; apply keeps_refl | ].
  intros v w' E _. rewrite (check_ok _ _ _ _ E). clear v w' E.
  rewrite bind_gets. cbv zeta.
  destruct (get_paths_shape (path w) name Hm) as [parent [n [Hp [Hne [Hmn _]]]]].
  rewrite Hp in Hf |- *. cbn [fst snd] in Hf |- *.
  rewrite (components_child parent n Hne Hmn) in Hf.
  unfold os_path_isfile. rewrite bind_gets.
  destruct (Fs.isfile (parent ++ "/" ++ n) (disk w)); cbn [negb].
  - rewrite load_from_pure. apply keeps_refl.
  - unfold Wallet.key_generate. rewrite bind_modify, bind_gets.
    set (wk := set_key (KeyM.generate provider (key w)) w).
    assert (Kk : keeps_but ps w wk) by (apply keeps_same; reflexivity).
    unfold os_path_exists. rewrite bind_gets.
    apply bind_inv.
    { apply (keeps_trans ps w wk _ Kk).
      destruct (negb _); [ apply keeps_mkdir | apply keeps_refl ]. }
    intros u wm _ Km. apply bind_inv.
    { apply (keeps_trans ps w wm _ Km). apply keeps_write; assumption. }
    intros u2 wd _ Kd. rewrite bind_gets, bind_lift.
    destruct (Py.setitem _ _ _) as [a2a' | e]; [ | exact Kd ].
    rewrite bind_modify. apply bind_inv; [ | intros u3 w3 _ K3; exact K3 ].
    apply (keeps_trans ps w wd _ Kd).
    apply (keeps_trans ps wd (set_address_to_account a2a' wd));
      [ apply keeps_same; reflexivity | ].
    apply keeps_save_rindex. cbn [path set_address_to_account].
    destruct Kd as [-> _]. exact Hr.
Qed.

Lemma keeps_save_account
    (ps : list (list string)) (v : pyval) (name : string) (w : world) :
  Str.mem "/" name = false -> name <> "default" ->
  In (Fs.components (fst (Wallet._get_account_paths (path w) name))) ps ->
  keeps_but ps w (snd (Wallet._save_account v name w)).
Proof.
  intros Hm Hnd Hf. unfold Wallet._save_account.
  apply bind_inv; [ rewrite check_pure; apply keeps_refl | ].
  intros v0 w' E _. rewrite (check_ok _ _ _ _ E). clear v0 w' E.
  rewrite bind_gets. cbv zeta. rewrite (save_paths_same _ name Hnd).
  destruct (get_paths_shape (path w) name Hm) as [parent [n [Hp [Hne [Hmn _]]]]].
  rewrite Hp in Hf |- *. cbn [fst snd] in Hf |- *.
  rewrite (components_child parent n Hne Hmn) in Hf.
  unfold os_path_exists. rewrite bind_gets.
  apply bind_inv.
  { destruct (negb _); [ apply keeps_mkdir | apply keeps_refl ]. }
  intros u wm _ Km. apply bind_inv; [ | intros u2 w2 _ K2; exact K2 ].
  apply (keeps_trans ps w wm _ Km). apply keeps_write; assumption.
Qed.

(** X12: [get_new_address] writes two files only.  For a name without [/]
    other than [default], whether the call returns or raises, every regular
    file of the disk other than the account's own file and [rindex.json] is
    there afterwards with the content it had. *)
Theorem new_address_touches_two_files
    (provider : nat -> keypair) (name : string) (w : world)
    (q : list string) (c : content) :
  Str.mem "/" name = false -> name <> "default" ->
  Fs.file_at q c (disk w) ->
  q <> Fs.components (fst (Wallet._get_account_paths (path w) name)) ->
  q <> Fs.components (path w) ++ ["rindex.json"] ->
  Fs.file_at q c (disk (snd (Wallet.get_new_address provider name w))).
Proof.
  intros Hm Hnd Hq Hqa Hqr.
  set (ps := [Fs.components (fst (Wallet._get_account_paths (path w) name));
              Fs.components (path w) ++ ["rindex.json"]]).
  assert (K : keeps_but ps w (snd (Wallet.get_new_address provider name w))).
  { unfold Wallet.get_new_address.
    apply bind_inv.
    { apply keeps_get_account; [ exact Hm | left; reflexivity | right; left; reflexivity ]. }
    intros ad w1 _ K1. unfold Wallet.key_generate. rewrite bind_modify, bind_gets.
    set (wk := set_key (KeyM.generate provider (key w1)) w1).
    assert (Kk : keeps_but ps w wk).
    { apply (keeps_trans ps w w1 _ K1). apply keeps_same; reflexivity. }
    rewrite bind_lift. destruct (Py.getitem ad _) as [l | e]; [ | exact Kk ].
    rewrite bind_lift. destruct (Py.append l _) as [l' | e]; [ | exact Kk ].
    rewrite bind_lift. destruct (Py.setitem ad _ _) as [ad' | e]; [ | exact Kk ].
    assert (Pk : path wk = path w) by (destruct Kk as [P _]; exact P).
    apply bind_inv.
    { apply (keeps_trans ps w wk _ Kk).
      apply keeps_save_account; [ exact Hm | exact Hnd | ].
      rewrite Pk. left. reflexivity. }
    intros b w2 _ K2. rewrite bind_gets, bind_lift.
    destruct (Py.setitem (address_to_account w2) _ _) as [a2a' | e]; [ | exact K2 ].
    rewrite bind_modify. apply bind_inv; [ | intros u3 w3 _ K3; exact K3 ].
    apply (keeps_trans ps w w2 _ K2).
    apply (keeps_trans ps w2 (set_address_to_account a2a' w2));
      [ apply keeps_same; reflexivity | ].
    apply keeps_save_rindex. cbn [path set_address_to_account].
    destruct K2 as [-> _]. right. left. reflexivity. }
  destruct K as [_ K]. apply K; [ | exact Hq ].
  intros [E | [E | []]]; [ exact (Hqa (eq_sym E)) | exact (Hqr (eq_sym E)) ].
Qed.

Lemma new_address_touches_two_files_witness :
  Fs.file_at ["w"; "default.json"] (Demo.record [Demo.entry "A" "PRIV" "PUB"])
    (disk (snd (Wallet.get_new_address Demo.provider "ab"
                  (Demo.wallet Demo.one_default (PDict [(KStr "A", PStr "")]))))).
Proof.
  apply (new_address_touches_two_files Demo.provider "ab"
           (Demo.wallet Demo.one_default (PDict [(KStr "A", PStr "")]))).
  - reflexivity.
  - discriminate.
  - exists [("index.json", File Demo.index_doc);
            ("rindex.json", File (Doc false (JObj [("A", JStr "")])));
            ("default.json", File (Demo.record [Demo.entry "A" "PRIV" "PUB"]))].
    split; [ left; reflexivity | right; right; left; reflexivity ].
  - intros E. vm_compute in E. discriminate E.
  - intros E. vm_compute in E. discriminate E.
Defined.

Lemma list_accounts_run (w : world) :
  Wallet.list_accounts w
  = (Ok (PDict (Py.dict_of_pairs
                  (map (fun a : string * pyval => (KStr (fst a), PInt (-1)))
                       (Wallet.yields (Fs.walk (path w) (disk w)))))), w).
Proof. reflexivity. Qed.

(** X13: [reindex] rewrites [rindex.json] and nothing else: every other
    regular file keeps its content, and [list_accounts] gives on the state
    after [reindex] what it gave before. *)
Theorem reindex_keeps_accounts (w : world) :
  let w' := snd (Wallet.reindex w) in
  fst (Wallet.list_accounts w') = fst (Wallet.list_accounts w)
  /\ (forall q c,
        q <> Fs.components (path w) ++ ["rindex.json"] ->
        Fs.file_at q c (disk w) -> Fs.file_at q c (disk w')).
Proof.
  cbv zeta. rewrite reindex_run. cbv zeta.
  set (w0 := set_address_to_account (PDict []) w).
  set (l := Wallet.yields (Fs.walk (path w) (disk w))).
  destruct (on_index_for_each l Wallet.reindex_account on_index_reindex_account)
    as [Hfr _].
  specialize (Hfr w0).
  set (wl := snd (for_each l Wallet.reindex_account w0)) in *.
  assert (Hd : disk wl = disk w) by (rewrite Hfr; reflexivity).
  assert (Hp : path wl = path w) by (rewrite Hfr; reflexivity).
  destruct (Fs.write (path w ++ "/rindex.json") _ (disk w)) as [d | e] eqn:Ew; cbn [snd].
  - split.
    + rewrite !list_accounts_run. cbn [fst path disk set_disk].
      rewrite Hp, (yields_after_save _ _ _ _ Ew). reflexivity.
    + intros q c Hq H. cbn [disk set_disk].
      change (path w ++ "/rindex.json")%string
        with (path w ++ "/" ++ "rindex.json")%string in Ew.
      rewrite (write_child (path w) "rindex.json" _ _
                 (ltac:(discriminate) : "rindex.json" <> "") eq_refl) in Ew.
      destruct (Fs.modify (Fs.components (path w)) _ (disk w)) as [d2 |] eqn:Em;
        [ | discriminate Ew ].
      injection Ew as ->.
      destruct (modify_put_keeps _ _ _ _ _ q c Em H) as [K | [E _]];
        [ exact K | contradiction ].
  - split.
    + rewrite !list_accounts_run. cbn [fst].
      rewrite Hp, Hd. reflexivity.
    + intros q c _ H. rewrite Hd. exact H.
Qed.

(** ** Saving and reading an account *)

Lemma save_account_accepted (v : pyval) (name : string) (w w' : world) (b : bool) :
  Wallet._save_account v name w = (Ok b, w') -> accepted_name name.
Proof.
  unfold Wallet._save_account. intros H.
  destruct (check_outcome name w) as [[u [_ Hn]] | [E _]].
  - destruct Hn as [-> | Hn]; [ left; reflexivity | right; exact Hn ].
  - rewrite (bind_raise _ E) in H. discriminate H.
Qed.

(** X14: what [_save_account] saved, [_get_account] reads back.  For a name
    without [/] other than [default] and a record JSON can carry: once
    [_save_account] has returned, [_get_account] returns that record and
    changes nothing. *)
Theorem saved_account_is_read_back
    (provider : nat -> keypair) (name : string) (v : pyval) (w w' : world) (b : bool) :
  Str.mem "/" name = false -> name <> "default" ->
  loaded v ->
  Wallet._save_account v name w = (Ok b, w') ->
  Wallet._get_account provider name w' = (Ok v, w').
Proof.
  intros Hm Hnd Hl H.
  destruct (get_paths_shape (path w) name Hm) as [parent [n [Hp [Hne [Hmn _]]]]].
  assert (Hps : Wallet._save_account_paths (path w) name
                = ((parent ++ "/" ++ n)%string, parent))
    by (rewrite (save_paths_same _ name Hnd); exact Hp).
  destruct (save_account_ok v name w w' b parent n Hps Hne Hmn H) as [P [_ [_ [_ R]]]].
  rewrite <- (load_dump v Hl) at 1.
  apply get_account_stored; [ exact (save_account_accepted v name w w' b H) | ].
  rewrite P, Hp. exact R.
Qed.

Lemma saved_account_is_read_back_witness :
  Wallet._get_account Demo.provider "ab"
    (snd (Wallet._save_account (PDict [(KStr "addresses", PList [])]) "ab"
            (Demo.wallet Demo.empty_dir (PDict []))))
  = (Ok (PDict [(KStr "addresses", PList [])]),
     snd (Wallet._save_account (PDict [(KStr "addresses", PList [])]) "ab"
            (Demo.wallet Demo.empty_dir (PDict [])))).
Proof.
  apply (saved_account_is_read_back Demo.provider "ab" _
           (Demo.wallet Demo.empty_dir (PDict [])) _ true).
  - reflexivity.
  - discriminate.
  - constructor.
    + repeat constructor. exists "addresses". reflexivity.
    + repeat constructor.
    + vm_compute. auto.
  - vm_compute. reflexivity.
Defined.

(** ** The files of two accounts *)

Lemma length_append (a b : string) :
  String.length (a ++ b) = String.length a + String.length b.
Proof. induction a as [| x a IH]; cbn; [ reflexivity | rewrite IH; reflexivity ]. Qed.

Lemma append_inv_tail (a b c : string) : (a ++ c = b ++ c)%string -> a = b.
Proof.
  revert b. induction a as [| x a IH]; intros [| y b] H.
  - reflexivity.
  - exfalso. apply (f_equal String.length) in H.
    cbn in H. rewrite length_append in H. lia.
  - exfalso. apply (f_equal String.length) in H.
    cbn in H. rewrite length_append in H. lia.
  - cbn in H. injection H as -> H. f_equal. exact (IH b H).
Qed.

Lemma accepted_plain (n : string) :
  accepted_name n -> Str.mem "/" n = false -> n <> "" -> plain_name n.
Proof.
  intros [-> | [Hlen Hb]] Hm Hne; [ congruence | ].
  split; [ exact Hlen | split; assumption ].
Qed.

Lemma account_file_components (p n : string) :
  accepted_name n -> Str.mem "/" n = false ->
  (String.eqb "" n || String.eqb "default" n = true
   /\ Fs.components (fst (Wallet._get_account_paths p n))
      = Fs.components p ++ ["default.json"])
  \/ (String.eqb "" n || String.eqb "default" n = false
      /\ Fs.components (fst (Wallet._get_account_paths p n))
         = Fs.components p ++ [Str.take 2 n; (n ++ ".json")%string]).
Proof.
  intros Ha Hm. unfold Wallet._get_account_paths.
  destruct (String.eqb "" n || String.eqb "default" n) eqn:E; cbn [fst].
  - left. split; [ reflexivity | ].
    change (p ++ "/default.json")%string with (p ++ "/" ++ "default.json")%string.
    apply components_child; [ discriminate | reflexivity ].
  - right. split; [ reflexivity | ].
    apply Bool.orb_false_iff in E as [E1 _]. apply String.eqb_neq in E1.
    assert (Hpl : plain_name n) by (apply accepted_plain; congruence).
    destruct (shard_names n Hpl) as [[Ht Hmt] [Hf Hmf]].
    unfold Wallet.shard_fname, Wallet.shard_path.
    rewrite (components_child _ _ Hf Hmf), (components_child _ _ Ht Hmt).
    rewrite <- app_assoc. reflexivity.
Qed.

(** X15: two accounts never share a file.  For accepted names without [/]:
    when the account files of two names are the same place of the disk,
    the names are equal, or each is the empty name or [default] (the two
    names of the default account). *)
Theorem accounts_do_not_share_files (p n1 n2 : string) :
  accepted_name n1 -> accepted_name n2 ->
  Str.mem "/" n1 = false -> Str.mem "/" n2 = false ->
  Fs.components (fst (Wallet._get_account_paths p n1))
  = Fs.components (fst (Wallet._get_account_paths p n2)) ->
  n1 = n2 \/ ((n1 = "" \/ n1 = "default") /\ (n2 = "" \/ n2 = "default")).
Proof.
  intros Ha1 Ha2 Hm1 Hm2 H.
  assert (Hdef : forall n, String.eqb "" n || String.eqb "default" n = true ->
                           n = "" \/ n = "default").
  { intros n E. apply Bool.orb_true_iff in E as [E | E]; apply String.eqb_eq in E;
      [ left | right ]; congruence. }
  destruct (account_file_components p n1 Ha1 Hm1) as [[E1 C1] | [E1 C1]];
    destruct (account_file_components p n2 Ha2 Hm2) as [[E2 C2] | [E2 C2]];
    rewrite C1, C2 in H; apply app_inv_head in H.
  - right. split; apply Hdef; assumption.
  - discriminate H.
  - discriminate H.
  - left. injection H as _ H. exact (append_inv_tail _ _ _ H).
Qed.

Lemma accounts_do_not_share_files_witness :
  "" = "default" \/ (("" = "" \/ "" = "default") /\ ("default" = "" \/ "default" = "default")).
Proof.
  apply (accounts_do_not_share_files "w" "" "default").
  - left. reflexivity.
  - right. split; [ simpl; lia | reflexivity ].
  - reflexivity.
  - reflexivity.
  - reflexivity.
Defined.

(** ** The keys of a new address *)

(** What a call of [get_new_address] that returned has done. *)
Lemma new_address_post
    (provider : nat -> keypair) (name : string) (w w' : world) (a : string) :
  Str.mem "/" name = false -> name <> "default" ->
  Wallet.get_new_address provider name w = (Ok a, w') ->
  exists w1 items l0,
    let k := KeyM.generate provider (key w1) in
    let new := PDict (Py.dict_set items (KStr "addresses")
                        (PList (l0 ++ [KeyM.as_list k]))) in
    Wallet._get_account provider name w = (Ok (PDict items), w1)
    /\ Py.dict_get items (KStr "addresses") = Some (PList l0)
    /\ a = address k
    /\ accepted_name name
    /\ path w' = path w
    /\ Fs.read (fst (Wallet._get_account_paths (path w') name)) (disk w')
       = Ok (Doc false (Json.dump new))
    /\ Json.load (Json.dump new) = new
    /\ Py.getitem new (PStr "addresses") = Ok (PList (l0 ++ [KeyM.as_list k]))
    /\ Py.getitem (address_to_account w') (PStr a) = Ok (PStr name)
    /\ key w' = k.
Proof.
  intros Hm Hnd H. unfold Wallet.get_new_address in H.
  apply bind_ok_inv in H as [ad [w1 [E1 H]]].
  assert (Hacc := get_account_accepted provider name w w1 ad E1).
  destruct (get_account_post provider name w w1 ad Hm E1) as [P1 [j [Hr Hl]]].
  destruct (get_paths_shape (path w) name Hm) as [parent [n [Hp [Hne [Hmn Haf]]]]].
  rewrite Hp in Hr. cbn [fst] in Hr.
  unfold Wallet.key_generate in H. rewrite bind_modify, bind_gets in H.
  set (wk := set_key (KeyM.generate provider (key w1)) w1) in *.
  rewrite bind_lift in H.
  destruct (Py.getitem ad (PStr "addresses")) as [l1 | e] eqn:El; [ | discriminate H ].
  rewrite bind_lift in H.
  destruct (Py.append l1 (KeyM.as_list (key wk))) as [l' | e] eqn:Eap;
    [ | discriminate H ].
  destruct l1 as [| | | | l0 |]; try discriminate Eap. cbn in Eap. injection Eap as <-.
  rewrite bind_lift in H.
  destruct (Py.setitem ad (PStr "addresses") _) as [ad' | e] eqn:Eset;
    [ | discriminate H ].
  destruct ad as [| | | | lst | items]; try discriminate Eset; try discriminate El.
  cbn in Eset. injection Eset as <-. cbn in El.
  destruct (Py.dict_get items (KStr "addresses")) as [x |] eqn:Eg; [ | discriminate El ].
  injection El as ->.
  assert (Hps : Wallet._save_account_paths (path wk) name
                = ((parent ++ "/" ++ n)%string, parent)).
  { rewrite (save_paths_same _ name Hnd). change (path wk) with (path w1).
    rewrite P1. exact Hp. }
  apply bind_ok_inv in H as [b [w2 [E2 H]]].
  destruct (save_account_ok _ name wk w2 b parent n Hps Hne Hmn E2)
    as [P2 [A2 [K2 [_ R2]]]].
  rewrite bind_gets, bind_lift in H.
  destruct (Py.setitem (address_to_account w2) _ _) as [a2a' | e] eqn:Es;
    [ | discriminate H ].
  rewrite bind_modify in H.
  apply bind_ok_inv in H as [u3 [w3 [E3 H]]].
  destruct (save_rindex_ok _ _ _ E3) as [d3 [Hw3 ->]].
  cbn [ret] in H. injection H as <- <-.
  assert (Pw : path w2 = path w).
  { rewrite P2. change (path wk) with (path w1). exact P1. }
  cbn [path set_address_to_account] in Hw3.
  destruct (appended_record j items l0 (KeyM.as_list (key wk)) Hl Eg
              ltac:(repeat constructor)) as [Hld Hga].
  cbv zeta in Hld, Hga.
  exists w1, items, l0. cbv zeta.
  split; [ exact E1 | ]. split; [ exact Eg | ]. split; [ reflexivity | ].
  split; [ exact Hacc | ]. split; [ exact Pw | ].
  split; [ | split; [ exact Hld | split; [ exact Hga | ] ] ].
  - cbn [path disk set_disk set_address_to_account]. rewrite Pw, Hp. cbn [fst].
    apply (write_read_other _ _ _ _ _ _ _
             (ltac:(discriminate) : "rindex.json" <> "") eq_refl Hw3); [ | exact R2 ].
    rewrite Pw, (components_child parent n Hne Hmn).
    destruct Haf as [_ [_ Hx]]. exact Hx.
  - split.
    + cbn [address_to_account set_disk set_address_to_account].
      exact (setitem_getitem_str _ _ _ _ Es).
    + cbn [key set_disk set_address_to_account]. exact K2.
Qed.

Lemma find_keys_skip (a : string) (l0 r : list pyval) (l : list pyval) (w : world) :
  first_fields l0 = Ok l -> ~ In (PStr a) l ->
  Wallet.find_keys a (l0 ++ r) w = Wallet.find_keys a r w.
Proof.
  revert l. induction l0 as [| x t IH]; intros l H Hn; [ reflexivity | ].
  cbn [first_fields fold_right] in H. fold (first_fields t) in H.
  cbn [app Wallet.find_keys]. rewrite bind_lift.
  destruct (Py.getitem x (PInt 0)) as [b | y]; [ | discriminate H ].
  destruct (first_fields t) as [rs | y]; [ | discriminate H ].
  injection H as <-.
  destruct (Py.eq_str b a) eqn:Eb.
  - exfalso. apply Hn. left. exact (eq_str_true b a Eb).
  - apply (IH rs eq_refl). intros Hin. apply Hn. right. exact Hin.
Qed.

(** X16: the keys of a new address are found.  For a name without [/]
    other than [default]: when [get_addresses_by_account] gave the list [l]
    before, [get_new_address] returned [a], and [a] is not in [l], then on
    the state after, the key of the wallet has the address [a], and
    [_get_keys_for_address] returns the entry [get_new_address] appended
    for it, the [as_list] of that key, and changes nothing. *)
Theorem new_address_keys_found
    (provider : nat -> keypair) (name : string) (w w0 w' : world)
    (l : list pyval) (a : string) :
  Str.mem "/" name = false -> name <> "default" ->
  Wallet.get_addresses_by_account provider name w = (Ok (PList l), w0) ->
  Wallet.get_new_address provider name w = (Ok a, w') ->
  ~ In (PStr a) l ->
  address (key w') = a
  /\ Wallet._get_keys_for_address provider a w' = (Ok (KeyM.as_list (key w')), w').
Proof.
  intros Hm Hnd H0 H Hnew.
  destruct (new_address_post provider name w w' a Hm Hnd H)
    as [w1 [items [l0 [E1 [Eg [Ha [Hacc [Pw [Hr [Hld [Hga [Hidx Hkey]]]]]]]]]]]].
  cbv zeta in *.
  set (k := KeyM.generate provider (key w1)) in *.
  unfold Wallet.get_addresses_by_account in H0. rewrite (bind_ok _ E1) in H0.
  rewrite bind_lift in H0. cbn [Py.getitem Py.to_key] in H0. rewrite Eg in H0.
  rewrite bind_lift in H0. cbn [Py.iter] in H0. rewrite addresses_tail in H0.
  destruct (first_fields l0) as [rs | x] eqn:Eff; [ | discriminate H0 ].
  injection H0 as <- _.
  rewrite Hkey. split; [ symmetry; exact Ha | ].
  unfold Wallet._get_keys_for_address, try_except.
  rewrite bind_gets, bind_lift, Hidx, bind_gets, bind_lift, Hidx.
  cbn [Wallet._get_account_of].
  rewrite (bind_ok _ (get_account_stored provider name w' _ Hacc Hr)), Hld.
  rewrite bind_lift, Hga, bind_lift. cbn [Py.iter].
  rewrite (find_keys_skip a l0 [KeyM.as_list k] rs w' Eff Hnew).
  cbn [Wallet.find_keys]. rewrite bind_lift.
  change (Py.getitem (KeyM.as_list k) (PInt 0)) with (Ok (PStr (address k))).
  cbn [Py.eq_str]. rewrite <- Ha, String.eqb_refl. reflexivity.
Qed.

Lemma new_address_keys_found_witness :
  address (key (snd (Wallet.get_new_address Demo.provider "ab"
                       (Demo.wallet Demo.empty_account (PDict []))))) = "ADDR0"
  /\ Wallet._get_keys_for_address Demo.provider "ADDR0"
       (snd (Wallet.get_new_address Demo.provider "ab"
               (Demo.wallet Demo.empty_account (PDict []))))
     = (Ok (KeyM.as_list
              (key (snd (Wallet.get_new_address Demo.provider "ab"
                           (Demo.wallet Demo.empty_account (PDict [])))))),
        snd (Wallet.get_new_address Demo.provider "ab"
               (Demo.wallet Demo.empty_account (PDict [])))).
Proof.
  apply (new_address_keys_found Demo.provider "ab"
           (Demo.wallet Demo.empty_account (PDict []))
           (Demo.wallet Demo.empty_account (PDict [])) _ []).
  - reflexivity.
  - discriminate.
  - vm_compute. reflexivity.
  - vm_compute. reflexivity.
  - intros [].
Defined.

(** ** The files the walk finds *)

Lemma files_of_has (n : string) (c : content) (es : listing) :
  In (n, File c) es -> In (n, c) (Fs.files_of es).
Proof.
  intros H. unfold Fs.files_of. apply in_flat_map. exists (n, File c).
  split; [ exact H | left; reflexivity ].
Qed.

Lemma walk_node_complete (q : list string) :
  forall es here n c,
    Fs.lookup (q ++ [n]) es = Some (File c) ->
    In (here ++ q, n, c) (Fs.walk_node here (Dir es)).
Proof.
  induction q as [| m q IH]; intros es here n c H; cbn [Fs.walk_node]; apply in_or_app.
  - left. cbn in H. destruct (Fs.find n es) as [[c0 | sub] |] eqn:Ef; try discriminate H.
    injection H as ->. rewrite app_nil_r. apply in_map_iff. exists (n, c).
    split; [ reflexivity | apply files_of_has, find_in; exact Ef ].
  - right. cbn [app Fs.lookup] in H.
    destruct (Fs.find m es) as [[c0 | sub] |] eqn:Ef.
    + destruct q; discriminate H.
    + apply in_flat_map. exists (m, Dir sub). split; [ apply find_in; exact Ef | ].
      cbn [fst snd]. specialize (IH sub (here ++ [m]) n c H).
      rewrite <- app_assoc in IH. exact IH.
    + discriminate H.
Qed.

Lemma lookup_app (cs : list string) :
  forall q d x,
    q <> [] -> Fs.lookup (cs ++ q) d = Some x ->
    exists es, Fs.lookup cs d = Some (Dir es) /\ Fs.lookup q es = Some x.
Proof.
  induction cs as [| m cs IH]; intros q d x Hq H.
  - exists d. split; [ reflexivity | exact H ].
  - cbn [app Fs.lookup] in H |- *.
    destruct (Fs.find m d) as [[c0 | sub] |] eqn:Ef.
    + destruct (cs ++ q) eqn:E; [ | discriminate H ].
      apply app_eq_nil in E as [_ E]. contradiction.
    + exact (IH q sub x Hq H).
    + discriminate H.
Qed.

Lemma read_walk (p : string) (q : list string) (n : string) (c : content) (d : listing) :
  p <> "" ->
  Fs.lookup (Fs.components p ++ q ++ [n]) d = Some (File c) ->
  In (Fs.components p ++ q, n, c) (Fs.walk p d).
Proof.
  intros Hp H.
  destruct (lookup_app (Fs.components p) (q ++ [n]) d _
              ltac:(destruct q; discriminate) H) as [es [L L2]].
  unfold Fs.walk, Fs.stat. apply String.eqb_neq in Hp. rewrite Hp, L.
  apply walk_node_complete. exact L2.
Qed.

(** ** The name of an account file *)

Lemma b64_no_dot (name : string) :
  Str.forallb Wallet.is_b64 name = true -> Str.mem "." name = false.
Proof.
  induction name as [| c r IH]; [ reflexivity | ]. cbn [Str.forallb Str.mem].
  intros H. apply Bool.andb_true_iff in H as [Hc Hr]. rewrite (IH Hr).
  destruct (Ascii.eqb_spec "." c) as [<- | _]; [ discriminate Hc | reflexivity ].
Qed.

Lemma rfind_from_json (name : string) :
  forall i, Str.mem "." name = false ->
            Str.rfind_from "." i (name ++ ".json") = Some (i + String.length name).
Proof.
  induction name as [| c r IH]; intros i H.
  - cbn. rewrite Nat.add_0_r. reflexivity.
  - cbn [Str.mem] in H. apply Bool.orb_false_iff in H as [_ Hr].
    cbn [append Str.rfind_from String.length]. rewrite (IH (S i) Hr).
    f_equal. lia.
Qed.

Lemma substring_prefix (a b : string) : substring 0 (String.length a) (a ++ b) = a.
Proof.
  induction a as [| c r IH]; cbn.
  - destruct b; reflexivity.
  - rewrite IH. reflexivity.
Qed.

Lemma append_inv_head (a b c : string) : (a ++ b = a ++ c)%string -> b = c.
Proof. induction a as [| x a IH]; cbn; intros H; [ exact H | injection H as H; auto ]. Qed.

Lemma splitext_account (name : string) :
  name <> "" -> Str.mem "." name = false ->
  Str.splitext (name ++ ".json") = (name, ".json").
Proof.
  intros Hne Hm.
  assert (Hf : fst (Str.splitext (name ++ ".json")) = name).
  { unfold Str.splitext, Str.rfind. rewrite (rfind_from_json name 0 Hm).
    cbn [Nat.add]. rewrite substring_prefix.
    destruct name as [| c r]; [ congruence | ].
    cbn [Str.mem] in Hm. apply Bool.orb_false_iff in Hm as [Hc _].
    cbn [Str.forallb]. rewrite Hc. reflexivity. }
  assert (Hj := splitext_join (name ++ ".json")). rewrite Hf in Hj.
  apply append_inv_head in Hj.
  destruct (Str.splitext (name ++ ".json")) as [x y]. cbn [fst snd] in Hf, Hj.
  congruence.
Qed.

Lemma parse_account_file (name : string) (bom : bool) (j : json) :
  plain_name name -> name <> "default" ->
  Str.lower name <> "index" -> Str.lower name <> "rindex" ->
  Wallet.parse_file (name ++ ".json") (Doc bom j) = Some (name, Json.load j).
Proof.
  intros Hpl Hnd Hi Hr. destruct Hpl as [Hlen [Hb _]].
  assert (Hne : name <> "") by (intros ->; cbn in Hlen; lia).
  unfold Wallet.parse_file. cbv zeta.
  rewrite (splitext_account name Hne (b64_no_dot name Hb)). cbn [fst snd].
  replace (Str.lower ".json") with ".json" by reflexivity.
  rewrite String.eqb_refl. cbn [negb].
  rewrite lower_append. replace (Str.lower ".json") with ".json" by reflexivity.
  destruct (String.eqb_spec (Str.lower name ++ ".json") "index.json") as [E | _].
  { exfalso. apply Hi. exact (append_inv_tail _ "index" ".json" E). }
  destruct (String.eqb_spec (Str.lower name ++ ".json") "rindex.json") as [E | _].
  { exfalso. apply Hr. exact (append_inv_tail _ "rindex" ".json" E). }
  cbn [orb json_loads_sig].
  destruct (String.eqb_spec "default" name) as [E | _]; [ congruence | reflexivity ].
Qed.

Lemma account_file_yielded (name : string) (w : world) (bom : bool) (j : json) :
  plain_name name -> name <> "default" ->
  Str.lower name <> "index" -> Str.lower name <> "rindex" ->
  path w <> "" ->
  Fs.read (fst (Wallet._get_account_paths (path w) name)) (disk w) = Ok (Doc bom j) ->
  In (name, Json.load j) (Wallet.yields (Fs.walk (path w) (disk w))).
Proof.
  intros Hpl Hnd Hi Hr Hp H.
  destruct (plain_paths (path w) name Hpl Hnd) as [Hg _].
  destruct (shard_names name Hpl) as [[Ht Hmt] [Hf Hmf]].
  rewrite Hg in H. cbn [fst] in H. unfold Wallet.shard_fname, Fs.read in H.
  rewrite (stat_child _ _ (disk w) Hf Hmf) in H. unfold Wallet.shard_path in H.
  rewrite (components_child _ _ Ht Hmt), <- app_assoc in H.
  destruct (Fs.lookup _ (disk w)) as [[c |] |] eqn:L; try discriminate H.
  injection H as ->.
  unfold Wallet.yields. apply in_flat_map.
  exists (Fs.components (path w) ++ [Str.take 2 name], (name ++ ".json")%string, Doc bom j).
  split; [ exact (read_walk _ _ _ _ _ Hp L) | ].
  cbn [fst snd]. rewrite (parse_account_file name bom j Hpl Hnd Hi Hr).
  left. reflexivity.
Qed.

Lemma list_accounts_has (w : world) (account : string * pyval) :
  In account (Wallet.yields (Fs.walk (path w) (disk w))) ->
  exists items,
    Wallet.list_accounts w = (Ok (PDict items), w)
    /\ Py.getitem (PDict items) (PStr (fst account)) = Ok (PInt (-1)).
Proof.
  intros Ha.
  set (l := Wallet.yields (Fs.walk (path w) (disk w))) in *.
  set (pairs := map (fun a : string * pyval => (KStr (fst a), PInt (-1))) l).
  exists (Py.dict_of_pairs pairs).
  assert (Hv : Forall (fun kv => snd kv = PInt (-1)) (Py.dict_of_pairs pairs)).
  { apply (dict_of_pairs_values (fun v => v = PInt (-1))).
    unfold pairs. apply Forall_forall. intros kv Hkv.
    apply in_map_iff in Hkv as [a [<- _]]. reflexivity. }
  rewrite Forall_forall in Hv.
  split; [ reflexivity | ]. cbn [Py.getitem Py.to_key].
  destruct (Py.dict_get (Py.dict_of_pairs pairs) (KStr (fst account))) as [v |] eqn:Eg.
  - destruct (dict_get_in _ _ _ Eg) as [k' Hin].
    assert (E := Hv (k', v) Hin). cbn [snd] in E. rewrite E. reflexivity.
  - exfalso. revert Eg. unfold Py.dict_of_pairs. apply fold_set_has_key.
    right. exists (PInt (-1)). unfold pairs.
    apply in_map_iff. exists account. split; [ reflexivity | exact Ha ].
Qed.

(** X17: a stored account is listed, unless it has the name of an index
    file.  For a valid name without [/] that is not [default] and, in
    lower case, neither [index] nor [rindex]: when the account's file is a
    JSON document (with or without a byte order mark) and the store path
    is not empty, [list_accounts] returns a dict with the name as a key,
    and changes nothing. *)
Theorem stored_account_is_listed (name : string) (w : world) (bom : bool) (j : json) :
  plain_name name -> name <> "default" ->
  Str.lower name <> "index" -> Str.lower name <> "rindex" ->
  path w <> "" ->
  Fs.read (fst (Wallet._get_account_paths (path w) name)) (disk w) = Ok (Doc bom j) ->
  exists items,
    Wallet.list_accounts w = (Ok (PDict items), w)
    /\ Py.getitem (PDict items) (PStr name) = Ok (PInt (-1)).
Proof.
  intros Hpl Hnd Hi Hr Hp H.
  exact (list_accounts_has w (name, Json.load j)
           (account_file_yielded name w bom j Hpl Hnd Hi Hr Hp H)).
Qed.

Lemma stored_account_is_listed_witness :
  exists items,
    Wallet.list_accounts (Demo.wallet Demo.empty_account (PDict []))
    = (Ok (PDict items), Demo.wallet Demo.empty_account (PDict []))
    /\ Py.getitem (PDict items) (PStr "ab") = Ok (PInt (-1)).
Proof.
  apply (stored_account_is_listed "ab" (Demo.wallet Demo.empty_account (PDict []))
           false (JObj [("encrypted", JBool false); ("addresses", JArr [])])).
  - split; [ simpl; lia | split; reflexivity ].
  - discriminate.
  - discriminate.
  - discriminate.
  - discriminate.
  - reflexivity.
Defined.

(** X18: an account file with a byte order mark is enumerated but cannot
    be opened.  For such a name, when the account's file is a JSON
    document that starts with a byte order mark: [_parse_accounts] yields
    the account with the document's value (so [reindex] and
    [list_accounts] see it), while [_get_account], [get_new_address] and
    [get_addresses_by_account] raise [ValueError] and change nothing. *)
Theorem marked_account_listed_not_read
    (provider : nat -> keypair) (name : string) (w : world) (j : json) :
  plain_name name -> name <> "default" ->
  Str.lower name <> "index" -> Str.lower name <> "rindex" ->
  path w <> "" ->
  Fs.read (fst (Wallet._get_account_paths (path w) name)) (disk w) = Ok (Doc true j) ->
  In (name, Json.load j) (Wallet.yields (Fs.walk (path w) (disk w)))
  /\ Wallet._get_account provider name w = (Raise ValueError, w)
  /\ Wallet.get_new_address provider name w = (Raise ValueError, w)
  /\ Wallet.get_addresses_by_account provider name w = (Raise ValueError, w).
Proof.
  intros Hpl Hnd Hi Hr Hp H.
  split; [ exact (account_file_yielded name w true j Hpl Hnd Hi Hr Hp H) | ].
  assert (G : Wallet._get_account provider name w = (Raise ValueError, w)).
  { unfold Wallet._get_account.
    destruct (check_accepted name w (plain_accepted name Hpl)) as [v Hv].
    rewrite (bind_ok _ Hv). run.
    rewrite (read_isfile _ _ _ H). cbn [negb].
    unfold json_load_from. rewrite H. reflexivity. }
  split; [ exact G | ].
  split; [ unfold Wallet.get_new_address | unfold Wallet.get_addresses_by_account ];
    rewrite (bind_raise _ G); reflexivity.
Qed.

Lemma marked_account_listed_not_read_witness :
  Wallet.get_new_address Demo.provider "ab"
    (Demo.wallet [("w", Dir [("ab", Dir [("ab.json", File (Doc true (JObj [])))])])]
       (PDict []))
  = (Raise ValueError,
     Demo.wallet [("w", Dir [("ab", Dir [("ab.json", File (Doc true (JObj [])))])])]
       (PDict [])).
Proof.
  refine (proj1 (proj2 (proj2
    (marked_account_listed_not_read Demo.provider "ab"
       (Demo.wallet [("w", Dir [("ab", Dir [("ab.json", File (Doc true (JObj [])))])])]
          (PDict []))
       (JObj []) _ _ _ _ _ _)))).
  - split; [ simpl; lia | split; reflexivity ].
  - discriminate.
  - discriminate.
  - discriminate.
  - discriminate.
  - reflexivity.
Defined.

(** ** What the constructor leaves alone *)

Lemma keeps_write_new (ps : list (list string)) (v : pyval) (parent n : string)
    (w : world) :
  n <> "" -> Str.mem "/" n = false ->
  Fs.exists_ (parent ++ "/" ++ n) (disk w) = false ->
  keeps_but ps w (snd (json_dump_to v (parent ++ "/" ++ n) w)).
Proof.
  intros Hne Hm Hex. unfold json_dump_to.
  destruct (Fs.write _ _ (disk w)) as [d1 | e] eqn:E; cbn [snd]; [ | apply keeps_refl ].
  split; [ destruct w; reflexivity | ].
  intros q c _ H. rewrite (write_child parent n _ _ Hne Hm) in E.
  destruct (Fs.modify (Fs.components parent) _ (disk w)) as [d2 |] eqn:Em;
    [ | discriminate E ].
  injection E as ->.
  destruct (modify_put_keeps _ _ _ _ _ q c Em H) as [K | [_ L]].
  - destruct w; exact K.
  - exfalso. unfold Fs.exists_ in Hex. rewrite (stat_child parent n _ Hne Hm), L in Hex.
    discriminate Hex.
Qed.

Lemma keeps_load (ps : list (list string)) (w : world) :
  In (Fs.components (path w) ++ ["rindex.json"]) ps ->
  keeps_but ps w (snd (Wallet.load w)).
Proof.
  intros Hin. unfold Wallet.load. rewrite bind_gets. cbv zeta.
  unfold os_path_exists. rewrite bind_gets.
  destruct (Fs.exists_ (path w ++ "/index.json") (disk w)) eqn:Ex; cbn [negb].
  - apply bind_inv; [ rewrite load_from_pure; apply keeps_refl | ].
    intros idx w1 E _.
    assert (E1 : w1 = w) by (rewrite <- (load_from_pure (path w ++ "/index.json") w), E;
                             reflexivity).
    subst w1. rewrite bind_modify.
    apply try_inv.
    + apply bind_inv.
      * rewrite load_from_pure. apply keeps_same; reflexivity.
      * intros r w2 E2 _.
        assert (E3 : w2 = set_index idx w).
        { rewrite <- (load_from_pure (path w ++ "/rindex.json") (set_index idx w)), E2.
          reflexivity. }
        subst w2. apply keeps_same; reflexivity.
    + intros e w2 K. apply (keeps_trans ps w w2 _ K). apply keeps_same; reflexivity.
  - rewrite bind_gets. destruct (verbose w); cbn [when]; [ | apply keeps_refl ].
    rewrite bind_modify, bind_gets.
    set (wi := set_index _ w).
    apply bind_inv.
    { apply (keeps_trans ps w wi); [ apply keeps_same; reflexivity | ].
      change (path w ++ "/index.json")%string
        with (path w ++ "/" ++ "index.json")%string in Ex |- *.
      apply keeps_write_new; [ discriminate | reflexivity | exact Ex ]. }
    intros u w2 _ K2. rewrite bind_modify.
    apply (keeps_trans ps w w2 _ K2).
    apply (keeps_trans ps w2 (set_address_to_account (PDict []) w2));
      [ apply keeps_same; reflexivity | ].
    apply keeps_save_rindex. cbn [path set_address_to_account].
    destruct K2 as [-> _]. exact Hin.
Qed.

(** X19: the constructor destroys no file.  Whatever the path, the
    verbosity and the disk, and whether it ends with or without error:
    every regular file of the disk other than [<path>/rindex.json] is there
    afterwards with the content it had. *)
Theorem init_keeps_files (p : string) (v : bool) (d : listing)
    (q : list string) (c : content) :
  Fs.file_at q c d ->
  q <> Fs.components p ++ ["rindex.json"] ->
  Fs.file_at q c (disk (snd (Wallet.__init__ p v d))).
Proof.
  intros Hq Hne.
  set (self := World d p v false false "" (Str.repeat 16 "000") PNone KeyM.new
                     (PDict [])).
  set (ps := [Fs.components p ++ ["rindex.json"]]).
  assert (K : keeps_but ps self (snd (Wallet.__init__ p v d))).
  { unfold Wallet.__init__. fold self.
    unfold os_path_exists. rewrite bind_gets.
    apply bind_inv.
    { destruct (negb _); cbn [when]; [ | apply keeps_refl ].
      rewrite bind_gets. destruct (verbose self); cbn [when];
        [ apply keeps_mkdir | apply keeps_refl ]. }
    intros u w1 _ K1. rewrite bind_modify.
    apply (keeps_trans ps self w1 _ K1).
    apply (keeps_trans ps w1 (set_key KeyM.new w1)); [ apply keeps_same; reflexivity | ].
    apply keeps_load. cbn [path set_key]. destruct K1 as [-> _]. left. reflexivity. }
  destruct K as [_ K]. apply K; [ | exact Hq ].
  intros [E | []]. exact (Hne (eq_sym E)).
Qed.

Lemma init_keeps_files_witness :
  Fs.file_at ["w"; "default.json"] (Demo.record [Demo.entry "A" "PRIV" "PUB"])
    (disk (snd (Wallet.__init__ "w" true Demo.no_rindex))).
Proof.
  apply (init_keeps_files "w" true Demo.no_rindex).
  - exists [("index.json", File Demo.index_doc);
            ("default.json", File (Demo.record [Demo.entry "A" "PRIV" "PUB"]))].
    split; [ left; reflexivity | right; left; reflexivity ].
  - intros E. vm_compute in E. discriminate E.
Defined.

Lemma list_accounts_lists_yielded_witness :
  exists items,
    fst (Wallet.list_accounts (Demo.wallet Demo.one_default (PDict []))) = Ok (PDict items)
    /\ Py.getitem (PDict items) (PStr "") = Ok (PInt (-1)).
Proof.
  destruct (list_accounts_lists_yielded
              (Demo.wallet Demo.one_default (PDict []))
              (snd (Wallet.list_accounts (Demo.wallet Demo.one_default (PDict []))))
              (PDict [(KStr "", PInt (-1))]))
    as [_ [items [H1 [_ H3]]]].
  - vm_compute. reflexivity.
  - exists items. split; [ rewrite <- H1; vm_compute; reflexivity | ].
    apply (H3 ("", PDict [(KStr "encrypted", PBool false);
                          (KStr "addresses",
                           PList [PList [PStr "A"; PStr "PRIV"; PStr "PUB"]])])).
    vm_compute. left. reflexivity.
Defined.

Lemma reindex_keeps_accounts_witness :
  Fs.file_at ["w"; "default.json"] (Demo.record [Demo.entry "A" "PRIV" "PUB"])
    (disk (snd (Wallet.reindex (Demo.wallet Demo.one_default (PDict []))))).
Proof.
  apply (proj2 (reindex_keeps_accounts (Demo.wallet Demo.one_default (PDict [])))).
  - intros E. vm_compute in E. discriminate E.
  - exists [("index.json", File Demo.index_doc);
            ("rindex.json", File (Doc false (JObj [("A", JStr "")])));
            ("default.json", File (Demo.record [Demo.entry "A" "PRIV" "PUB"]))].
    split; [ left; reflexivity | right; right; left; reflexivity ].
Defined.
